(** * Project Loom: the simulation engine of [ProjectLoomApp]

    A shallow embedding of the conversational simulation engine of the
    in-memory variant of the application (the component [ProjectLoomApp]
    with its nested [Simulation] component): the prompt builder, the two
    provider adapters with their fallback, the turn engine with its
    auto-loop, the transcript and the export.

    Conventions.
    - JavaScript strings are [string]s: sequences of code units below
      256. String concatenation and template literals are [+:+].
    - A field that may be missing from an object ([undefined]) is an
      [option].
    - Everything the code obtains from outside (the reply of a provider,
      [Math.random()], [Date.now()], [toLocaleTimeString()]) is an explicit
      argument, so every definition is a function that can be evaluated. *)

From Stdlib Require Import ZArith Lia Ascii DecimalString DecimalZ DecimalPos.
From stdpp Require Import base list strings gmap.

Set Warnings "-register-all".

#[local] Arguments String.append !_ _ : simpl nomatch.

(** ** JavaScript strings *)

Module JS.

(** The line feed written [\n] in the source. *)
Definition nl : string := String (ascii_of_nat 10) "".

(** Truthiness of a string: every string but the empty one. *)
Definition truthy (s : string) : bool := negb (String.eqb s "").

(** [String.prototype.toLowerCase]: of the code units below 256, the
    capital letters are A to Z (65 to 90) and those of Latin-1 (192 to 222
    but for the multiplication sign, 215); the small letter is 32 further. *)
Definition lower (c : ascii) : ascii :=
  let n := nat_of_ascii c in
  if ((65 <=? n)%nat && (n <=? 90)%nat)
     || ((192 <=? n)%nat && (n <=? 222)%nat && negb (n =? 215)%nat)
  then ascii_of_nat (n + 32) else c.

Fixpoint toLowerCase (s : string) : string :=
  match s with
  | EmptyString => EmptyString
  | String c r => String (lower c) (toLowerCase r)
  end.

(** [s.includes(sub)]. *)
Definition includes (s sub : string) : Prop :=
  exists pre post, s = pre +:+ sub +:+ post.

(** [s.startsWith(sub)] and [s.includes(sub)] as tests that compute. *)
Fixpoint startsWith (s sub : string) {struct sub} : bool :=
  match sub, s with
  | EmptyString, _ => true
  | String c sub, String d s => Ascii.eqb c d && startsWith s sub
  | String _ _, EmptyString => false
  end.

Fixpoint includesb (s sub : string) : bool :=
  startsWith s sub
  || match s with
     | EmptyString => false
     | String _ r => includesb r sub
     end.

(** Only ASCII characters, as in the trait names of the taxonomy. *)
Fixpoint isAscii (s : string) : bool :=
  match s with
  | EmptyString => true
  | String c r => (nat_of_ascii c <? 128)%nat && isAscii r
  end.

(** The names every object inherits from [Object.prototype]: a lookup
    [obj[k]] with one of them as key does not yield [undefined] even when
    the object literal has no such key. *)
Definition inheritedNames : list string :=
  [ "constructor"; "__defineGetter__"; "__defineSetter__"; "hasOwnProperty";
    "__lookupGetter__"; "__lookupSetter__"; "isPrototypeOf";
    "propertyIsEnumerable"; "toString"; "valueOf"; "__proto__";
    "toLocaleString" ].

Definition inherited (k : string) : bool :=
  existsb (String.eqb k) inheritedNames.

End JS.

(** ** Data model *)

(** One entry of [persona.traits], built by [handleTraitToggle] as
    [{ name, category, intensity }]. *)
Module Trait.
Record t : Type := mk {
  name : string;
  category : string;
  intensity : option string
}.

(** The name is ASCII, as the names of the taxonomy are, and the intensity
    is missing or a plain string: not a name that [intensityDesc[...]]
    would find on [Object.prototype]. *)
Definition wf (x : t) : Prop :=
  JS.isAscii (name x) = true
  /\ match intensity x with
     | Some k => JS.inherited k = false
     | None => True
     end.
End Trait.

(** A persona as the engine reads it. [wordLimit] is read by the adapters
    ([persona.wordLimit]); the persona-authoring flow never sets it. *)
Module Persona.
Record t : Type := mk {
  name : string;
  llm : string;
  role : string;
  traits : option (list Trait.t);
  knowledgeHub : option string;
  wordLimit : option Z
}.

Definition wf (p : t) : Prop :=
  match traits p with
  | Some ts => Forall Trait.wf ts
  | None => True
  end.
End Persona.

(** An environment as [CreateEnvironment] builds it (the fields the
    simulation reads). *)
Module Environment.
Record t : Type := mk {
  name : string;
  participants : list Persona.t;
  interactionMode : string;
  wordLimit : Z;
  startingPrompt : string;
  humanModerator : bool
}.
End Environment.

(** A transcript entry. The three object literals of the source
    ([startSimulation], [handleUserMessage], [simulateAIResponse]) share
    [id], [type], [content] and [timestamp]; only agent messages carry
    [persona], [llm] and [isRealAI]. The fields are listed in the order the
    literals write them. *)
Module Message.
Record t : Type := mk {
  id : Z;
  type : string;
  persona : option string;
  content : string;
  timestamp : string;
  llm : option string;
  isRealAI : option bool
}.
End Message.

(** [Date.now()] and [new Date().toLocaleTimeString()] at the moment a
    message is built. *)
Record Clock : Type := { now : Z; localeTime : string }.

(** ** Prompt builder *)

Module Prompt.
Import JS.

(** The object literal [intensityDesc]. *)
Definition intensityDesc : gmap string string :=
  {[ "Weak" := "slightly"; "Neutral" := "moderately"; "Strong" := "very" ]}.

(** [intensityDesc[trait.intensity] || 'moderately'], for an intensity
    that is missing or not a name of [JS.inheritedNames]: with one of
    those, the lookup of the code finds the member of [Object.prototype]
    and prints it. [Trait.wf] keeps them out. *)
Definition intensityAdverb (i : option string) : string :=
  match i with
  | Some k => default "moderately" (intensityDesc !! k)
  | None => "moderately"
  end.

(** The line one [forEach] iteration appends. *)
Definition traitLine (x : Trait.t) : string :=
  "- " +:+ intensityAdverb (Trait.intensity x) +:+ " "
       +:+ toLowerCase (Trait.name x) +:+ nl.

Definition identityLine (p : Persona.t) : string :=
  "You are " +:+ Persona.name p +:+ ", " +:+ Persona.role p.

Definition traitsHeader : string := "Your personality traits:".
Definition knowledgeHeader : string := "Background and Knowledge:".

Definition closing (p : Persona.t) : string :=
  "IMPORTANT: Stay in character as " +:+ Persona.name p +:+
  ". Respond based on your traits, role, and background. Keep responses conversational and authentic to your personality.".

(** [persona.traits && persona.traits.length > 0] *)
Definition hasTraits (p : Persona.t) : bool :=
  match Persona.traits p with
  | Some (_ :: _) => true
  | _ => false
  end.

(** [if (persona.knowledgeHub)] *)
Definition hasKnowledge (p : Persona.t) : bool :=
  match Persona.knowledgeHub p with
  | Some k => truthy k
  | None => false
  end.

(** [buildSystemPrompt]: the variable [prompt] is threaded through the
    three conditional updates; [forEach] is a left fold. *)
Definition buildSystemPrompt (p : Persona.t) : string :=
  let prompt := identityLine p +:+ nl +:+ nl in
  let prompt :=
    if hasTraits p then
      let prompt := prompt +:+ traitsHeader +:+ nl in
      let prompt :=
        fold_left (fun prompt x => prompt +:+ traitLine x)
                  (default [] (Persona.traits p)) prompt in
      prompt +:+ nl
    else prompt in
  let prompt :=
    if hasKnowledge p then
      prompt +:+ knowledgeHeader +:+ nl
             +:+ default "" (Persona.knowledgeHub p) +:+ nl +:+ nl
    else prompt in
  prompt +:+ closing p.


End Prompt.

(** ** Model adapters *)

Module Adapter.
Import JS.

(** The state [apiKeys] of [ProjectLoomApp]; [''] is "not configured". *)
Record ApiKeys : Type := { openai : string; claude : string }.

(** One entry of the [messages] array of a request. *)
Record ChatMessage : Type := { role : string; text : string }.

(** The JSON body of the two requests, before [JSON.stringify]. The
    number literal [0.8] is kept as its decimal text. *)
Inductive Body : Type :=
| ChatCompletion (model : string) (messages : list ChatMessage)
                 (max_tokens : Z) (temperature : string)
| MessageCompletion (model : string) (max_tokens : Z) (system : string)
                    (messages : list ChatMessage).

Record Request : Type := {
  url : string;
  headers : list (string * string);
  body : Body
}.

Definition max_tokens_of (r : Request) : Z :=
  match body r with
  | ChatCompletion _ _ n _ => n
  | MessageCompletion _ n _ _ => n
  end.

(** What comes back from [fetch]: the call or the reading of the body
    raises a JavaScript error with some message, or the provider answers
    with [response.ok] and the generated text at the expected place, or
    with an error status and possibly [error.error.message]. *)
Inductive Reply : Type :=
| Failed (message : string)
| Ok (generated : string)
| NotOk (upstream : option string).

(** *** Effects: requests sent, and exceptions

    A computation yields the list of requests it has sent and either the
    message of the [Error] it threw or its value. *)
Definition M (A : Type) : Type := list Request * (string + A).

Definition ret {A} (a : A) : M A := ([], inr a).
Definition throw {A} (message : string) : M A := ([], inl message).

Definition bind {A B} (m : M A) (f : A -> M B) : M B :=
  match m with
  | (sent, inl e) => (sent, inl e)
  | (sent, inr a) => let '(sent', r) := f a in (sent ++ sent', r)
  end.

(** [try { m } catch (error) { h error.message }] *)
Definition try_catch {A} (m : M A) (h : string -> M A) : M A :=
  match m with
  | (sent, inl e) => let '(sent', r) := h e in (sent ++ sent', r)
  | (sent, inr a) => (sent, inr a)
  end.

Notation "'let*' x ':=' m 'in' k" := (bind m (fun x => k))
  (at level 10, x name, m at level 100, k at level 200).

(** [await fetch(...)] with the reply the outside world gives. *)
Definition fetch (request : Request) (reply : Reply) : M Reply :=
  ([request], inr reply).

Definition sent {A} (m : M A) : list Request := fst m.
Definition outcome {A} (m : M A) : string + A := snd m.

(** [msg.type === 'user' ? 'user' : 'assistant'] *)
Definition toChatMessage (msg : Message.t) : ChatMessage :=
  {| role := if String.eqb (Message.type msg) "user" then "user" else "assistant";
     text := Message.content msg |}.

(** [persona.wordLimit || 200] *)
Definition maxTokens (persona : Persona.t) : Z :=
  match Persona.wordLimit persona with
  | Some n => if (n =? 0)%Z then 200%Z else n
  | None => 200%Z
  end.

(** [error.error?.message || 'Unknown error'] *)
Definition upstreamMessage (upstream : option string) : string :=
  match upstream with
  | Some m => if truthy m then m else "Unknown error"
  | None => "Unknown error"
  end.

Definition openaiRequest (apiKeys : ApiKeys) (messages : list Message.t)
    (persona : Persona.t) : Request :=
  {| url := "https://api.openai.com/v1/chat/completions";
     headers := [ ("Authorization", "Bearer " +:+ openai apiKeys);
                  ("Content-Type", "application/json") ];
     body := ChatCompletion "gpt-4"
               ({| role := "system"; text := Prompt.buildSystemPrompt persona |}
                  :: map toChatMessage messages)
               (maxTokens persona) "0.8" |}.

Definition claudeRequest (apiKeys : ApiKeys) (messages : list Message.t)
    (persona : Persona.t) : Request :=
  {| url := "https://api.anthropic.com/v1/messages";
     headers := [ ("x-api-key", claude apiKeys);
                  ("Content-Type", "application/json");
                  ("anthropic-version", "2023-06-01") ];
     body := MessageCompletion "claude-3-sonnet-20240229" (maxTokens persona)
               (Prompt.buildSystemPrompt persona)
               (map toChatMessage messages) |}.

Definition callOpenAI (apiKeys : ApiKeys) (reply : Reply)
    (messages : list Message.t) (persona : Persona.t) : M string :=
  if negb (truthy (openai apiKeys)) then throw "OpenAI API key not configured"
  else
    let* response := fetch (openaiRequest apiKeys messages persona) reply in
    match response with
    | Failed e => throw e
    | NotOk upstream => throw ("OpenAI API Error: " +:+ upstreamMessage upstream)
    | Ok generated => ret generated
    end.

Definition callClaude (apiKeys : ApiKeys) (reply : Reply)
    (messages : list Message.t) (persona : Persona.t) : M string :=
  if negb (truthy (claude apiKeys)) then throw "Claude API key not configured"
  else
    let* response := fetch (claudeRequest apiKeys messages persona) reply in
    match response with
    | Failed e => throw e
    | NotOk upstream => throw ("Claude API Error: " +:+ upstreamMessage upstream)
    | Ok generated => ret generated
    end.

(** The five templates of [getSimulatedResponse]. *)
Definition responses (persona : Persona.t) : list string :=
  [ "As " +:+ Persona.name persona +:+ ", given my role as " +:+ Persona.role persona
      +:+ ", I think we should approach this systematically. My experience tells me that this situation requires careful consideration of all stakeholders involved.";
    "Speaking from my perspective as " +:+ Persona.role persona
      +:+ ", I'd like to challenge some assumptions here. We're looking at this from a narrow perspective, and I believe we need to expand our thinking beyond conventional solutions.";
    "I appreciate the different viewpoints being shared. From my analytical perspective, I see several patterns emerging that we should address. Let me break down what I'm observing and propose a path forward.";
    "This reminds me of a similar situation I encountered before. The key insight I gained was that sustainable solutions often require us to balance competing priorities rather than choosing sides.";
    "I'm curious about the underlying motivations here. If we dig deeper into the 'why' behind these surface-level issues, I think we'll find more creative and effective approaches to resolution." ].

(** [responses[Math.floor(Math.random() * responses.length)]]: the draw
    is a natural number, the index its remainder modulo five. *)
Definition getSimulatedResponse (persona : Persona.t) (random : nat) : string :=
  default "" (responses persona !! (random mod 5)%nat).

Definition isOpenAI (persona : Persona.t) : bool :=
  String.eqb (Persona.llm persona) "ChatGPT (OpenAI)".
Definition isClaude (persona : Persona.t) : bool :=
  String.eqb (Persona.llm persona) "Claude (Anthropic)".

Definition callRealAI (apiKeys : ApiKeys) (reply : Reply) (random : nat)
    (persona : Persona.t) (conversationHistory : list Message.t) : M string :=
  try_catch
    (if isOpenAI persona then callOpenAI apiKeys reply conversationHistory persona
     else if isClaude persona then callClaude apiKeys reply conversationHistory persona
     else ret (getSimulatedResponse persona random))
    (fun message =>
       ret ("[" +:+ Persona.name persona +:+ "]: " +:+ message
                +:+ ". Falling back to simulated response: "
                +:+ getSimulatedResponse persona random)).

(** Everything a turn takes from outside the program. *)
Record Outside : Type := { reply : Reply; random : nat; clock : Clock }.

(** The object literal [newMessage] of [simulateAIResponse]. *)
Definition agentMessage (persona : Persona.t) (c : Clock) (response : string)
    (live : bool) : Message.t :=
  {| Message.id := now c;
     Message.type := "ai";
     Message.persona := Some (Persona.name persona);
     Message.content := response;
     Message.timestamp := localeTime c;
     Message.llm := Some (Persona.llm persona);
     Message.isRealAI := Some live |}.

(** [localChatHistory.filter(msg => msg.type !== 'system')] *)
Definition conversationContext (localChatHistory : list Message.t) : list Message.t :=
  filter (fun msg => Message.type msg <> "system") localChatHistory.

(** The [try] block of [simulateAIResponse], up to the construction of
    [newMessage]. [localChatHistory] is the value the closure captured. *)
Definition attempt (apiKeys : ApiKeys) (localChatHistory : list Message.t)
    (persona : Persona.t) (o : Outside) : M Message.t :=
  let context := conversationContext localChatHistory in
  let* r :=
    (if truthy (openai apiKeys) && isOpenAI persona then
       let* response := callRealAI apiKeys (reply o) (random o) persona context in
       ret (response, true)
     else if truthy (claude apiKeys) && isClaude persona then
       let* response := callRealAI apiKeys (reply o) (random o) persona context in
       ret (response, true)
     else ret (getSimulatedResponse persona (random o), false)) in
  ret (agentMessage persona (clock o) (fst r) (snd r)).

(** [simulateAIResponse] without its updates of the component state
    (those are [Engine.beginTurn] and [Engine.finishTurn]): the message it
    appends and returns. *)
Definition simulateAIResponse (apiKeys : ApiKeys) (localChatHistory : list Message.t)
    (persona : Persona.t) (o : Outside) : M Message.t :=
  try_catch (attempt apiKeys localChatHistory persona o)
    (fun _ =>
       ret (agentMessage persona (clock o)
              ("[Connection Error]: " +:+ getSimulatedResponse persona (random o))
              false)).

(** The requests [simulateAIResponse] has sent when it suspends at its
    [await]. *)
Definition outgoing (apiKeys : ApiKeys) (localChatHistory : list Message.t)
    (persona : Persona.t) : list Request :=
  let context := conversationContext localChatHistory in
  if truthy (openai apiKeys) && isOpenAI persona then
    [openaiRequest apiKeys context persona]
  else if truthy (claude apiKeys) && isClaude persona then
    [claudeRequest apiKeys context persona]
  else [].

(** The message a turn appends: the value [simulateAIResponse] returns.
    (It always returns one: see [AdapterFacts.simulateAIResponse_returns].) *)
Definition newMessage (apiKeys : ApiKeys) (localChatHistory : list Message.t)
    (persona : Persona.t) (o : Outside) : Message.t :=
  match outcome (simulateAIResponse apiKeys localChatHistory persona o) with
  | inr m => m
  | inl _ => agentMessage persona (clock o) "" false
  end.

End Adapter.

(** ** Turn engine

    The [Simulation] component: its React state, its ref, its handlers and
    the asynchronous functions it starts.

    React and the JavaScript event loop are modelled as follows.
    - A handler, and each stretch of an [async] function between two
      [await]s, runs without interruption. The state variables it reads
      ([isProcessing], [selectedEnvironment], [localChatHistory]) are those
      of the last render; the updates it requests through the setters are
      applied to the state when it is done.
    - [simulationRunningRef.current] is written by the effect
      [useEffect(() => { simulationRunningRef.current = isSimulationRunning },
      [isSimulationRunning])] only: after the render that follows a stretch
      of code ([commit]), never during it.
    - A suspended [async] call is a [Task] in the list [tasks]; when its
      timer fires or its reply arrives the event loop resumes it ([resume]).
    - [network] records the requests sent so far. *)

Module Engine.
Import JS Adapter.

(** [const maxRounds = 5] *)
Definition maxRounds : nat := 5.

(** The variables one call of [handleAutoLoop] creates and [runNextTurn]
    closes over: [participants], [currentRound], and the
    [localChatHistory] that the captured [simulateAIResponse] reads. *)
Record Loop : Type := {
  participants : list Persona.t;
  currentRound : nat;
  captured : list Message.t
}.

Inductive Task : Type :=
| ManualTurn (persona : Persona.t) (seen : list Message.t)
    (** [handleManualTurn] awaiting [simulateAIResponse] *)
| LoopTurn (l : Loop) (i : nat) (persona : Persona.t)
    (** [runNextTurn] awaiting [simulateAIResponse(participants[i])] *)
| LoopPacing (l : Loop) (i : nat)
    (** [runNextTurn] awaiting the 1500 ms timer after [participants[i]] *)
| LoopTimer (l : Loop)
    (** [setTimeout(runNextTurn, 1000)] not yet fired *)
| Finished.

Record State : Type := {
  selectedEnvironment : option Environment.t;
  userMessage : string;
  isProcessing : bool;
  localChatHistory : list Message.t;
  isSimulationRunning : bool;
  simulationRunningRef : bool;
  tasks : list Task;
  network : list Request
}.

(** The state of a freshly mounted component. *)
Definition init : State :=
  {| selectedEnvironment := None; userMessage := ""; isProcessing := false;
     localChatHistory := []; isSimulationRunning := false;
     simulationRunningRef := false; tasks := []; network := [] |}.

Definition setSelectedEnvironment (v : option Environment.t) (s : State) : State :=
  {| selectedEnvironment := v; userMessage := userMessage s;
     isProcessing := isProcessing s; localChatHistory := localChatHistory s;
     isSimulationRunning := isSimulationRunning s;
     simulationRunningRef := simulationRunningRef s;
     tasks := tasks s; network := network s |}.

Definition setUserMessage (v : string) (s : State) : State :=
  {| selectedEnvironment := selectedEnvironment s; userMessage := v;
     isProcessing := isProcessing s; localChatHistory := localChatHistory s;
     isSimulationRunning := isSimulationRunning s;
     simulationRunningRef := simulationRunningRef s;
     tasks := tasks s; network := network s |}.

Definition setIsProcessing (v : bool) (s : State) : State :=
  {| selectedEnvironment := selectedEnvironment s; userMessage := userMessage s;
     isProcessing := v; localChatHistory := localChatHistory s;
     isSimulationRunning := isSimulationRunning s;
     simulationRunningRef := simulationRunningRef s;
     tasks := tasks s; network := network s |}.

Definition setLocalChatHistory (v : list Message.t) (s : State) : State :=
  {| selectedEnvironment := selectedEnvironment s; userMessage := userMessage s;
     isProcessing := isProcessing s; localChatHistory := v;
     isSimulationRunning := isSimulationRunning s;
     simulationRunningRef := simulationRunningRef s;
     tasks := tasks s; network := network s |}.

Definition setIsSimulationRunning (v : bool) (s : State) : State :=
  {| selectedEnvironment := selectedEnvironment s; userMessage := userMessage s;
     isProcessing := isProcessing s; localChatHistory := localChatHistory s;
     isSimulationRunning := v;
     simulationRunningRef := simulationRunningRef s;
     tasks := tasks s; network := network s |}.

Definition setTasks (v : list Task) (s : State) : State :=
  {| selectedEnvironment := selectedEnvironment s; userMessage := userMessage s;
     isProcessing := isProcessing s; localChatHistory := localChatHistory s;
     isSimulationRunning := isSimulationRunning s;
     simulationRunningRef := simulationRunningRef s;
     tasks := v; network := network s |}.

Definition setNetwork (v : list Request) (s : State) : State :=
  {| selectedEnvironment := selectedEnvironment s; userMessage := userMessage s;
     isProcessing := isProcessing s; localChatHistory := localChatHistory s;
     isSimulationRunning := isSimulationRunning s;
     simulationRunningRef := simulationRunningRef s;
     tasks := tasks s; network := v |}.

(** The render after a stretch of code, and the effect that copies
    [isSimulationRunning] into the ref. *)
Definition commit (s : State) : State :=
  {| selectedEnvironment := selectedEnvironment s; userMessage := userMessage s;
     isProcessing := isProcessing s; localChatHistory := localChatHistory s;
     isSimulationRunning := isSimulationRunning s;
     simulationRunningRef := isSimulationRunning s;
     tasks := tasks s; network := network s |}.

Definition setTask (n : nat) (t : Task) (s : State) : State :=
  setTasks (<[n := t]> (tasks s)) s.

(** [userMessage.trim()] is empty: only white space and line ends (of
    the code units below 256: tab to carriage return, space, no-break
    space). *)
Definition isSpace (c : ascii) : bool :=
  let n := nat_of_ascii c in
  ((9 <=? n)%nat && (n <=? 13)%nat) || (n =? 32)%nat || (n =? 160)%nat.

Fixpoint blank (s : string) : bool :=
  match s with
  | EmptyString => true
  | String c r => isSpace c && blank r
  end.

Section Handlers.
(** The [apiKeys] of the enclosing component, fixed while a
    [Simulation] component is mounted. *)
Variable apiKeys : ApiKeys.

(** [startSimulation(environment)] *)
Definition startSimulation (environment : Environment.t) (c : Clock)
    (s : State) : State :=
  let s := setSelectedEnvironment (Some environment) s in
  let s := setLocalChatHistory [] s in
  if truthy (Environment.startingPrompt environment) then
    setLocalChatHistory
      [ {| Message.id := now c; Message.type := "system";
           Message.persona := None;
           Message.content := Environment.startingPrompt environment;
           Message.timestamp := localeTime c;
           Message.llm := None; Message.isRealAI := None |} ] s
  else s.

(** [simulateAIResponse] up to its [await]: [setIsProcessing(true)] and
    the request, if one is sent. [seen] is the [localChatHistory] of the
    closure. *)
Definition beginTurn (persona : Persona.t) (seen : list Message.t)
    (s : State) : State :=
  setNetwork (network s ++ outgoing apiKeys seen persona)
             (setIsProcessing true s).

(** [simulateAIResponse] after its [await]:
    [setLocalChatHistory(prev => [...prev, newMessage])] and
    [setIsProcessing(false)]. *)
Definition finishTurn (newMessage : Message.t) (s : State) : State :=
  setIsProcessing false
    (setLocalChatHistory (localChatHistory s ++ [newMessage]) s).

(** [currentRound++] *)
Definition nextRound (l : Loop) : Loop :=
  {| participants := participants l;
     currentRound := S (currentRound l);
     captured := captured l |}.

(** The end of [runNextTurn], after the [for] loop. *)
Definition afterLoop (n : nat) (l : Loop) (s : State) : State :=
  let l := nextRound l in
  if simulationRunningRef s && (currentRound l <? maxRounds)%nat then
    setTask n (LoopTimer l) s
  else
    setTask n Finished (setIsSimulationRunning false s).

(** The [for] loop of [runNextTurn] from its test [i < participants.length]
    to the [await] inside [simulateAIResponse]. *)
Definition forLoop (n : nat) (l : Loop) (i : nat) (s : State) : State :=
  match participants l !! i with
  | Some persona =>
      if simulationRunningRef s then
        setTask n (LoopTurn l i persona) (beginTurn persona (captured l) s)
      else afterLoop n l s
  | None => afterLoop n l s
  end.

(** [runNextTurn] from its first line. *)
Definition runNextTurn (n : nat) (l : Loop) (s : State) : State :=
  if negb (simulationRunningRef s) then setTask n Finished s
  else if (maxRounds <=? currentRound l)%nat then
    setTask n Finished (setIsSimulationRunning false s)
  else forLoop n l 0 s.

(** [handleAutoLoop] *)
Definition handleAutoLoop (s : State) : State :=
  match selectedEnvironment s with
  | None => s
  | Some environment =>
      if isProcessing s then s
      else
        let n := length (tasks s) in
        let l := {| participants := Environment.participants environment;
                    currentRound := 0;
                    captured := localChatHistory s |} in
        runNextTurn n l
          (setTasks (tasks s ++ [Finished]) (setIsSimulationRunning true s))
  end.

(** [handleManualTurn(persona)] *)
Definition handleManualTurn (persona : Persona.t) (s : State) : State :=
  if isProcessing s then s
  else
    setTasks (tasks s ++ [ManualTurn persona (localChatHistory s)])
             (beginTurn persona (localChatHistory s) s).

(** [handleUserMessage] *)
Definition handleUserMessage (c : Clock) (s : State) : State :=
  if blank (userMessage s) then s
  else
    setUserMessage ""
      (setLocalChatHistory
         (localChatHistory s ++
            [ {| Message.id := now c; Message.type := "user";
                 Message.persona := None;
                 Message.content := userMessage s;
                 Message.timestamp := localeTime c;
                 Message.llm := None; Message.isRealAI := None |} ]) s).

(** [stopSimulation] *)
Definition stopSimulation (s : State) : State :=
  setIsProcessing false (setIsSimulationRunning false s).

(** The handler of the Back button. *)
Definition back (s : State) : State :=
  setIsSimulationRunning false
    (setLocalChatHistory [] (setSelectedEnvironment None s)).

(** The event loop resumes task [n]; [o] is what the outside world
    delivers (used when the task awaits a reply). An exception leaving
    [simulateAIResponse] would be caught by the [catch] of the loop
    ([continue]) or reject the promise of [handleManualTurn]. *)
Definition resume (n : nat) (o : Outside) (s : State) : State :=
  match tasks s !! n with
  | Some (ManualTurn persona seen) =>
      match outcome (simulateAIResponse apiKeys seen persona o) with
      | inr newMessage => setTask n Finished (finishTurn newMessage s)
      | inl _ => setTask n Finished s
      end
  | Some (LoopTurn l i persona) =>
      match outcome (simulateAIResponse apiKeys (captured l) persona o) with
      | inr newMessage => setTask n (LoopPacing l i) (finishTurn newMessage s)
      | inl _ => forLoop n l (S i) s
      end
  | Some (LoopPacing l i) =>
      if simulationRunningRef s then forLoop n l (S i) s
      else afterLoop n l s
  | Some (LoopTimer l) => runNextTurn n l s
  | Some Finished | None => s
  end.

(** What can happen to the component: a handler is called, or a
    suspended call is resumed. *)
Inductive Action : Type :=
| StartSimulation (environment : Environment.t) (c : Clock)
| AutoLoop
| Manual (persona : Persona.t)
| Typing (text : string)
| UserMessage (c : Clock)
| Stop
| Back
| Resume (n : nat) (o : Outside).

Definition handle (a : Action) (s : State) : State :=
  match a with
  | StartSimulation environment c => startSimulation environment c s
  | AutoLoop => handleAutoLoop s
  | Manual persona => handleManualTurn persona s
  | Typing text => setUserMessage text s
  | UserMessage c => handleUserMessage c s
  | Stop => stopSimulation s
  | Back => back s
  | Resume n o => resume n o s
  end.

(** One step: the code runs, then React renders and runs the effect. *)
Definition step (s : State) (a : Action) : State := commit (handle a s).

Definition steps (s : State) (l : list Action) : State := fold_left step l s.

(** *** The view

    Which handler each control of the rendered view calls. The Speak
    buttons are [disabled] while [isProcessing] is set; here they can still
    be pressed, and [handleManualTurn] decides. *)
Inductive Control : Type :=
| StartButton (environment : Environment.t) (c : Clock)
| AutoRunButton
| SpeakButton (i : nat)
| MessageInput (text : string)
| SendButton (c : Clock)
| BackButton.

Definition showsInput (environment : Environment.t) : bool :=
  String.eqb (Environment.interactionMode environment) "mixed"
  || Environment.humanModerator environment.

Definition bound (s : State) (c : Control) : option Action :=
  match selectedEnvironment s, c with
  | None, StartButton environment clk => Some (StartSimulation environment clk)
  | Some environment, AutoRunButton =>
      if String.eqb (Environment.interactionMode environment) "auto-loop" then
        Some (if isSimulationRunning s then Stop else AutoLoop)
      else None
  | Some environment, SpeakButton i =>
      if String.eqb (Environment.interactionMode environment) "manual" then
        Manual <$> Environment.participants environment !! i
      else None
  | Some environment, MessageInput text =>
      if showsInput environment then Some (Typing text) else None
  | Some environment, SendButton clk =>
      if showsInput environment then Some (UserMessage clk) else None
  | Some environment, BackButton => Some Back
  | _, _ => None
  end.

(** The states the component can be in: from [init] by using the
    controls of the view and by the event loop resuming a task. *)
Inductive reachable : State -> Prop :=
| reachable_init : reachable init
| reachable_control s c a :
    reachable s -> bound s c = Some a -> reachable (step s a)
| reachable_resume s n o :
    reachable s -> reachable (step s (Resume n o)).

(** The calls of [simulateAIResponse] that have not returned yet. *)
Definition inFlight (t : Task) : bool :=
  match t with
  | ManualTurn _ _ | LoopTurn _ _ _ => true
  | _ => false
  end.

Definition outstanding (s : State) : nat :=
  length (filter (fun t => inFlight t = true) (tasks s)).

(** *** An undisturbed round

    What the event loop does to the loop in slot [n] when nothing else
    happens: a timer fires and starts a turn, the reply of the turn
    arrives, the pacing timer fires and starts the next turn, and so on.
    [turns n os] are the events of [length os] consecutive turns, the
    [i]-th turn receiving [os !! i] from outside. *)
Definition turns (n : nat) (os : list Outside) : list Action :=
  flat_map (fun o => [Resume n o; Resume n o]) os.

(** A whole round: its turns, then the pacing timer after the last of them
    (or, in an environment without participants, the timer of the round),
    at which the loop finds nobody left to speak. [rounds] are several
    rounds, one list of replies per round; [o] is handed to the events
    that await no reply. *)
Definition round (n : nat) (o : Outside) (os : list Outside) : list Action :=
  turns n os ++ [Resume n o].

Definition rounds (n : nat) (o : Outside) (oss : list (list Outside)) : list Action :=
  flat_map (round n o) oss.

(** The task of a loop between turns, [i] turns of the round done. *)
Definition waiting (l : Loop) (i : nat) : Task :=
  match i with
  | O => LoopTimer l
  | S j => LoopPacing l j
  end.

(** *** What holds of every state the view can reach

    The ref agrees with the state it mirrors; no loop is under way; at most
    one call of [simulateAIResponse] has not returned, and then
    [isProcessing] is set and [isSimulationRunning] is not; and
    [isSimulationRunning] is set only for an auto-loop environment. *)
Definition noLoop (t : Task) : Prop :=
  match t with
  | ManualTurn _ _ | Finished => True
  | LoopTurn _ _ _ | LoopPacing _ _ | LoopTimer _ => False
  end.

Definition consistent (s : State) : Prop :=
  simulationRunningRef s = isSimulationRunning s
  /\ Forall noLoop (tasks s)
  /\ outstanding s <= 1
  /\ (outstanding s = 1 -> isProcessing s = true /\ isSimulationRunning s = false)
  /\ (isSimulationRunning s = true ->
      exists e, selectedEnvironment s = Some e
                /\ Environment.interactionMode e = "auto-loop").

End Handlers.

End Engine.

(** ** JSON

    The part of [JSON.stringify(value, null, 2)] and [JSON.parse] that the
    export uses: objects, arrays, strings, integers, booleans and [null].
    [JSON.parse] is modelled on the documents [JSON.stringify] writes for
    such values: numbers are integers, and a [\u] escape is accepted for
    the code points below 128. *)

Module Json.
Import JS.

Inductive value : Type :=
| Null
| Bool (b : bool)
| Number (n : Z)
| Str (s : string)
| Array (items : list value)
| Object (members : list (string * value)).

Definition quoteChar : ascii := ascii_of_nat 34.
Definition backslash : ascii := ascii_of_nat 92.

(** *** Writing *)

Definition hexDigit (n : nat) : ascii :=
  if (n <? 10)%nat then ascii_of_nat (48 + n) else ascii_of_nat (87 + n).

(** One character inside a string literal (QuoteJSONString). *)
Definition escapeChar (c : ascii) : string :=
  let n := nat_of_ascii c in
  if (n =? 34)%nat then String backslash (String quoteChar "")
  else if (n =? 92)%nat then String backslash (String backslash "")
  else if (n =? 8)%nat then String backslash "b"
  else if (n =? 9)%nat then String backslash "t"
  else if (n =? 10)%nat then String backslash "n"
  else if (n =? 12)%nat then String backslash "f"
  else if (n =? 13)%nat then String backslash "r"
  else if (n <? 32)%nat then
    String backslash
      (String "u" (String "0" (String "0"
        (String (hexDigit (n / 16)) (String (hexDigit (n mod 16)) "")))))
  else String c "".

Fixpoint escape (s : string) : string :=
  match s with
  | EmptyString => EmptyString
  | String c r => escapeChar c +:+ escape r
  end.

Definition quote (s : string) : string :=
  String quoteChar (escape s +:+ String quoteChar "").

(** Integers in decimal, as [Number.prototype.toString] writes them. *)
Definition writeNumber (n : Z) : string :=
  match Z.to_int n with
  | Decimal.Pos d => DecimalString.NilEmpty.string_of_uint d
  | Decimal.Neg d => String "-" (DecimalString.NilEmpty.string_of_uint d)
  end.

Fixpoint spaces (n : nat) : string :=
  match n with
  | O => EmptyString
  | S n => String " " (spaces n)
  end.

(** The items of an array or object, each on its own line. *)
Fixpoint lines (indent : string) (items : list string) : string :=
  match items with
  | [] => EmptyString
  | [x] => nl +:+ indent +:+ x
  | x :: r => nl +:+ indent +:+ x +:+ "," +:+ lines indent r
  end.

(** [write depth v]: the text of [v] when it stands at nesting depth
    [depth], with two spaces per level. *)
Fixpoint write (depth : nat) (v : value) : string :=
  match v with
  | Null => "null"
  | Bool true => "true"
  | Bool false => "false"
  | Number n => writeNumber n
  | Str s => quote s
  | Array [] => "[]"
  | Array items =>
      "[" +:+ lines (spaces (2 * S depth)) (map (write (S depth)) items)
          +:+ nl +:+ spaces (2 * depth) +:+ "]"
  | Object [] => "{}"
  | Object members =>
      "{" +:+ lines (spaces (2 * S depth))
                (map (fun kv => quote (fst kv) +:+ ": " +:+ write (S depth) (snd kv))
                     members)
          +:+ nl +:+ spaces (2 * depth) +:+ "}"
  end.

(** [JSON.stringify(v, null, 2)] *)
Definition stringify (v : value) : string := write 0 v.

(** *** Reading *)

Definition isWhite (c : ascii) : bool :=
  let n := nat_of_ascii c in
  (n =? 32)%nat || (n =? 9)%nat || (n =? 10)%nat || (n =? 13)%nat.

Fixpoint skip (s : string) : string :=
  match s with
  | String c r => if isWhite c then skip r else s
  | EmptyString => EmptyString
  end.

Definition hexValue (c : ascii) : option nat :=
  let n := nat_of_ascii c in
  if (48 <=? n)%nat && (n <=? 57)%nat then Some (n - 48)
  else if (97 <=? n)%nat && (n <=? 102)%nat then Some (n - 87)
  else if (65 <=? n)%nat && (n <=? 70)%nat then Some (n - 55)
  else None.

(** The character a one-letter escape stands for. *)
Definition unescape (c : ascii) : option ascii :=
  let n := nat_of_ascii c in
  if (n =? 34)%nat then Some quoteChar
  else if (n =? 92)%nat then Some backslash
  else if (n =? 47)%nat then Some "/"%char
  else if (n =? 98)%nat then Some (ascii_of_nat 8)
  else if (n =? 116)%nat then Some (ascii_of_nat 9)
  else if (n =? 110)%nat then Some (ascii_of_nat 10)
  else if (n =? 102)%nat then Some (ascii_of_nat 12)
  else if (n =? 114)%nat then Some (ascii_of_nat 13)
  else None.

Definition consChar (c : ascii) (r : option (string * string)) :
    option (string * string) :=
  match r with
  | Some (s, rest) => Some (String c s, rest)
  | None => None
  end.

(** The characters of a string literal after its opening quote, and the
    text after its closing quote. *)
Fixpoint readChars (s : string) : option (string * string) :=
  match s with
  | EmptyString => None
  | String c r =>
      if Ascii.eqb c quoteChar then Some (EmptyString, r)
      else if Ascii.eqb c backslash then
        match r with
        | String e r1 =>
            if Ascii.eqb e "u" then
              match r1 with
              | String h1 (String h2 (String h3 (String h4 r2))) =>
                  match hexValue h1, hexValue h2, hexValue h3, hexValue h4 with
                  | Some a, Some b, Some x, Some y =>
                      let code := (((a * 16 + b) * 16 + x) * 16 + y)%nat in
                      if (code <? 128)%nat
                      then consChar (ascii_of_nat code) (readChars r2)
                      else None
                  | _, _, _, _ => None
                  end
              | _ => None
              end
            else
              match unescape e with
              | Some ch => consChar ch (readChars r1)
              | None => None
              end
        | EmptyString => None
        end
      else if (nat_of_ascii c <? 32)%nat then None
      else consChar c (readChars r)
  end.

Definition digit (c : ascii) : option (Decimal.uint -> Decimal.uint) :=
  if Ascii.eqb c "0" then Some Decimal.D0
  else if Ascii.eqb c "1" then Some Decimal.D1
  else if Ascii.eqb c "2" then Some Decimal.D2
  else if Ascii.eqb c "3" then Some Decimal.D3
  else if Ascii.eqb c "4" then Some Decimal.D4
  else if Ascii.eqb c "5" then Some Decimal.D5
  else if Ascii.eqb c "6" then Some Decimal.D6
  else if Ascii.eqb c "7" then Some Decimal.D7
  else if Ascii.eqb c "8" then Some Decimal.D8
  else if Ascii.eqb c "9" then Some Decimal.D9
  else None.

(** The longest run of digits at the head of [s]. *)
Fixpoint readDigits (s : string) : Decimal.uint * string :=
  match s with
  | EmptyString => (Decimal.Nil, EmptyString)
  | String c r =>
      match digit c with
      | Some d => let '(u, rest) := readDigits r in (d u, rest)
      | None => (Decimal.Nil, s)
      end
  end.

Definition readNumber (s : string) : option (Z * string) :=
  match s with
  | String c r =>
      if Ascii.eqb c "-" then
        match readDigits r with
        | (Decimal.Nil, _) => None
        | (u, rest) => Some (Z.of_int (Decimal.Neg u), rest)
        end
      else
        match readDigits s with
        | (Decimal.Nil, _) => None
        | (u, rest) => Some (Z.of_int (Decimal.Pos u), rest)
        end
  | EmptyString => None
  end.

(** [expect w s]: [s] without its prefix [w]. *)
Fixpoint expect (w s : string) : option string :=
  match w, s with
  | EmptyString, _ => Some s
  | String a w', String b s' => if Ascii.eqb a b then expect w' s' else None
  | String _ _, EmptyString => None
  end.

(** Recursive descent. [fuel] bounds the nesting of calls; [parse]
    supplies more than any text needs. *)
Fixpoint readValue (fuel : nat) (s : string) : option (value * string) :=
  match fuel with
  | O => None
  | S fuel =>
      match skip s with
      | EmptyString => None
      | String c r =>
          if Ascii.eqb c "n" then
            rest ← expect "ull" r; Some (Null, rest)
          else if Ascii.eqb c "t" then
            rest ← expect "rue" r; Some (Bool true, rest)
          else if Ascii.eqb c "f" then
            rest ← expect "alse" r; Some (Bool false, rest)
          else if Ascii.eqb c quoteChar then
            '(str, rest) ← readChars r; Some (Str str, rest)
          else if Ascii.eqb c "[" then
            match skip r with
            | String d r' =>
                if Ascii.eqb d "]" then Some (Array [], r')
                else '(items, rest) ← readItems fuel r; Some (Array items, rest)
            | EmptyString => None
            end
          else if Ascii.eqb c "{" then
            match skip r with
            | String d r' =>
                if Ascii.eqb d "}" then Some (Object [], r')
                else '(members, rest) ← readMembers fuel r; Some (Object members, rest)
            | EmptyString => None
            end
          else
            '(n, rest) ← readNumber (String c r); Some (Number n, rest)
      end
  end
with readItems (fuel : nat) (s : string) : option (list value * string) :=
  match fuel with
  | O => None
  | S fuel =>
      '(v, rest) ← readValue fuel s;
      match skip rest with
      | String c r =>
          if Ascii.eqb c "," then
            '(items, rest') ← readItems fuel r; Some (v :: items, rest')
          else if Ascii.eqb c "]" then Some ([v], r)
          else None
      | EmptyString => None
      end
  end
with readMembers (fuel : nat) (s : string) : option (list (string * value) * string) :=
  match fuel with
  | O => None
  | S fuel =>
      match skip s with
      | String q r0 =>
          if Ascii.eqb q quoteChar then
            '(key, rest0) ← readChars r0;
            match skip rest0 with
            | String colon r1 =>
                if Ascii.eqb colon ":" then
                  '(v, rest) ← readValue fuel r1;
                  match skip rest with
                  | String c r =>
                      if Ascii.eqb c "," then
                        '(members, rest') ← readMembers fuel r;
                        Some ((key, v) :: members, rest')
                      else if Ascii.eqb c "}" then Some ([(key, v)], r)
                      else None
                  | EmptyString => None
                  end
                else None
            | EmptyString => None
            end
          else None
      | EmptyString => None
      end
  end.

(** [JSON.parse(text)]: one value, then nothing but white space. *)
Definition parse (text : string) : option value :=
  match readValue (S (String.length text)) text with
  | Some (v, rest) => match skip rest with EmptyString => Some v | _ => None end
  | None => None
  end.

(** [obj[key]] on a parsed object: the last member with that key. *)
Fixpoint get (key : string) (members : list (string * value)) : option value :=
  match members with
  | [] => None
  | (k, v) :: r =>
      match get key r with
      | Some w => Some w
      | None => if String.eqb k key then Some v else None
      end
  end.

(** *** Notions used in the proofs about reading *)

(** The text does not go on with a digit (so that a number before it ends
    where it should). *)
Definition noDigit (s : string) : Prop :=
  match s with
  | String c _ => digit c = None
  | EmptyString => True
  end.

(** A bound on the nesting of calls that reading a value takes. *)
Fixpoint weight (v : value) : nat :=
  match v with
  | Array items => S (foldr (fun x n => S (weight x + n)) 0 items)
  | Object members => S (foldr (fun kv n => S (weight (snd kv) + n)) 0 members)
  | _ => 1
  end.

(** Induction on values, with the hypothesis for every item of an array
    and every member of an object. *)
Section value_induction.
Variable P : value -> Prop.
Hypothesis HNull : P Null.
Hypothesis HBool : forall b, P (Bool b).
Hypothesis HNumber : forall n, P (Number n).
Hypothesis HStr : forall s, P (Str s).
Hypothesis HArray : forall items, Forall P items -> P (Array items).
Hypothesis HObject :
  forall members, Forall (fun kv => P (snd kv)) members -> P (Object members).

Fixpoint value_induction (v : value) : P v :=
  match v with
  | Null => HNull
  | Bool b => HBool b
  | Number n => HNumber n
  | Str s => HStr s
  | Array items =>
      HArray items
        ((fix go (l : list value) : Forall P l :=
            match l with
            | [] => List.Forall_nil P
            | x :: r => List.Forall_cons P x r (value_induction x) (go r)
            end) items)
  | Object members =>
      HObject members
        ((fix go (l : list (string * value)) : Forall (fun kv => P (snd kv)) l :=
            match l with
            | [] => List.Forall_nil _
            | kv :: r => List.Forall_cons _ kv r (value_induction (snd kv)) (go r)
            end) members)
  end.
End value_induction.

(** The first character of the text of a value is not white space and
    closes neither an array nor an object. *)
Definition opens (s : string) : Prop :=
  match s with
  | String c _ =>
      isWhite c = false /\ Ascii.eqb c "]" = false /\ Ascii.eqb c "}" = false
  | EmptyString => False
  end.

(** [v], written at any depth and followed by any text, is read back with
    enough fuel. *)
Definition reads (v : value) : Prop :=
  forall d fuel rest,
    weight v <= fuel -> noDigit rest ->
    readValue fuel (write d v +:+ rest) = Some (v, rest).


End Json.

(** ** Export *)

Module ChatExport.
Import Json.

(** A property whose value is [undefined] is left out by
    [JSON.stringify]. *)
Definition optional (key : string) (v : option value) : list (string * value) :=
  match v with
  | Some x => [(key, x)]
  | None => []
  end.

(** A transcript entry as [JSON.stringify] sees it: its own properties in
    the order of the object literal. *)
Definition messageValue (m : Message.t) : value :=
  Object ([ ("id", Number (Message.id m)); ("type", Str (Message.type m)) ]
          ++ optional "persona" (Str <$> Message.persona m)
          ++ [ ("content", Str (Message.content m));
               ("timestamp", Str (Message.timestamp m)) ]
          ++ optional "llm" (Str <$> Message.llm m)
          ++ optional "isRealAI" (Bool <$> Message.isRealAI m)).

(** The object [chatData]; [iso] is [new Date().toISOString()]. *)
Definition chatData (s : Engine.State) (iso : string) : value :=
  Object (optional "environment"
            ((fun e => Str (Environment.name e)) <$> Engine.selectedEnvironment s)
          ++ optional "participants"
            ((fun e => Array (map (fun p => Str (Persona.name p))
                                  (Environment.participants e)))
               <$> Engine.selectedEnvironment s)
          ++ [ ("messages", Array (map messageValue (Engine.localChatHistory s)));
               ("exportedAt", Str iso) ]).

(** The file the browser is made to download. *)
Record Download : Type := { filename : string; contents : string }.

(** [exportChat]; [millis] is [Date.now()]. *)
Definition exportChat (s : Engine.State) (iso : string) (millis : Z) : Download :=
  {| filename :=
       "loom-simulation-"
         +:+ match Engine.selectedEnvironment s with
             | Some e => Environment.name e
             | None => "undefined"
             end
         +:+ "-" +:+ writeNumber millis +:+ ".json";
     contents := stringify (chatData s iso) |}.

(** *** Reading an exported document back

    What a consumer of the file obtains from [JSON.parse(contents)]: the
    fields of each entry of [messages], a missing field being
    [undefined]. *)
Definition asString (v : option value) : option string :=
  match v with
  | Some (Str s) => Some s
  | _ => None
  end.

Definition asBool (v : option value) : option bool :=
  match v with
  | Some (Bool b) => Some b
  | _ => None
  end.

Definition readMessage (v : value) : option Message.t :=
  match v with
  | Object members =>
      match get "id" members, get "type" members,
            get "content" members, get "timestamp" members with
      | Some (Number id), Some (Str type), Some (Str content), Some (Str timestamp) =>
          Some {| Message.id := id; Message.type := type;
                  Message.persona := asString (get "persona" members);
                  Message.content := content;
                  Message.timestamp := timestamp;
                  Message.llm := asString (get "llm" members);
                  Message.isRealAI := asBool (get "isRealAI" members) |}
      | _, _, _, _ => None
      end
  | _ => None
  end.

Definition readMessages (doc : value) : option (list Message.t) :=
  match doc with
  | Object members =>
      match get "messages" members with
      | Some (Array items) => mapM readMessage items
      | _ => None
      end
  | _ => None
  end.

Definition readNames (doc : value) : option (list string) :=
  match doc with
  | Object members =>
      match get "participants" members with
      | Some (Array items) => mapM (fun v => asString (Some v)) items
      | _ => None
      end
  | _ => None
  end.

Definition readField (key : string) (doc : value) : option string :=
  match doc with
  | Object members => asString (get key members)
  | _ => None
  end.

End ChatExport.

(** ** The chat area *)

Module ChatView.
Import JS.

(** [s.charAt(0)] *)
Definition charAt0 (s : string) : string :=
  match s with
  | EmptyString => ""
  | String c _ => String c ""
  end.

(** [s.split(' ')[0]]: the text before the first space. *)
Fixpoint firstWord (s : string) : string :=
  match s with
  | EmptyString => ""
  | String c r => if Ascii.eqb c " " then "" else String c (firstWord r)
  end.

(** [s.replace('-', ' ')]: the first hyphen becomes a space. *)
Fixpoint replaceHyphen (s : string) : string :=
  match s with
  | EmptyString => ""
  | String c r => if Ascii.eqb c "-" then String " " r else String c (replaceHyphen r)
  end.

(** The line above the text of a message. *)
Inductive Header : Type :=
| Agent (initial name provider : string)
| You
| Plain.

Record Bubble : Type := {
  justify : string;
  colours : string;
  header : Header;
  text : string;
  time : string
}.

(** One iteration of [localChatHistory.map(message => ...)]. Reading
    [message.persona.charAt] or [message.llm.split] of a message without
    the field raises a [TypeError]: no bubble. *)
Definition renderMessage (message : Message.t) : option Bubble :=
  let type := Message.type message in
  h ← (if String.eqb type "ai" then
         persona ← Message.persona message;
         llm ← Message.llm message;
         Some (Agent (charAt0 persona) persona (firstWord llm))
       else if String.eqb type "user" then Some You
       else Some Plain);
  Some {| justify := if String.eqb type "user" then "justify-end" else "justify-start";
          colours := if String.eqb type "system"
                     then "bg-yellow-50 border border-yellow-200 text-yellow-800 text-center w-full"
                     else if String.eqb type "user" then "bg-blue-600 text-white"
                     else "bg-gray-100 text-gray-800";
          header := h;
          text := Message.content message;
          time := Message.timestamp message |}.

(** The chat area: every message of the transcript, in order. *)
Definition renderChat (localChatHistory : list Message.t) : option (list Bubble) :=
  mapM renderMessage localChatHistory.

(** *** Notions used in the proofs about the transcript *)

(** What the handlers append: the message of an agent, with its author and
    model, or a message of the user. *)
Definition spoken (m : Message.t) : Prop :=
  (Message.type m = "ai" /\ is_Some (Message.persona m) /\ is_Some (Message.llm m))
  \/ Message.type m = "user".

(** A transcript whose only system message, if any, is its first entry. *)
Definition seedFirst (h : list Message.t) : Prop :=
  match h with
  | [] => True
  | m :: rest => (Message.type m = "system" \/ spoken m) /\ Forall spoken rest
  end.

End ChatView.

(** ** Plain objects

    A JavaScript object used as a map from strings: its own properties in
    property order. Keys that are array indices come first, in ascending
    order; the other keys follow in the order of their creation. *)

Module Obj.
Import JS.

Definition isDigit (c : ascii) : bool :=
  let n := nat_of_ascii c in (48 <=? n)%nat && (n <=? 57)%nat.

Fixpoint allDigits (k : string) : bool :=
  match k with
  | EmptyString => true
  | String c r => isDigit c && allDigits r
  end.

(** The number a string of digits denotes. *)
Fixpoint numberOf (acc : N) (k : string) : N :=
  match k with
  | EmptyString => acc
  | String c r => numberOf (10 * acc + (N.of_nat (nat_of_ascii c) - 48)) r
  end.

(** An array index: the canonical decimal text of a number below
    [2^32 - 1]. *)
Definition isIndex (k : string) : bool :=
  match k with
  | EmptyString => false
  | String c r =>
      allDigits k
      && (negb (Ascii.eqb c "0") || String.eqb r "")
      && (String.length k <=? 10)%nat
      && (numberOf 0 k <? 4294967295)%N
  end.

Section Values.
Context {V : Type}.

Definition t : Type := list (string * V).

(** The own property [k]. *)
Fixpoint own (k : string) (o : t) : option V :=
  match o with
  | [] => None
  | (k', v) :: r => if String.eqb k k' then Some v else own k r
  end.

(** [!!obj[k]] for an object whose own properties are objects: the key is
    an own property, or a name found on [Object.prototype]. *)
Definition has (k : string) (o : t) : bool :=
  match own k o with
  | Some _ => true
  | None => inherited k
  end.

(** [delete obj[k]] *)
Fixpoint delete (k : string) (o : t) : t :=
  match o with
  | [] => []
  | (k', v) :: r => if String.eqb k k' then r else (k', v) :: delete k r
  end.

Fixpoint replace (k : string) (v : V) (o : t) : t :=
  match o with
  | [] => []
  | (k', v') :: r =>
      if String.eqb k k' then (k, v) :: r else (k', v') :: replace k v r
  end.

(** The place of a new array index among the keys. *)
Fixpoint place (k : string) (v : V) (o : t) : t :=
  match o with
  | [] => [(k, v)]
  | (k', v') :: r =>
      if isIndex k' && (numberOf 0 k' <? numberOf 0 k)%N
      then (k', v') :: place k v r
      else (k, v) :: (k', v') :: r
  end.

(** The own property [k] is created or, if there is one, given the value
    [v] where it stands. *)
Definition define (k : string) (v : V) (o : t) : t :=
  match own k o with
  | Some _ => replace k v o
  | None => if isIndex k then place k v o else o ++ [(k, v)]
  end.

(** [Object.keys] and [Object.values] *)
Definition keys (o : t) : list string := map fst o.
Definition values (o : t) : list V := map snd o.

End Values.
Arguments t : clear implicits.
End Obj.

(** ** The persona form: selecting traits *)

Module TraitForm.
Import JS.

(** The object literal [traitCategories]. *)
Definition traitCategories : list (string * list string) :=
  [ ("Personality Type",
     ["Introverted"; "Extroverted"; "Ambivert"; "Optimistic"; "Realistic"; "Cynical"]);
    ("Cognitive Approach",
     ["Analytical"; "Creative"; "Strategic"; "Intuitive"; "Detail-oriented";
      "Big-picture thinker"]);
    ("Communication Style",
     ["Assertive"; "Passive"; "Persuasive"; "Diplomatic"; "Blunt"; "Humorous"]);
    ("Emotional Tone",
     ["Calm"; "Passionate"; "Stoic"; "Empathetic"; "Playful"; "Anxious"]);
    ("Problem-Solving Strategy",
     ["Logical"; "Experimental"; "Collaborative"; "Cautious"; "Decisive"; "Adaptive"]);
    ("Motivations / Drives",
     ["Power"; "Curiosity"; "Recognition"; "Security"; "Achievement"; "Belonging"]) ].

(** The intensities the [select] of a trait offers. *)
Definition intensities : list string := ["Weak"; "Neutral"; "Strong"].

(** A value of [selectedTraits]; a field may be missing. *)
Record Entry : Type := {
  name : option string;
  category : option string;
  intensity : option string
}.

(** [`${category}-${trait}`] *)
Definition traitKey (category trait : string) : string :=
  category +:+ "-" +:+ trait.

(** [handleTraitToggle(category, trait)], as the update of
    [selectedTraits]. The assignment [newTraits[key] = ...] runs when
    [newTraits[key]] is falsy only, so never for the key [__proto__], the
    one key for which an assignment is not the definition of an own
    property. *)
Definition handleTraitToggle (category trait : string)
    (prev : Obj.t Entry) : Obj.t Entry :=
  let key := traitKey category trait in
  let newTraits := prev in
  if Obj.has key newTraits then Obj.delete key newTraits
  else Obj.define key {| name := Some trait; category := Some category;
                         intensity := Some "Neutral" |} newTraits.

(** [{ ...prev[traitKey], intensity }]: the fields of the entry, if
    [prev] has it as an own property (the values found on
    [Object.prototype] have no own enumerable property to spread). *)
Definition withIntensity (e : option Entry) (i : string) : Entry :=
  match e with
  | Some e => {| name := name e; category := category e; intensity := Some i |}
  | None => {| name := None; category := None; intensity := Some i |}
  end.

(** [handleIntensityChange(traitKey, intensity)] *)
Definition handleIntensityChange (traitKey intensity : string)
    (prev : Obj.t Entry) : Obj.t Entry :=
  Obj.define traitKey (withIntensity (Obj.own traitKey prev) intensity) prev.

(** An entry as [buildSystemPrompt] reads it: [trait.name.toLowerCase()]
    needs the name. *)
Definition toTrait (e : Entry) : option Trait.t :=
  n ← name e; c ← category e; Some (Trait.mk n c (intensity e)).

(** [traits: Object.values(selectedTraits)] *)
Definition traitsOf (selectedTraits : Obj.t Entry) : option (list Trait.t) :=
  mapM toTrait (Obj.values selectedTraits).

(** The pairs the form shows a check box for. *)
Definition offered (category trait : string) : bool :=
  existsb (fun ct => String.eqb ct.1 category && existsb (String.eqb trait) ct.2)
          traitCategories.

(** The controls of the form that act on [selectedTraits]: the check box
    of a trait calls [handleTraitToggle]; the [select] of a trait, shown
    while [selectedTraits[traitKey]] is truthy, calls
    [handleIntensityChange] with one of its three options. *)
Inductive Control : Type :=
| CheckBox (category trait : string)
| Select (category trait intensity : string).

Definition bound (selectedTraits : Obj.t Entry) (c : Control)
  : option (Obj.t Entry) :=
  match c with
  | CheckBox category trait =>
      if offered category trait
      then Some (handleTraitToggle category trait selectedTraits)
      else None
  | Select category trait i =>
      if offered category trait
         && existsb (String.eqb i) intensities
         && Obj.has (traitKey category trait) selectedTraits
      then Some (handleIntensityChange (traitKey category trait) i selectedTraits)
      else None
  end.

(** The selections the form can be brought to. *)
Inductive reachable : Obj.t Entry -> Prop :=
| reachable_empty : reachable []
| reachable_control sel c sel' :
    reachable sel -> bound sel c = Some sel' -> reachable sel'.

(** An entry as the form makes them: a pair it offers under its key, with
    one of the three intensities. *)
Definition formed (ke : string * Entry) : Prop :=
  exists c t i,
    offered c t = true /\ existsb (String.eqb i) intensities = true
    /\ ke = (traitKey c t,
             {| name := Some t; category := Some c; intensity := Some i |}).

(** A trait as the form hands it to the persona. *)
Definition chosen (x : Trait.t) : Prop :=
  offered (Trait.category x) (Trait.name x) = true
  /\ exists i, Trait.intensity x = Some i
               /\ existsb (String.eqb i) intensities = true.

(** The character [c] occurs in [s]. *)
Fixpoint mentions (c : ascii) (s : string) : bool :=
  match s with
  | EmptyString => false
  | String x r => Ascii.eqb x c || mentions c r
  end.

(** All the pairs the form offers, and their keys. *)
Definition allPairs : list (string * string) :=
  flat_map (fun ct => map (pair ct.1) ct.2) traitCategories.

Definition allKeys : list string :=
  map (fun ct => traitKey ct.1 ct.2) allPairs.

End TraitForm.

(** ** The persona form *)

Module PersonaForm.
Import JS.

(** The state [formData] of [CreatePersona]. *)
Record FormData : Type := {
  name : string;
  llm : string;
  role : string;
  knowledgeHub : string;
  traits : list Trait.t
}.

(** What the form keeps of an uploaded file. *)
Record File : Type := { fileName : string; size : Z }.

(** The timer [generateBackstory] sets: its callback closes over the
    [formData] of the render in which the button was pressed. *)
Record Timer : Type := { seenName : string; seenRole : string }.

Record State : Type := {
  formData : FormData;
  selectedTraits : Obj.t TraitForm.Entry;
  isGeneratingBackstory : bool;
  uploadedFiles : list File;
  timers : list Timer
}.

Definition init : State :=
  {| formData := {| name := ""; llm := ""; role := ""; knowledgeHub := "";
                    traits := [] |};
     selectedTraits := []; isGeneratingBackstory := false;
     uploadedFiles := []; timers := [] |}.

Definition setFormData (f : FormData -> FormData) (s : State) : State :=
  {| formData := f (formData s); selectedTraits := selectedTraits s;
     isGeneratingBackstory := isGeneratingBackstory s;
     uploadedFiles := uploadedFiles s; timers := timers s |}.

Definition setSelectedTraits (f : Obj.t TraitForm.Entry -> Obj.t TraitForm.Entry)
    (s : State) : State :=
  {| formData := formData s; selectedTraits := f (selectedTraits s);
     isGeneratingBackstory := isGeneratingBackstory s;
     uploadedFiles := uploadedFiles s; timers := timers s |}.

Definition setIsGeneratingBackstory (v : bool) (s : State) : State :=
  {| formData := formData s; selectedTraits := selectedTraits s;
     isGeneratingBackstory := v;
     uploadedFiles := uploadedFiles s; timers := timers s |}.

Definition setUploadedFiles (f : list File -> list File) (s : State) : State :=
  {| formData := formData s; selectedTraits := selectedTraits s;
     isGeneratingBackstory := isGeneratingBackstory s;
     uploadedFiles := f (uploadedFiles s); timers := timers s |}.

Definition setTimers (v : list Timer) (s : State) : State :=
  {| formData := formData s; selectedTraits := selectedTraits s;
     isGeneratingBackstory := isGeneratingBackstory s;
     uploadedFiles := uploadedFiles s; timers := v |}.

Definition withName (v : string) (d : FormData) : FormData :=
  {| name := v; llm := llm d; role := role d; knowledgeHub := knowledgeHub d;
     traits := traits d |}.
Definition withLlm (v : string) (d : FormData) : FormData :=
  {| name := name d; llm := v; role := role d; knowledgeHub := knowledgeHub d;
     traits := traits d |}.
Definition withRole (v : string) (d : FormData) : FormData :=
  {| name := name d; llm := llm d; role := v; knowledgeHub := knowledgeHub d;
     traits := traits d |}.
Definition withKnowledgeHub (v : string) (d : FormData) : FormData :=
  {| name := name d; llm := llm d; role := role d; knowledgeHub := v;
     traits := traits d |}.

(** The array [backstories] of the timer callback. *)
Definition backstories (name role : string) : list string :=
  [ name +:+ " grew up in a family of engineers, developing a keen analytical mind and attention to detail. Their "
         +:+ toLowerCase role
         +:+ " stems from years of observing complex systems and finding elegant solutions to intricate problems.";
    "With a background in creative arts and business strategy, " +:+ name
         +:+ " brings a unique perspective to their role as " +:+ toLowerCase role
         +:+ ". They believe in challenging conventional wisdom and pushing boundaries.";
    name +:+ " started their career in a completely different field before discovering their passion for "
         +:+ toLowerCase role
         +:+ ". This diverse background gives them an unconventional approach to problem-solving." ].

(** [generateBackstory], up to [setTimeout] *)
Definition generateBackstory (s : State) : State :=
  setTimers (timers s ++ [ {| seenName := name (formData s);
                              seenRole := role (formData s) |} ])
            (setIsGeneratingBackstory true s).

(** The callback of the oldest timer, two seconds later; [random] is the
    draw, the index its remainder modulo three. *)
Definition timerFires (random : nat) (s : State) : State :=
  match timers s with
  | [] => s
  | t :: rest =>
      let story := default "" (backstories (seenName t) (seenRole t)
                                 !! (random mod 3)%nat) in
      setTimers rest
        (setIsGeneratingBackstory false
           (setFormData (withKnowledgeHub story) s))
  end.

(** [handleFileUpload] *)
Definition handleFileUpload (files : list File) (s : State) : State :=
  setUploadedFiles (fun prev => prev ++ files) s.

(** [prev.filter((_, i) => i !== index)] *)
Definition withoutIndex {A} (index : nat) (prev : list A) : list A :=
  map snd (filter (fun ix => ix.1 <> index) (imap pair prev)).

Definition removeFile (index : nat) (s : State) : State :=
  setUploadedFiles (withoutIndex index) s.

Inductive Action : Type :=
| TypeName (v : string)
| ChooseLlm (v : string)
| TypeRole (v : string)
| TypeKnowledge (v : string)
| ToggleTrait (category trait : string)
| ChangeIntensity (traitKey intensity : string)
| GenerateBackstory
| TimerFires (random : nat)
| Upload (files : list File)
| RemoveFile (index : nat).

Definition handle (a : Action) (s : State) : State :=
  match a with
  | TypeName v => setFormData (withName v) s
  | ChooseLlm v => setFormData (withLlm v) s
  | TypeRole v => setFormData (withRole v) s
  | TypeKnowledge v => setFormData (withKnowledgeHub v) s
  | ToggleTrait c t => setSelectedTraits (TraitForm.handleTraitToggle c t) s
  | ChangeIntensity k i => setSelectedTraits (TraitForm.handleIntensityChange k i) s
  | GenerateBackstory => generateBackstory s
  | TimerFires random => timerFires random s
  | Upload files => handleFileUpload files s
  | RemoveFile index => removeFile index s
  end.

Definition steps (s : State) (l : list Action) : State :=
  fold_left (fun s a => handle a s) l s.

(** An action of the form other than the Generate button and its timer. *)
Definition editing (a : Action) : Prop :=
  match a with
  | GenerateBackstory | TimerFires _ => False
  | _ => True
  end.

End PersonaForm.

(** ** The environment form *)

Module EnvironmentForm.
Import JS.

(** A persona of the list [personas]: what the engine reads, and the [id]
    the form tells personas apart by. *)
Record Stored : Type := { id : string; fields : Persona.t }.

(** The state [formData] of [CreateEnvironment]. [wordLimit] is what
    [parseInt] made of the text of the number box: a number, or [NaN]
    ([None]). *)
Record FormData : Type := {
  name : string;
  description : string;
  participants : list Stored;
  interactionMode : string;
  wordLimit : option Z;
  linkedEnvironment : string;
  startingPrompt : string;
  humanModerator : bool
}.

Definition blank : FormData :=
  {| name := ""; description := ""; participants := []; interactionMode := "";
     wordLimit := Some 200%Z; linkedEnvironment := ""; startingPrompt := "";
     humanModerator := false |}.

Definition withParticipants (v : list Stored) (d : FormData) : FormData :=
  {| name := name d; description := description d; participants := v;
     interactionMode := interactionMode d; wordLimit := wordLimit d;
     linkedEnvironment := linkedEnvironment d;
     startingPrompt := startingPrompt d; humanModerator := humanModerator d |}.

(** [prev.participants.some(p => p.id === persona.id)] *)
Definition isParticipant (persona : Stored) (l : list Stored) : bool :=
  existsb (fun p => String.eqb (id p) (id persona)) l.

(** [handleParticipantToggle(persona)], as the update of [formData] *)
Definition handleParticipantToggle (persona : Stored) (prev : FormData) : FormData :=
  withParticipants
    (if isParticipant persona (participants prev)
     then filter (fun p => id p <> id persona) (participants prev)
     else participants prev ++ [persona])
    prev.

(** [{ ...formData, id: Date.now(), createdAt: new Date().toISOString() }] *)
Record Created : Type := {
  form : FormData;
  createdId : Z;
  createdAt : string
}.

(** What [handleSubmit] does: the text it shows with [alert], the form it
    leaves, and, when it accepts the form, the environment to append and
    the page to go to. *)
Record Submitted : Type := {
  alert : string;
  formAfter : FormData;
  accepted : option Created
}.

(** [handleSubmit] *)
Definition handleSubmit (now : Z) (iso : string) (formData : FormData) : Submitted :=
  if negb (truthy (name formData)) || negb (truthy (interactionMode formData))
     || (length (participants formData) =? 0)%nat
  then {| alert := "Please fill in required fields and select at least one participant";
          formAfter := formData; accepted := None |}
  else {| alert := "Environment created successfully!";
          formAfter := blank;
          accepted := Some {| form := formData; createdId := now; createdAt := iso |} |}.

Definition withName (v : string) (d : FormData) : FormData :=
  {| name := v; description := description d; participants := participants d;
     interactionMode := interactionMode d; wordLimit := wordLimit d;
     linkedEnvironment := linkedEnvironment d;
     startingPrompt := startingPrompt d; humanModerator := humanModerator d |}.
Definition withDescription (v : string) (d : FormData) : FormData :=
  {| name := name d; description := v; participants := participants d;
     interactionMode := interactionMode d; wordLimit := wordLimit d;
     linkedEnvironment := linkedEnvironment d;
     startingPrompt := startingPrompt d; humanModerator := humanModerator d |}.
Definition withInteractionMode (v : string) (d : FormData) : FormData :=
  {| name := name d; description := description d; participants := participants d;
     interactionMode := v; wordLimit := wordLimit d;
     linkedEnvironment := linkedEnvironment d;
     startingPrompt := startingPrompt d; humanModerator := humanModerator d |}.
Definition withWordLimit (v : option Z) (d : FormData) : FormData :=
  {| name := name d; description := description d; participants := participants d;
     interactionMode := interactionMode d; wordLimit := v;
     linkedEnvironment := linkedEnvironment d;
     startingPrompt := startingPrompt d; humanModerator := humanModerator d |}.
Definition withStartingPrompt (v : string) (d : FormData) : FormData :=
  {| name := name d; description := description d; participants := participants d;
     interactionMode := interactionMode d; wordLimit := wordLimit d;
     linkedEnvironment := linkedEnvironment d;
     startingPrompt := v; humanModerator := humanModerator d |}.
Definition withHumanModerator (v : bool) (d : FormData) : FormData :=
  {| name := name d; description := description d; participants := participants d;
     interactionMode := interactionMode d; wordLimit := wordLimit d;
     linkedEnvironment := linkedEnvironment d;
     startingPrompt := startingPrompt d; humanModerator := v |}.

(** The state of [CreateEnvironment]. *)
Record State : Type := { formData : FormData; showPreview : bool }.

Definition init : State := {| formData := blank; showPreview := false |}.

Definition setFormData (f : FormData -> FormData) (s : State) : State :=
  {| formData := f (formData s); showPreview := showPreview s |}.

(** [setShowPreview(!showPreview)] *)
Definition togglePreview (s : State) : State :=
  {| formData := formData s; showPreview := negb (showPreview s) |}.

(** The controls of the form that write [formData]: the text boxes, the
    check box of each persona of [personas], the three radio buttons of
    the mode, the number box and the moderator check box. *)
Inductive Control : Type :=
| NameBox (v : string)
| DescriptionBox (v : string)
| ParticipantBox (i : nat)
| ModeRadio (i : nat)
| WordLimitBox (v : option Z)
| StartingPromptBox (v : string)
| ModeratorBox (v : bool).

(** The [value]s of the three radio buttons. *)
Definition modes : list string := ["auto-loop"; "manual"; "mixed"].

Definition bound (personas : list Stored) (c : Control)
  : option (FormData -> FormData) :=
  match c with
  | NameBox v => Some (withName v)
  | DescriptionBox v => Some (withDescription v)
  | ParticipantBox i => handleParticipantToggle <$> personas !! i
  | ModeRadio i => withInteractionMode <$> modes !! i
  | WordLimitBox v => Some (withWordLimit v)
  | StartingPromptBox v => Some (withStartingPrompt v)
  | ModeratorBox v => Some (withHumanModerator v)
  end.

(** The forms that can be filled in when the personas on offer are
    [personas]. *)
Inductive reachable (personas : list Stored) : FormData -> Prop :=
| reachable_blank : reachable personas blank
| reachable_control d c f :
    reachable personas d -> bound personas c = Some f -> reachable personas (f d).

End EnvironmentForm.

(** ** The application

    The component [ProjectLoomApp]: its state, the handlers of the
    navigation bar, of the dashboard and of the API settings, and its
    render, which shows one of five components. A component that is shown
    has its own state, there from the moment it is shown for the first
    time ([useState] gives the initial values) to the moment it is not
    shown any more. *)

Module App.
Import JS Adapter.

Record State : Type := {
  currentPage : string;
  personas : list EnvironmentForm.Stored;
  environments : list EnvironmentForm.Created;
  apiKeys : ApiKeys;
  showApiSettings : bool
}.

Definition init : State :=
  {| currentPage := "dashboard"; personas := []; environments := [];
     apiKeys := {| openai := ""; claude := "" |}; showApiSettings := false |}.

Definition setCurrentPage (v : string) (s : State) : State :=
  {| currentPage := v; personas := personas s; environments := environments s;
     apiKeys := apiKeys s; showApiSettings := showApiSettings s |}.

Definition setEnvironments
    (f : list EnvironmentForm.Created -> list EnvironmentForm.Created)
    (s : State) : State :=
  {| currentPage := currentPage s; personas := personas s;
     environments := f (environments s);
     apiKeys := apiKeys s; showApiSettings := showApiSettings s |}.

Definition setApiKeys (f : ApiKeys -> ApiKeys) (s : State) : State :=
  {| currentPage := currentPage s; personas := personas s;
     environments := environments s;
     apiKeys := f (apiKeys s); showApiSettings := showApiSettings s |}.

Definition setShowApiSettings (v : bool) (s : State) : State :=
  {| currentPage := currentPage s; personas := personas s;
     environments := environments s;
     apiKeys := apiKeys s; showApiSettings := v |}.

(** The components of [<main>]. *)
Inductive Component : Type :=
| ApiSettings | Dashboard | CreatePersona | CreateEnvironment | Simulation.

#[export] Instance Component_eq_dec : EqDecision Component.
Proof. solve_decision. Defined.

(** The main render: the five conditional children of [<main>], those
    whose condition holds. *)
Definition shown (s : State) : list Component :=
  (if showApiSettings s then [ApiSettings] else [])
  ++ (if negb (showApiSettings s) && String.eqb (currentPage s) "dashboard"
      then [Dashboard] else [])
  ++ (if negb (showApiSettings s) && String.eqb (currentPage s) "create-persona"
      then [CreatePersona] else [])
  ++ (if negb (showApiSettings s) && String.eqb (currentPage s) "create-environment"
      then [CreateEnvironment] else [])
  ++ (if negb (showApiSettings s) && String.eqb (currentPage s) "simulation"
      then [Simulation] else []).

(** The state of the components that have one, while they are shown. *)
Record Children : Type := {
  personaForm : option PersonaForm.State;
  environmentForm : option EnvironmentForm.State;
  simulation : option Engine.State
}.

(** After a render: a component that is shown keeps its state, or starts
    with the initial one; a component that is not shown has none. *)
Definition reconcile (s : State) (c : Children) : Children :=
  {| personaForm :=
       if bool_decide (CreatePersona ∈ shown s)
       then Some (default PersonaForm.init (personaForm c)) else None;
     environmentForm :=
       if bool_decide (CreateEnvironment ∈ shown s)
       then Some (default EnvironmentForm.init (environmentForm c)) else None;
     simulation :=
       if bool_decide (Simulation ∈ shown s)
       then Some (default Engine.init (simulation c)) else None |}.

(** What can be done to the application. The buttons that go to a page
    are those of the navigation bar and their doubles on the dashboard and
    on the empty pages. *)
Inductive Action : Type :=
| GoDashboard
| GoCreatePersona
| GoCreateEnvironment
| GoSimulation
| OpenApiSettings
| TypeOpenAIKey (v : string)
| TypeClaudeKey (v : string)
| SaveApiKeys
| CancelApiSettings
| InPersonaForm (a : PersonaForm.Action)
| InEnvironmentForm (c : EnvironmentForm.Control)
| TogglePreview
| SubmitEnvironment (now : Z) (iso : string)
| InSimulation (a : Engine.Action).

Definition withOpenai (v : string) (k : ApiKeys) : ApiKeys :=
  {| openai := v; claude := claude k |}.
Definition withClaude (v : string) (k : ApiKeys) : ApiKeys :=
  {| openai := openai k; claude := v |}.

(** The handler of an action, on the state of the application and the
    states of the components shown. An action of a component that is not
    shown does nothing: its controls are not there. *)
Definition handle (a : Action) (sc : State * Children) : State * Children :=
  let '(s, c) := sc in
  match a with
  | GoDashboard => (setCurrentPage "dashboard" s, c)
  | GoCreatePersona => (setCurrentPage "create-persona" s, c)
  | GoCreateEnvironment => (setCurrentPage "create-environment" s, c)
  | GoSimulation => (setCurrentPage "simulation" s, c)
  | OpenApiSettings => (setShowApiSettings true s, c)
  | TypeOpenAIKey v =>
      if showApiSettings s then (setApiKeys (withOpenai v) s, c) else (s, c)
  | TypeClaudeKey v =>
      if showApiSettings s then (setApiKeys (withClaude v) s, c) else (s, c)
  | SaveApiKeys | CancelApiSettings =>
      if showApiSettings s then (setShowApiSettings false s, c) else (s, c)
  | InPersonaForm a =>
      (s, {| personaForm := PersonaForm.handle a <$> personaForm c;
             environmentForm := environmentForm c;
             simulation := simulation c |})
  | InEnvironmentForm ctl =>
      match EnvironmentForm.bound (personas s) ctl with
      | Some f =>
          (s, {| personaForm := personaForm c;
                 environmentForm := EnvironmentForm.setFormData f <$> environmentForm c;
                 simulation := simulation c |})
      | None => (s, c)
      end
  | TogglePreview =>
      (s, {| personaForm := personaForm c;
             environmentForm := EnvironmentForm.togglePreview <$> environmentForm c;
             simulation := simulation c |})
  | SubmitEnvironment now iso =>
      match environmentForm c with
      | Some d =>
          let r := EnvironmentForm.handleSubmit now iso (EnvironmentForm.formData d) in
          match EnvironmentForm.accepted r with
          | Some e =>
              (setCurrentPage "dashboard"
                 (setEnvironments (fun prev => prev ++ [e]) s),
               {| personaForm := personaForm c;
                  environmentForm :=
                    Some (EnvironmentForm.setFormData
                            (fun _ => EnvironmentForm.formAfter r) d);
                  simulation := simulation c |})
          | None => (s, c)
          end
      | None => (s, c)
      end
  | InSimulation a =>
      (s, {| personaForm := personaForm c;
             environmentForm := environmentForm c;
             simulation := (fun e => Engine.step (apiKeys s) e a) <$> simulation c |})
  end.

Definition step (sc : State * Children) (a : Action) : State * Children :=
  let '(s, c) := handle a sc in (s, reconcile s c).

Definition steps (sc : State * Children) (l : list Action) : State * Children :=
  fold_left step l sc.

(** The application when it has just been mounted. *)
Definition start : State * Children :=
  (init, reconcile init {| personaForm := None; environmentForm := None;
                           simulation := None |}).

(** The pages [currentPage] is ever set to. *)
Definition pages : list string :=
  ["dashboard"; "create-persona"; "create-environment"; "simulation"].

(** The trait badges of a persona card on the dashboard:
    [persona.traits.slice(0, 3)], and the number after [+] when
    [persona.traits.length > 3]. *)
Definition badges (traits : list Trait.t) : list string :=
  map Trait.name (take 3 traits).

Definition more (traits : list Trait.t) : option nat :=
  if (3 <? length traits)%nat then Some (length traits - 3) else None.

End App.

(** ** Key obfuscation

    [utils.encryptApiKey] and [utils.decryptApiKey] of the database
    library are [btoa] and [atob]: base64 with padding, and the forgiving
    decoder of the platform. Both raise [InvalidCharacterError]: [atob] on
    malformed input, [btoa] on a string that holds a code unit above 255.
    The key handed to [encryptApiKey] is therefore the sequence of its
    code units, which may be above 255; a [string] holds those below 256. *)

Module Base64.

(** The sixty-four digits. *)
Definition alphabet : list ascii :=
  String.list_ascii_of_string
    "ABCDEFGHIJKLMNOPQRSTUVWXYZabcdefghijklmnopqrstuvwxyz0123456789+/".

Definition digit (n : nat) : ascii := nth n alphabet "="%char.

(** The value of a digit: its place in the alphabet. *)
Fixpoint place (c : ascii) (l : list ascii) (n : nat) : option nat :=
  match l with
  | [] => None
  | x :: r => if Ascii.eqb c x then Some n else place c r (S n)
  end.

Definition value (c : ascii) : option nat := place c alphabet 0.

(** Three bytes are four digits; one or two bytes at the end are two or
    three digits. *)
Fixpoint sextets (l : list ascii) : list nat :=
  match l with
  | [] => []
  | [a] =>
      let a := nat_of_ascii a in [a / 4; a mod 4 * 16]
  | [a; b] =>
      let a := nat_of_ascii a in
      let b := nat_of_ascii b in
      [a / 4; a mod 4 * 16 + b / 16; b mod 16 * 4]
  | a :: b :: c :: r =>
      let a := nat_of_ascii a in
      let b := nat_of_ascii b in
      let c := nat_of_ascii c in
      a / 4 :: a mod 4 * 16 + b / 16 :: b mod 16 * 4 + c / 64 :: c mod 64
        :: sextets r
  end.

Definition padding (n : nat) : list ascii :=
  match n mod 3 with
  | 1 => ["="; "="]%char
  | 2 => ["="%char]
  | _ => []
  end.

(** The digits and the padding [btoa] writes for a sequence of bytes. *)
Definition encode (l : list ascii) : list ascii :=
  map digit (sextets l) ++ padding (length l).

(** The code units of a string of characters below 256. *)
Definition units (s : string) : list nat :=
  map nat_of_ascii (String.list_ascii_of_string s).

(** The bytes of a sequence of code units, when none is above 255. *)
Definition binary (data : list nat) : option (list ascii) :=
  mapM (fun u => if (u <? 256)%nat then Some (ascii_of_nat u) else None) data.

(** [btoa]; [None] when it raises [InvalidCharacterError]: some code
    unit is above 255. *)
Definition btoa (data : list nat) : option string :=
  (fun l => String.string_of_list_ascii (encode l)) <$> binary data.

(** ASCII white space: tab, line feed, form feed, carriage return, space. *)
Definition isWhitespace (c : ascii) : bool :=
  let n := nat_of_ascii c in
  (n =? 9) || (n =? 10) || (n =? 12) || (n =? 13) || (n =? 32).

(** One or two [=] at the end are removed. *)
Definition unpad (l : list ascii) : list ascii :=
  match reverse l with
  | "="%char :: "="%char :: r => reverse r
  | "="%char :: r => reverse r
  | _ => l
  end.

(** Four digits are three bytes; two or three digits at the end are one or
    two bytes, their last bits dropped. *)
Fixpoint bytes (l : list nat) : list ascii :=
  match l with
  | [] | [_] => []
  | [a; b] => [ascii_of_nat (a * 4 + b / 16)]
  | [a; b; c] =>
      [ascii_of_nat (a * 4 + b / 16); ascii_of_nat (b mod 16 * 16 + c / 4)]
  | a :: b :: c :: d :: r =>
      ascii_of_nat (a * 4 + b / 16) :: ascii_of_nat (b mod 16 * 16 + c / 4)
        :: ascii_of_nat (c mod 4 * 64 + d) :: bytes r
  end.

(** [atob]; [None] when it raises [InvalidCharacterError]. *)
Definition decode (data : list ascii) : option (list ascii) :=
  let data := filter (fun c => isWhitespace c = false) data in
  let data := if (length data mod 4 =? 0)%nat then unpad data else data in
  if (length data mod 4 =? 1)%nat then None
  else bytes <$> mapM value data.

Definition atob (data : string) : option string :=
  String.string_of_list_ascii <$> decode (String.list_ascii_of_string data).

End Base64.

Module Utils.

(** [encryptApiKey(key)]: [return btoa(key)], outside any [try]. [None]:
    the error of [btoa] leaves the function. *)
Definition encryptApiKey (key : list nat) : option string := Base64.btoa key.

(** [decryptApiKey(encryptedKey)]: [try { return atob(encryptedKey) }
    catch { return null }] *)
Definition decryptApiKey (encryptedKey : string) : option string :=
  Base64.atob encryptedKey.

End Utils.

(** ** Authentication

    The provider [AuthProvider] with its state, the wrapper [withAuth]
    that shows the spinner, the page [AuthPage] or the protected
    component, and the page [AuthPage] with its own state.

    A call of the auth library is awaited: what it does before the
    [await] runs at once, what it does after runs when the reply arrives
    ([Reply]). [AuthPage] has its state while [withAuth] shows it; a state
    setter called by a closure of a page that is not shown any more, or of
    an earlier showing of the page, changes nothing. *)

Module Auth.
Import JS.

Record User : Type := { userId : string; userEmail : string }.

(** The state of [AuthProvider]. *)
Record Context : Type := {
  user : option User;
  loading : bool;
  error : option string
}.

Definition init : Context := {| user := None; loading := true; error := None |}.

Definition setUser (v : option User) (c : Context) : Context :=
  {| user := v; loading := loading c; error := error c |}.
Definition setLoading (v : bool) (c : Context) : Context :=
  {| user := user c; loading := v; error := error c |}.
Definition setError (v : option string) (c : Context) : Context :=
  {| user := user c; loading := loading c; error := v |}.

(** How an awaited call ends: with a value, or with an error and its
    message. *)
Inductive Outcome (A : Type) : Type :=
| Resolved (a : A)
| Rejected (message : string).
Arguments Resolved {A} a.
Arguments Rejected {A} message.

(** [getInitialSession] after [await auth.getUser()] *)
Definition sessionLoaded (r : Outcome (option User)) (c : Context) : Context :=
  setLoading false
    match r with
    | Resolved u => setUser u c
    | Rejected message => setError (Some message) c
    end.

(** The callback given to [auth.onAuthStateChange]; [sessionUser] is
    [session?.user || null]. *)
Definition authChanged (event : string) (sessionUser : option User)
    (c : Context) : Context :=
  let c := setLoading false (setUser sessionUser c) in
  if String.eqb event "SIGNED_OUT" then setError None c else c.

(** [signIn] and [signUp] up to their [await], and after it. *)
Definition attemptBegins (c : Context) : Context :=
  setLoading true (setError None c).

Definition attemptEnds {A} (r : Outcome A) (c : Context) : Context :=
  setLoading false
    match r with
    | Resolved _ => c
    | Rejected message => setError (Some message) c
    end.

(** [signOut] and [resetPassword] up to their [await], and after it. *)
Definition requestBegins (c : Context) : Context := setError None c.

Definition requestEnds {A} (r : Outcome A) (c : Context) : Context :=
  match r with
  | Resolved _ => c
  | Rejected message => setError (Some message) c
  end.

(** [clearError] *)
Definition clearError (c : Context) : Context := setError None c.

(** What [withAuth] returns. *)
Inductive Screen : Type := Spinner | AuthPageScreen | Protected.

Definition screen (c : Context) : Screen :=
  if loading c then Spinner
  else match user c with
       | None => AuthPageScreen
       | Some _ => Protected
       end.

(** The state of [AuthPage]. *)
Record Page : Type := {
  isLogin : bool;
  email : string;
  password : string;
  fullName : string;
  confirmPassword : string;
  showResetPassword : bool
}.

Definition blankPage : Page :=
  {| isLogin := true; email := ""; password := ""; fullName := "";
     confirmPassword := ""; showResetPassword := false |}.

Definition setIsLogin (v : bool) (p : Page) : Page :=
  {| isLogin := v; email := email p; password := password p;
     fullName := fullName p; confirmPassword := confirmPassword p;
     showResetPassword := showResetPassword p |}.
Definition setEmail (v : string) (p : Page) : Page :=
  {| isLogin := isLogin p; email := v; password := password p;
     fullName := fullName p; confirmPassword := confirmPassword p;
     showResetPassword := showResetPassword p |}.
Definition setPassword (v : string) (p : Page) : Page :=
  {| isLogin := isLogin p; email := email p; password := v;
     fullName := fullName p; confirmPassword := confirmPassword p;
     showResetPassword := showResetPassword p |}.
Definition setFullName (v : string) (p : Page) : Page :=
  {| isLogin := isLogin p; email := email p; password := password p;
     fullName := v; confirmPassword := confirmPassword p;
     showResetPassword := showResetPassword p |}.
Definition setConfirmPassword (v : string) (p : Page) : Page :=
  {| isLogin := isLogin p; email := email p; password := password p;
     fullName := fullName p; confirmPassword := v;
     showResetPassword := showResetPassword p |}.
Definition setShowResetPassword (v : bool) (p : Page) : Page :=
  {| isLogin := isLogin p; email := email p; password := password p;
     fullName := fullName p; confirmPassword := confirmPassword p;
     showResetPassword := v |}.

(** An awaited call that has not returned. [shown] is the showing of
    [AuthPage] whose closure awaits. *)
Inductive Task : Type :=
| InitialSession
| SigningIn
| SigningUp (shown : nat)
| SigningOut
| Resetting (shown : nat)
| Done.

(** The provider, the page while it is shown (with the number of its
    showing), the texts shown with [alert], and the calls awaited. *)
Record World : Type := {
  context : Context;
  page : option (nat * Page);
  showings : nat;
  alerts : list string;
  tasks : list Task
}.

(** When the provider has just been mounted: [getInitialSession] is
    awaited, and [withAuth] shows the spinner. *)
Definition start : World :=
  {| context := init; page := None; showings := 0; alerts := [];
     tasks := [InitialSession] |}.

Definition withContext (f : Context -> Context) (w : World) : World :=
  {| context := f (context w); page := page w; showings := showings w;
     alerts := alerts w; tasks := tasks w |}.

Definition withPage (f : Page -> Page) (w : World) : World :=
  {| context := context w;
     page := (fun ip : nat * Page => (ip.1, f ip.2)) <$> page w;
     showings := showings w; alerts := alerts w; tasks := tasks w |}.

(** The setter of a closure of the showing [shown]. *)
Definition withPageOf (shown : nat) (f : Page -> Page) (w : World) : World :=
  match page w with
  | Some (i, p) => if (i =? shown)%nat then withPage f w else w
  | None => w
  end.

Definition alert (text : string) (w : World) : World :=
  {| context := context w; page := page w; showings := showings w;
     alerts := alerts w ++ [text]; tasks := tasks w |}.

Definition await (t : Task) (w : World) : World :=
  {| context := context w; page := page w; showings := showings w;
     alerts := alerts w; tasks := tasks w ++ [t] |}.

Definition settle (n : nat) (w : World) : World :=
  {| context := context w; page := page w; showings := showings w;
     alerts := alerts w; tasks := <[n := Done]> (tasks w) |}.

(** The render of [withAuth] after a stretch of code: the page keeps its
    state while it stays shown, starts blank when it comes to be shown,
    and has none while it is not shown. *)
Definition render (w : World) : World :=
  match screen (context w), page w with
  | AuthPageScreen, Some _ => w
  | AuthPageScreen, None =>
      {| context := context w; page := Some (showings w, blankPage);
         showings := S (showings w); alerts := alerts w; tasks := tasks w |}
  | _, _ =>
      {| context := context w; page := None; showings := showings w;
         alerts := alerts w; tasks := tasks w |}
  end.

(** [handleSubmit] of [AuthPage], up to its [await] *)
Definition handleSubmit (w : World) : World :=
  match page w with
  | None => w
  | Some (shown, p) =>
      let w := withContext clearError w in
      if negb (isLogin p) && negb (String.eqb (password p) (confirmPassword p))
      then alert "Passwords do not match" w
      else if negb (isLogin p) && (String.length (password p) <? 6)%nat
      then alert "Password must be at least 6 characters" w
      else if isLogin p
      then await SigningIn (withContext attemptBegins w)
      else await (SigningUp shown) (withContext attemptBegins w)
  end.

(** [handleResetPassword], up to its [await] *)
Definition handleResetPassword (w : World) : World :=
  match page w with
  | None => w
  | Some (shown, p) =>
      let w := withContext clearError w in
      if negb (truthy (email p)) then alert "Please enter your email address" w
      else await (Resetting shown) (withContext requestBegins w)
  end.

(** The Sign Out button of the protected application: [signOut] up to its
    [await]. *)
Definition signOut (w : World) : World :=
  await SigningOut (withContext requestBegins w).

(** The reply to the awaited call [n] arrives. For the initial session
    the reply carries the user, if there is one. *)
Definition reply (n : nat) (r : Outcome (option User)) (w : World) : World :=
  match tasks w !! n with
  | Some InitialSession => settle n (withContext (sessionLoaded r) w)
  | Some SigningIn => settle n (withContext (attemptEnds r) w)
  | Some (SigningUp shown) =>
      let w := settle n (withContext (attemptEnds r) w) in
      match r with
      | Resolved _ =>
          withPageOf shown (setIsLogin true)
            (alert "Please check your email to verify your account before signing in." w)
      | Rejected _ => w
      end
  | Some SigningOut => settle n (withContext (requestEnds r) w)
  | Some (Resetting shown) =>
      let w := settle n (withContext (requestEnds r) w) in
      match r with
      | Resolved _ =>
          withPageOf shown (setShowResetPassword false)
            (alert "Password reset link sent to your email!" w)
      | Rejected _ => w
      end
  | Some Done | None => w
  end.

Inductive Action : Type :=
| TypeEmail (v : string)
| TypePassword (v : string)
| TypeFullName (v : string)
| TypeConfirmPassword (v : string)
| SignInTab
| SignUpTab
| SwitchLink
| ForgotPassword
| BackToSignIn
| Submit
| SubmitReset
| SignOut
| AuthChange (event : string) (sessionUser : option User)
| Reply (n : nat) (r : Outcome (option User)).

(** The tabs clear the error; the link below the form also empties the
    form. *)
Definition handle (a : Action) (w : World) : World :=
  match a with
  | TypeEmail v => withPage (setEmail v) w
  | TypePassword v => withPage (setPassword v) w
  | TypeFullName v => withPage (setFullName v) w
  | TypeConfirmPassword v => withPage (setConfirmPassword v) w
  | SignInTab =>
      match page w with
      | Some _ => withContext clearError (withPage (setIsLogin true) w)
      | None => w
      end
  | SignUpTab =>
      match page w with
      | Some _ => withContext clearError (withPage (setIsLogin false) w)
      | None => w
      end
  | SwitchLink =>
      match page w with
      | Some (_, p) =>
          withContext clearError
            (withPage (fun p => setConfirmPassword ""
                                  (setFullName ""
                                     (setPassword ""
                                        (setEmail "" (setIsLogin (negb (isLogin p)) p)))))
               w)
      | None => w
      end
  | ForgotPassword => withPage (setShowResetPassword true) w
  | BackToSignIn => withPage (setShowResetPassword false) w
  | Submit => handleSubmit w
  | SubmitReset => handleResetPassword w
  | SignOut =>
      match screen (context w) with
      | Protected => signOut w
      | _ => w
      end
  | AuthChange event sessionUser => withContext (authChanged event sessionUser) w
  | Reply n r => reply n r w
  end.

Definition step (w : World) (a : Action) : World := render (handle a w).

Definition steps (w : World) (l : list Action) : World := fold_left step l w.

(** The world once the initial session has been looked up and nobody is
    signed in: the page is shown, blank. *)
Definition signedOut : World := step start (Reply 0 (Resolved None)).

End Auth.

(** ** Database helpers

    [db.createEnvironment] and [db.updateEnvironment] of the database
    library. A call of the client is a query sent and a reply awaited: the
    client resolves with [{ data, error }], and the helper decides what to
    do with the error. The replies are arguments. *)

Module Db.
Import Auth.

Section Fields.
(** The columns of an environment other than its participants: the rest
    [envData] of [{ participants, ...envData }]. *)
Variable Fields : Type.

(** The argument of the two helpers. [participants] may be missing. *)
Record Input : Type := {
  participants : option (list EnvironmentForm.Stored);
  envData : Fields
}.

(** A row of [environments] as the database returns it. *)
Record Row : Type := { rowId : string; columns : Fields }.

(** A row of [environment_participants]. *)
Record Link : Type := { environment_id : string; persona_id : string }.

Inductive Query : Type :=
| GetUser
| InsertEnvironment (values : Fields) (user_id : string)
| InsertParticipants (rows : list Link)
| UpdateEnvironment (id : string) (values : Fields)
| DeleteParticipants (environment_id : string).

(** The queries sent, and the error thrown or the value returned. *)
Definition M (A : Type) : Type := list Query * (string + A).

Definition ret {A} (a : A) : M A := ([], inr a).
Definition throw {A} (message : string) : M A := ([], inl message).
Definition bind {A B} (m : M A) (f : A -> M B) : M B :=
  match m with
  | (sent, inl e) => (sent, inl e)
  | (sent, inr a) => let '(sent', r) := f a in (sent ++ sent', r)
  end.

(** [await] of a query, with the reply that comes back. *)
Definition query {A} (q : Query) (reply : A) : M A := ([q], inr reply).

Definition sent {A} (m : M A) : list Query := m.1.
Definition outcome {A} (m : M A) : string + A := m.2.

(** [participants.map(p => ({ environment_id, persona_id: p.id }))] *)
Definition participantData (environment_id : string)
    (ps : list EnvironmentForm.Stored) : list Link :=
  map (fun p => {| environment_id := environment_id;
                   persona_id := EnvironmentForm.id p |}) ps.

(** [createEnvironment(environment)]. [user] is [data.user] of
    [auth.getUser()]; [inserted] and [linked] are the replies to the two
    inserts, the second the [error] alone. *)
Definition createEnvironment (environment : Input) (user : option string)
    (inserted : Outcome Row) (linked : option string) : M Row :=
  bind (query GetUser user) (fun user =>
  match user with
  | None => throw "User not authenticated"
  | Some user_id =>
      bind (query (InsertEnvironment (envData environment) user_id) inserted)
        (fun r =>
      match r with
      | Rejected envError => throw envError
      | Resolved env =>
          bind (match participants environment with
                | Some (p :: ps) =>
                    bind (query (InsertParticipants
                                   (participantData (rowId env) (p :: ps))) linked)
                      (fun participantError =>
                    match participantError with
                    | Some e => throw e
                    | None => ret tt
                    end)
                | _ => ret tt
                end)
            (fun _ => ret env)
      end)
  end).

(** [updateEnvironment(id, updates)]. What comes back from the removal of
    the old participants is not looked at. *)
Definition updateEnvironment (id : string) (updates : Input)
    (updated : Outcome Row) (removed : option string) (linked : option string)
  : M Row :=
  bind (query (UpdateEnvironment id (envData updates)) updated) (fun r =>
  match r with
  | Rejected envError => throw envError
  | Resolved env =>
      bind (match participants updates with
            | Some ps =>
                bind (query (DeleteParticipants id) removed) (fun _ =>
                match ps with
                | _ :: _ =>
                    bind (query (InsertParticipants (participantData id ps)) linked)
                      (fun participantError =>
                    match participantError with
                    | Some e => throw e
                    | None => ret tt
                    end)
                | [] => ret tt
                end)
            | None => ret tt
            end)
        (fun _ => ret env)
  end).

(** A query that writes an environment or its participants. *)
Definition writes (q : Query) : bool :=
  match q with
  | GetUser => false
  | _ => true
  end.

Definition removes (q : Query) : bool :=
  match q with
  | DeleteParticipants _ => true
  | _ => false
  end.

End Fields.

Arguments participants {Fields} _.
Arguments envData {Fields} _.
Arguments rowId {Fields} _.
Arguments columns {Fields} _.
Arguments GetUser {Fields}.
Arguments InsertEnvironment {Fields} _ _.
Arguments InsertParticipants {Fields} _.
Arguments UpdateEnvironment {Fields} _ _.
Arguments DeleteParticipants {Fields} _.
Arguments createEnvironment {Fields} _ _ _ _.
Arguments updateEnvironment {Fields} _ _ _ _ _.
Arguments sent {Fields A} _.
Arguments outcome {Fields A} _.
Arguments writes {Fields} _.
Arguments removes {Fields} _.

End Db.

(** ** Sample data

    Two personas as the authoring form builds them, and environments that
    hold them. *)

Module Sample.
Import Adapter.

Definition ada : Persona.t :=
  {| Persona.name := "Ada";
     Persona.llm := "ChatGPT (OpenAI)";
     Persona.role := "Engineer";
     Persona.traits :=
       Some [ Trait.mk "Analytical" "Cognitive Approach" (Some "Strong");
              Trait.mk "Calm" "Emotional Tone" (Some "Weak");
              Trait.mk "Curiosity" "Motivations / Drives" None ];
     Persona.knowledgeHub := Some "Grew up in a family of engineers.";
     Persona.wordLimit := None |}.

Definition bob : Persona.t :=
  {| Persona.name := "Bob";
     Persona.llm := "Gemini (Google)";
     Persona.role := "Poet";
     Persona.traits := None;
     Persona.knowledgeHub := None;
     Persona.wordLimit := None |}.

Definition room (mode : string) : Environment.t :=
  {| Environment.name := "Team Brainstorm";
     Environment.participants := [ada; bob];
     Environment.interactionMode := mode;
     Environment.wordLimit := 300;
     Environment.startingPrompt := "Discuss the launch.";
     Environment.humanModerator := false |}.

Definition keys : ApiKeys := {| openai := "sk-test"; claude := "" |}.
Definition noKeys : ApiKeys := {| openai := ""; claude := "" |}.

Definition noon : Clock := {| now := 1700000000000; localeTime := "12:00:00" |}.

Definition answered : Outside :=
  {| reply := Ok "Let us begin."; random := 0; clock := noon |}.
Definition refused : Outside :=
  {| reply := NotOk (Some "Incorrect API key provided"); random := 1; clock := noon |}.
Definition offline : Outside :=
  {| reply := Failed "Failed to fetch"; random := 2; clock := noon |}.

(** The manual room once started, and once Ada has been asked to speak. *)
Definition ready : Engine.State :=
  Engine.step keys Engine.init (Engine.StartSimulation (room "manual") noon).

Definition adaSpeaking : Engine.State :=
  Engine.step keys ready (Engine.Manual ada).

(** A state with a loop under way ([handleAutoLoop] called a second time,
    by hand, once the ref is up): the first round has run, the loop waits
    for the timer of its second round. *)
Definition betweenRounds : Engine.State :=
  Engine.steps keys Engine.init
    [ Engine.StartSimulation (room "auto-loop") noon;
      Engine.AutoLoop; Engine.AutoLoop;
      Engine.Resume 1 answered; Engine.Resume 1 answered;
      Engine.Resume 1 answered; Engine.Resume 1 answered ].

Definition secondRound : Engine.Loop :=
  {| Engine.participants := [ada; bob];
     Engine.currentRound := 1;
     Engine.captured :=
       [ {| Message.id := now noon; Message.type := "system";
            Message.persona := None;
            Message.content := "Discuss the launch.";
            Message.timestamp := localeTime noon;
            Message.llm := None; Message.isRealAI := None |} ] |}.

End Sample.

(** * Properties *)

(** ** Strings *)

Lemma string_app_assoc (a b c : string) : (a +:+ b) +:+ c = a +:+ (b +:+ c).
Proof. induction a as [|x a IH]; simpl; congruence. Qed.

Lemma string_app_nil_r (a : string) : a +:+ "" = a.
Proof. induction a as [|x a IH]; simpl; congruence. Qed.

Lemma string_app_length (a b : string) :
  String.length (a +:+ b) = String.length a + String.length b.
Proof. induction a as [|x a IH]; simpl; congruence. Qed.

Lemma includes_refl (s : string) : JS.includes s s.
Proof. exists "", "". simpl. now rewrite string_app_nil_r. Qed.

Lemma includes_app_l (a b x : string) : JS.includes a x -> JS.includes (a +:+ b) x.
Proof.
  intros (pre & post & ->). exists pre, (post +:+ b).
  now rewrite !string_app_assoc.
Qed.

Lemma includes_app_r (a b x : string) : JS.includes b x -> JS.includes (a +:+ b) x.
Proof.
  intros (pre & post & ->). exists (a +:+ pre), post.
  now rewrite !string_app_assoc.
Qed.


Lemma startsWith_app (sub post : string) : JS.startsWith (sub +:+ post) sub = true.
Proof.
  induction sub as [|c sub IH]; [reflexivity|].
  cbn. now rewrite Ascii.eqb_refl, IH.
Qed.

(** The test [includesb] finds every occurrence. *)
Lemma includes_includesb (s sub : string) :
  JS.includes s sub -> JS.includesb s sub = true.
Proof.
  intros (pre & post & ->). induction pre as [|c pre IH].
  - cbn [String.append]. destruct (sub +:+ post) eqn:E; cbn [JS.includesb];
      rewrite <- E, startsWith_app; reflexivity.
  - cbn [String.append JS.includesb]. rewrite IH. apply orb_true_r.
Qed.

(** ** Prompt builder *)

Module PromptFacts.
Import JS Prompt.




(** The adverbs of the three intensities, and of everything else. *)
Lemma intensityAdverb_Weak : intensityAdverb (Some "Weak") = "slightly".
Proof. reflexivity. Qed.

Lemma intensityAdverb_Neutral : intensityAdverb (Some "Neutral") = "moderately".
Proof. reflexivity. Qed.

Lemma intensityAdverb_Strong : intensityAdverb (Some "Strong") = "very".
Proof. reflexivity. Qed.



End PromptFacts.

Module PromptClaims.
Import JS Prompt PromptFacts.




(** The prompts of the two sample personas, as the builder writes them. *)
Example buildSystemPrompt_ada :
  buildSystemPrompt Sample.ada
  = "You are Ada, Engineer" +:+ nl +:+ nl
    +:+ "Your personality traits:" +:+ nl
    +:+ "- very analytical" +:+ nl
    +:+ "- slightly calm" +:+ nl
    +:+ "- moderately curiosity" +:+ nl +:+ nl
    +:+ "Background and Knowledge:" +:+ nl
    +:+ "Grew up in a family of engineers." +:+ nl +:+ nl
    +:+ "IMPORTANT: Stay in character as Ada. Respond based on your traits, role, and background. Keep responses conversational and authentic to your personality.".
Proof. reflexivity. Qed.

Example buildSystemPrompt_bob :
  buildSystemPrompt Sample.bob
  = "You are Bob, Poet" +:+ nl +:+ nl
    +:+ "IMPORTANT: Stay in character as Bob. Respond based on your traits, role, and background. Keep responses conversational and authentic to your personality.".
Proof. reflexivity. Qed.

End PromptClaims.

(** ** Model adapters *)

Module AdapterFacts.
Import JS Adapter.

Ltac unfold_adapter :=
  unfold simulateAIResponse, attempt, callRealAI, callOpenAI, callClaude,
    try_catch, bind, fetch, ret, throw, outcome, sent in *.

Ltac crush_adapter :=
  unfold_adapter;
  repeat match goal with
         | |- context [truthy ?k] => destruct (truthy k)
         | |- context [isOpenAI ?p] => destruct (isOpenAI p)
         | |- context [isClaude ?p] => destruct (isClaude p)
         | |- context [match ?r with Failed _ => _ | Ok _ => _ | NotOk _ => _ end] =>
             destruct r
         end;
  cbn [negb andb fst snd app].

Lemma isOpenAI_not_isClaude persona :
  isOpenAI persona = true -> isClaude persona = false.
Proof.
  unfold isOpenAI, isClaude. intros H%String.eqb_eq. now rewrite H.
Qed.

(** [callRealAI] catches whatever its adapters throw. *)
Lemma callRealAI_never_throws apiKeys reply random persona history :
  exists response,
    outcome (callRealAI apiKeys reply random persona history) = inr response.
Proof. crush_adapter; eauto. Qed.

(** So the [try] block of [simulateAIResponse] never throws either, and
    its [catch] block is never entered. *)
Lemma attempt_never_throws apiKeys seen persona o :
  exists m, outcome (attempt apiKeys seen persona o) = inr m.
Proof. destruct o as [r ? ?]. crush_adapter; eauto. Qed.

Lemma simulateAIResponse_is_attempt apiKeys seen persona o :
  simulateAIResponse apiKeys seen persona o = attempt apiKeys seen persona o.
Proof.
  destruct (attempt_never_throws apiKeys seen persona o) as [m Hm].
  unfold simulateAIResponse, try_catch.
  destruct (attempt apiKeys seen persona o) as [reqs [e|m']]; [discriminate|reflexivity].
Qed.

Lemma simulateAIResponse_returns apiKeys seen persona o :
  outcome (simulateAIResponse apiKeys seen persona o)
  = inr (newMessage apiKeys seen persona o).
Proof.
  unfold newMessage.
  rewrite simulateAIResponse_is_attempt.
  destruct (attempt_never_throws apiKeys seen persona o) as [m ->].
  reflexivity.
Qed.

(** The requests of a turn are those sent before its [await]. *)
Lemma simulateAIResponse_sent apiKeys seen persona o :
  sent (simulateAIResponse apiKeys seen persona o) = outgoing apiKeys seen persona.
Proof.
  destruct o as [r ? ?]. unfold outgoing. unfold_adapter.
  destruct (isOpenAI persona) eqn:E;
    [rewrite (isOpenAI_not_isClaude _ E)|]; crush_adapter; reflexivity.
Qed.

Lemma outgoing_at_most_one apiKeys seen persona :
  length (outgoing apiKeys seen persona) <= 1.
Proof.
  unfold outgoing.
  destruct (truthy (openai apiKeys) && isOpenAI persona),
           (truthy (claude apiKeys) && isClaude persona); simpl; lia.
Qed.

(** Who spoke: every message of a turn is an agent message in the name of
    the persona. *)
Lemma newMessage_author apiKeys seen persona o :
  Message.type (newMessage apiKeys seen persona o) = "ai"
  /\ Message.persona (newMessage apiKeys seen persona o) = Some (Persona.name persona)
  /\ Message.llm (newMessage apiKeys seen persona o) = Some (Persona.llm persona)
  /\ Message.id (newMessage apiKeys seen persona o) = now (clock o)
  /\ Message.timestamp (newMessage apiKeys seen persona o) = localeTime (clock o).
Proof.
  unfold newMessage. destruct o as [r ? ?]. crush_adapter; repeat split.
Qed.

(** The budget of a request is the word limit of the persona, and 200
    when the persona has none. *)
Lemma request_max_tokens apiKeys messages persona :
  max_tokens_of (openaiRequest apiKeys messages persona) = maxTokens persona
  /\ max_tokens_of (claudeRequest apiKeys messages persona) = maxTokens persona.
Proof. split; reflexivity. Qed.

Lemma maxTokens_unset persona :
  Persona.wordLimit persona = None -> maxTokens persona = 200%Z.
Proof. unfold maxTokens. now intros ->. Qed.

Lemma isOpenAI_false persona :
  Persona.llm persona <> "ChatGPT (OpenAI)" -> isOpenAI persona = false.
Proof. intros H. now apply String.eqb_neq. Qed.

Lemma isClaude_false persona :
  Persona.llm persona <> "Claude (Anthropic)" -> isClaude persona = false.
Proof. intros H. now apply String.eqb_neq. Qed.

Lemma getSimulatedResponse_in persona random :
  getSimulatedResponse persona random ∈ responses persona.
Proof.
  unfold getSimulatedResponse.
  assert (random mod 5 < 5) as Hlt by (apply Nat.mod_upper_bound; lia).
  destruct (random mod 5) as [|[|[|[|[|k]]]]]; [| | | | |lia];
    cbn [responses lookup list_lookup default];
    repeat (first [apply list_elem_of_here | apply list_elem_of_further]).
Qed.

End AdapterFacts.

(** ** Turn engine *)

Module EngineFacts.
Import JS Adapter Engine AdapterFacts.

Section WithKeys.
Variable apiKeys : ApiKeys.

(** *** What the pieces of [runNextTurn] leave alone *)

Lemma afterLoop_history n l s :
  localChatHistory (afterLoop n l s) = localChatHistory s.
Proof. unfold afterLoop. now destruct (_ && _). Qed.

Lemma forLoop_history n l i s :
  localChatHistory (forLoop apiKeys n l i s) = localChatHistory s.
Proof.
  unfold forLoop.
  destruct (participants l !! i), (simulationRunningRef s);
    cbn; rewrite ?afterLoop_history; reflexivity.
Qed.

Lemma runNextTurn_history n l s :
  localChatHistory (runNextTurn apiKeys n l s) = localChatHistory s.
Proof.
  unfold runNextTurn.
  destruct (negb _); [reflexivity|].
  destruct (_ <=? _)%nat; [reflexivity|]. apply forLoop_history.
Qed.

(** With the flag down, the loop stops wherever it is polled, and
    starts nothing. *)
Lemma afterLoop_stopped n l s :
  simulationRunningRef s = false ->
  afterLoop n l s = setTask n Finished (setIsSimulationRunning false s).
Proof. unfold afterLoop. now intros ->. Qed.

Lemma forLoop_stopped n l i s :
  simulationRunningRef s = false ->
  forLoop apiKeys n l i s = setTask n Finished (setIsSimulationRunning false s).
Proof.
  intros H. unfold forLoop. rewrite H.
  destruct (participants l !! i); now apply afterLoop_stopped.
Qed.

Lemma runNextTurn_stopped n l s :
  simulationRunningRef s = false ->
  runNextTurn apiKeys n l s = setTask n Finished s.
Proof. unfold runNextTurn. now intros ->. Qed.

(** *** One step and the transcript *)

Lemma resume_history n o s :
  localChatHistory (resume apiKeys n o s) = localChatHistory s
  \/ exists m, localChatHistory (resume apiKeys n o s) = localChatHistory s ++ [m].
Proof.
  unfold resume.
  destruct (tasks s !! n) as [[persona seen|l i persona|l i|l|]|]; auto.
  - rewrite simulateAIResponse_returns. right. eexists. reflexivity.
  - rewrite simulateAIResponse_returns. right. eexists. reflexivity.
  - left. destruct (simulationRunningRef s);
      [apply forLoop_history | apply afterLoop_history].
  - left. apply runNextTurn_history.
Qed.

Lemma handleAutoLoop_history s :
  localChatHistory (handleAutoLoop apiKeys s) = localChatHistory s.
Proof.
  unfold handleAutoLoop.
  destruct (selectedEnvironment s); [|reflexivity].
  destruct (isProcessing s); [reflexivity|].
  now rewrite runNextTurn_history.
Qed.

(** A resumed task that is finished, or absent, changes nothing. *)
Lemma resume_idle n o s :
  Forall (eq Finished) (tasks s) -> resume apiKeys n o s = s.
Proof.
  intros H. unfold resume.
  destruct (tasks s !! n) as [t|] eqn:E; [|reflexivity].
  eapply Forall_lookup in H; [|exact E]. now subst t.
Qed.

Lemma commit_fixed s :
  simulationRunningRef s = isSimulationRunning s -> commit s = s.
Proof. destruct s; cbn. now intros ->. Qed.

(** [handleAutoLoop] called when the ref is down (always so when the
    view binds it to the button): the first line of [runNextTurn]
    returns. Nothing is started; only [isSimulationRunning] is raised. *)
Lemma handleAutoLoop_ref_down s :
  simulationRunningRef s = false ->
  handleAutoLoop apiKeys s = s
  \/ handleAutoLoop apiKeys s
     = setTasks (tasks s ++ [Finished]) (setIsSimulationRunning true s).
Proof.
  intros Href. unfold handleAutoLoop.
  destruct (selectedEnvironment s); [|now left].
  destruct (isProcessing s); [now left|]. right.
  rewrite runNextTurn_stopped by exact Href.
  unfold setTask. cbn.
  rewrite insert_app_r_alt, Nat.sub_diag by reflexivity. reflexivity.
Qed.

(** *** The loop, turn by turn *)

Lemma steps_app s l1 l2 :
  steps apiKeys s (l1 ++ l2) = steps apiKeys (steps apiKeys s l1) l2.
Proof. apply fold_left_app. Qed.

Lemma steps_cons s a l :
  steps apiKeys s (a :: l) = steps apiKeys (step apiKeys s a) l.
Proof. reflexivity. Qed.

(** The timer (or pacing timer) fires with the flag up: the turn of
    participant [i] starts. *)
Lemma wake_starts_turn s n l i persona o :
  tasks s !! n = Some (waiting l i) ->
  simulationRunningRef s = true ->
  isSimulationRunning s = true ->
  (currentRound l < maxRounds)%nat ->
  participants l !! i = Some persona ->
  let s' := step apiKeys s (Resume n o) in
  tasks s' !! n = Some (LoopTurn l i persona)
  /\ simulationRunningRef s' = true
  /\ isSimulationRunning s' = true
  /\ localChatHistory s' = localChatHistory s
  /\ network s' = network s ++ outgoing apiKeys (captured l) persona.
Proof.
  intros Ht Href Hrun Hround Hp.
  assert (n < length (tasks s)) as Hn by (eapply lookup_lt_Some; exact Ht).
  unfold step, handle, resume. rewrite Ht.
  assert (forLoop apiKeys n l i s
          = setTask n (LoopTurn l i persona) (beginTurn apiKeys persona (captured l) s))
    as Hfor by (unfold forLoop; now rewrite Hp, Href).
  destruct i as [|j]; cbn [waiting].
  - unfold runNextTurn. rewrite Href. cbn [negb].
    apply Nat.leb_gt in Hround. rewrite Hround, Hfor. cbn.
    rewrite list_lookup_insert_eq by exact Hn. now rewrite Hrun.
  - rewrite Href, Hfor. cbn.
    rewrite list_lookup_insert_eq by exact Hn. now rewrite Hrun.
Qed.

(** The reply of a turn arrives: one message is appended and the loop
    waits for its pacing timer. *)
Lemma reply_ends_turn s n l i persona o :
  tasks s !! n = Some (LoopTurn l i persona) ->
  let s' := step apiKeys s (Resume n o) in
  tasks s' !! n = Some (waiting l (S i))
  /\ simulationRunningRef s' = isSimulationRunning s
  /\ isSimulationRunning s' = isSimulationRunning s
  /\ localChatHistory s'
     = localChatHistory s ++ [newMessage apiKeys (captured l) persona o]
  /\ network s' = network s.
Proof.
  intros Ht.
  assert (n < length (tasks s)) as Hn by (eapply lookup_lt_Some; exact Ht).
  unfold step, handle, resume. rewrite Ht, simulateAIResponse_returns. cbn.
  now rewrite list_lookup_insert_eq by exact Hn.
Qed.

(** [k] undisturbed turns of a round append the messages of the next
    [k] participants, in their order. *)
Lemma turns_progress (os : list Outside) : forall s n l i,
  tasks s !! n = Some (waiting l i) ->
  simulationRunningRef s = true ->
  isSimulationRunning s = true ->
  (currentRound l < maxRounds)%nat ->
  i + length os <= length (participants l) ->
  let s' := steps apiKeys s (turns n os) in
  tasks s' !! n = Some (waiting l (i + length os))
  /\ simulationRunningRef s' = true
  /\ isSimulationRunning s' = true
  /\ localChatHistory s'
     = localChatHistory s
       ++ zip_with (newMessage apiKeys (captured l)) (drop i (participants l)) os.
Proof.
  induction os as [|o os IH]; intros s n l i Ht Href Hrun Hround Hlen.
  - cbn. rewrite Nat.add_0_r, zip_with_nil_r, app_nil_r. auto.
  - cbn [length] in Hlen.
    destruct (participants l !! i) as [persona|] eqn:Hp;
      [|apply lookup_ge_None in Hp; lia].
    destruct (wake_starts_turn s n l i persona o Ht Href Hrun Hround Hp)
      as (Ht1 & Href1 & Hrun1 & Hh1 & _).
    destruct (reply_ends_turn _ n l i persona o Ht1)
      as (Ht2 & Href2 & Hrun2 & Hh2 & _).
    rewrite Hrun1 in Href2, Hrun2.
    specialize (IH _ n l (S i) Ht2 Href2 Hrun2 Hround ltac:(lia)).
    cbn [turns flat_map app]. rewrite !steps_cons.
    destruct IH as (Ht3 & Href3 & Hrun3 & Hh3).
    cbn [length]. rewrite Nat.add_succ_r.
    repeat split; try assumption.
    unfold turns in Hh3. rewrite Hh3, Hh2, Hh1.
    rewrite (drop_S _ _ _ Hp). cbn [zip_with].
    now rewrite <- app_assoc.
Qed.

(** After [stopSimulation] the loop in slot [n], wherever it waits,
    ends at its next poll: no message, no request, no new turn. *)
Lemma stopped_loop_is_inert (rest : list Outside) : forall s n l i,
  tasks s !! n = Some (waiting l i) \/ tasks s !! n = Some Finished ->
  simulationRunningRef s = false ->
  isSimulationRunning s = false ->
  let s' := steps apiKeys s (map (Resume n) rest) in
  localChatHistory s' = localChatHistory s
  /\ network s' = network s
  /\ isSimulationRunning s' = false
  /\ (tasks s' !! n = Some (waiting l i) \/ tasks s' !! n = Some Finished)
  /\ (rest <> [] -> tasks s' !! n = Some Finished).
Proof.
  induction rest as [|o rest IH]; intros s n l i Ht Href Hrun.
  - cbn. repeat split; auto. congruence.
  - cbn [map]. rewrite steps_cons.
    assert (let s1 := step apiKeys s (Resume n o) in
            localChatHistory s1 = localChatHistory s
            /\ network s1 = network s
            /\ isSimulationRunning s1 = false
            /\ simulationRunningRef s1 = false
            /\ tasks s1 !! n = Some Finished) as (Hh & Hn & Hrun1 & Href1 & Ht1).
    { destruct Ht as [Ht|Ht].
      - assert (n < length (tasks s)) as Hlt by (eapply lookup_lt_Some; exact Ht).
        unfold step, handle, resume. rewrite Ht.
        destruct i as [|j]; cbn [waiting].
        + rewrite runNextTurn_stopped by exact Href. cbn.
          rewrite list_lookup_insert_eq by exact Hlt. now rewrite Hrun.
        + rewrite Href, afterLoop_stopped by exact Href. cbn.
          now rewrite list_lookup_insert_eq by exact Hlt.
      - unfold step, handle, resume. rewrite Ht. cbn. now rewrite Hrun. }
    destruct (IH _ n l i (or_intror Ht1) Href1 Hrun1) as (Hh2 & Hn2 & Hrun2 & Ht2 & _).
    rewrite Hh2, Hn2, Hh, Hn. repeat split; auto.
    intros _. destruct rest as [|o' rest']; [exact Ht1|].
    destruct (IH _ n l i (or_intror Ht1) Href1 Hrun1) as (_ & _ & _ & _ & Hfin).
    apply Hfin. discriminate.
Qed.

(** *** The loop, round by round *)

Lemma insert_last (ts : list Task) (a x : Task) :
  <[length ts := x]> (ts ++ [a]) = ts ++ [x].
Proof. now rewrite insert_app_r_alt, Nat.sub_diag by reflexivity. Qed.

Lemma afterLoop_running n l s :
  simulationRunningRef s = true ->
  afterLoop n l s
  = if (S (currentRound l) <? maxRounds)%nat
    then setTask n (LoopTimer (nextRound l)) s
    else setTask n Finished (setIsSimulationRunning false s).
Proof. unfold afterLoop. now intros ->. Qed.

(** The end of a round: the wake after the last turn finds nobody left. *)
Lemma wake_ends_round s n l o :
  tasks s !! n = Some (waiting l (length (participants l))) ->
  simulationRunningRef s = true ->
  isSimulationRunning s = true ->
  (currentRound l < maxRounds)%nat ->
  let s' := step apiKeys s (Resume n o) in
  localChatHistory s' = localChatHistory s
  /\ network s' = network s
  /\ if (S (currentRound l) <? maxRounds)%nat
     then tasks s' !! n = Some (LoopTimer (nextRound l))
          /\ simulationRunningRef s' = true /\ isSimulationRunning s' = true
     else tasks s' !! n = Some Finished /\ isSimulationRunning s' = false.
Proof.
  intros Ht Href Hrun Hround.
  assert (n < length (tasks s)) as Hn by (eapply lookup_lt_Some; exact Ht).
  assert (forLoop apiKeys n l (length (participants l)) s = afterLoop n l s) as Hfor.
  { unfold forLoop. now rewrite (proj2 (lookup_ge_None _ _) (le_n _)). }
  assert (resume apiKeys n o s = afterLoop n l s) as Hres.
  { unfold resume. rewrite Ht.
    destruct (length (participants l)) as [|j] eqn:E; cbn [waiting].
    - unfold runNextTurn. rewrite Href. cbn [negb].
      apply Nat.leb_gt in Hround. rewrite Hround. exact Hfor.
    - now rewrite Href. }
  unfold step, handle. rewrite Hres, afterLoop_running by exact Href.
  destruct (S (currentRound l) <? maxRounds)%nat eqn:E; cbn.
  - rewrite list_lookup_insert_eq by exact Hn. now rewrite Hrun.
  - now rewrite list_lookup_insert_eq by exact Hn.
Qed.

Lemma round_progress s n l o os :
  tasks s !! n = Some (LoopTimer l) ->
  simulationRunningRef s = true ->
  isSimulationRunning s = true ->
  (currentRound l < maxRounds)%nat ->
  length os = length (participants l) ->
  let s' := steps apiKeys s (round n o os) in
  localChatHistory s'
  = localChatHistory s ++ zip_with (newMessage apiKeys (captured l)) (participants l) os
  /\ if (S (currentRound l) <? maxRounds)%nat
     then tasks s' !! n = Some (LoopTimer (nextRound l))
          /\ simulationRunningRef s' = true /\ isSimulationRunning s' = true
     else tasks s' !! n = Some Finished /\ isSimulationRunning s' = false.
Proof.
  intros Ht Href Hrun Hround Hlen s'. subst s'. unfold round. rewrite steps_app.
  destruct (turns_progress os s n l 0 Ht Href Hrun Hround ltac:(cbn; lia))
    as (Ht1 & Href1 & Hrun1 & Hh1).
  cbn [plus] in Ht1. rewrite drop_0 in Hh1. rewrite Hlen in Ht1.
  destruct (wake_ends_round _ n l o Ht1 Href1 Hrun1 Hround) as (Hh2 & _ & Hend).
  cbn [steps fold_left]. rewrite Hh2, Hh1. split; [reflexivity|exact Hend].
Qed.

(** All the rounds that are left, to the end of the run. *)
Lemma rounds_progress n o (oss : list (list Outside)) : forall s l,
  tasks s !! n = Some (LoopTimer l) ->
  simulationRunningRef s = true ->
  isSimulationRunning s = true ->
  currentRound l + length oss = maxRounds ->
  oss <> [] ->
  Forall (fun os => length os = length (participants l)) oss ->
  let s' := steps apiKeys s (rounds n o oss) in
  localChatHistory s'
  = localChatHistory s
    ++ concat (map (zip_with (newMessage apiKeys (captured l)) (participants l)) oss)
  /\ tasks s' !! n = Some Finished
  /\ isSimulationRunning s' = false.
Proof.
  induction oss as [|os oss IH]; intros s l Ht Href Hrun Hleft Hne Hall; [congruence|].
  apply Forall_cons in Hall as [Hos Hall]. cbn [length] in Hleft.
  unfold rounds. cbn [flat_map]. rewrite steps_app.
  destruct (round_progress s n l o os Ht Href Hrun ltac:(lia) Hos) as (Hh1 & Hend).
  destruct oss as [|os' oss].
  - cbn [length] in Hleft.
    replace (S (currentRound l) <? maxRounds)%nat with false in Hend
      by (symmetry; apply Nat.ltb_ge; lia).
    cbn. rewrite Hh1, app_nil_r. now destruct Hend.
  - replace (S (currentRound l) <? maxRounds)%nat with true in Hend
      by (symmetry; apply Nat.ltb_lt; cbn [length] in Hleft; lia).
    destruct Hend as (Ht1 & Href1 & Hrun1).
    destruct (IH _ (nextRound l) Ht1 Href1 Hrun1
                ltac:(cbn [nextRound currentRound length] in *; lia)
                ltac:(discriminate) Hall) as (Hh2 & Ht2 & Hrun2).
    fold (rounds n o (os' :: oss)).
    rewrite Hh2, Hh1. cbn [nextRound captured participants concat map].
    rewrite <- app_assoc. auto.
Qed.

(** [handleAutoLoop], called with the flag up, does what the timer of a
    first round would do. *)
Lemma handleAutoLoop_as_timer s environment o :
  selectedEnvironment s = Some environment ->
  isProcessing s = false ->
  let l := {| participants := Environment.participants environment;
              currentRound := 0; captured := localChatHistory s |} in
  step apiKeys s AutoLoop
  = step apiKeys
      (setTasks (tasks s ++ [LoopTimer l]) (setIsSimulationRunning true s))
      (Resume (length (tasks s)) o).
Proof.
  intros Hsel Hidle l. unfold step, handle, handleAutoLoop, resume.
  rewrite Hsel, Hidle. fold l. cbn [tasks setTasks].
  rewrite lookup_app_r, Nat.sub_diag by reflexivity. cbn [lookup list_lookup].
  f_equal. unfold runNextTurn, forLoop, afterLoop, setTask, beginTurn.
  cbn [simulationRunningRef setTasks setIsSimulationRunning tasks setNetwork setIsProcessing].
  destruct (simulationRunningRef s); cbn [negb andb];
    [|now rewrite !insert_last].
  destruct (maxRounds <=? currentRound l)%nat; [now rewrite !insert_last|].
  destruct (participants l !! 0); [now rewrite !insert_last|].
  destruct (S (currentRound l) <? maxRounds)%nat; now rewrite !insert_last.
Qed.

(** *** A manual turn

    Requested when no turn is in flight, and resumed when its reply
    arrives: no exception, exactly one message appended, the requests of
    the turn sent. *)
Lemma manual_turn s persona o :
  isProcessing s = false ->
  let s' := steps apiKeys s [Manual persona; Resume (length (tasks s)) o] in
  localChatHistory s'
  = localChatHistory s ++ [newMessage apiKeys (localChatHistory s) persona o]
  /\ network s' = network s ++ outgoing apiKeys (localChatHistory s) persona
  /\ tasks s' = tasks s ++ [Finished]
  /\ isProcessing s' = false.
Proof.
  intros Hidle s'. subst s'. rewrite !steps_cons.
  remember (step apiKeys s (Manual persona)) as s1 eqn:Es1.
  assert (tasks s1 = tasks s ++ [ManualTurn persona (localChatHistory s)]
          /\ localChatHistory s1 = localChatHistory s
          /\ network s1 = network s ++ outgoing apiKeys (localChatHistory s) persona)
    as (Ht & Hh & Hn).
  { rewrite Es1. unfold step, handle, handleManualTurn. rewrite Hidle. now cbn. }
  clear Es1.
  cbn [steps fold_left]. unfold step, handle, resume.
  rewrite Ht, lookup_app_r, Nat.sub_diag by reflexivity. cbn [lookup list_lookup].
  rewrite simulateAIResponse_returns. cbn.
  rewrite Ht, Hh, Hn, insert_app_r_alt, Nat.sub_diag by reflexivity.
  now repeat split.
Qed.

(** *** Calls that have not returned *)

Lemma count_snoc (ts : list Task) (t : Task) :
  length (filter (fun t => inFlight t = true) (ts ++ [t]))
  = length (filter (fun t => inFlight t = true) ts) + (if inFlight t then 1 else 0).
Proof.
  rewrite filter_app, length_app. f_equal. rewrite filter_cons, filter_nil.
  destruct (inFlight t); case_decide; try reflexivity; congruence.
Qed.

Lemma count_insert (ts : list Task) : forall n t t',
  ts !! n = Some t ->
  length (filter (fun t => inFlight t = true) (<[n := t']> ts))
    + (if inFlight t then 1 else 0)
  = length (filter (fun t => inFlight t = true) ts)
    + (if inFlight t' then 1 else 0).
Proof.
  induction ts as [|x ts IH]; intros n t t' H; [discriminate|].
  destruct n as [|n]; cbn in H.
  - injection H as ->. change (<[0:=t']> (t :: ts)) with (t' :: ts).
    rewrite !filter_cons.
    destruct (inFlight t), (inFlight t'); repeat case_decide;
      cbn [length]; try lia; congruence.
  - change (<[S n:=t']> (x :: ts)) with (x :: <[n:=t']> ts).
    rewrite !filter_cons. specialize (IH n t t' H).
    destruct (inFlight t), (inFlight t'); case_decide; cbn [length]; lia.
Qed.

(** *** The invariant *)

Lemma consistent_init : consistent init.
Proof.
  repeat split; cbn; try lia; try discriminate. constructor.
Qed.

Lemma consistent_resume s n o :
  consistent s -> consistent (step apiKeys s (Resume n o)).
Proof.
  intros Hinv. pose proof Hinv as (Href & Hloop & Hone & Hflag & Hmode).
  unfold step, handle, resume.
  destruct (tasks s !! n) as [t|] eqn:Ht.
  2:{ rewrite commit_fixed by exact Href. exact Hinv. }
  pose proof (Forall_lookup_1 _ _ _ _ Hloop Ht) as Hq.
  destruct t as [persona seen|l i persona|l i|l|]; cbn in Hq; try contradiction.
  2:{ rewrite commit_fixed by exact Href. exact Hinv. }
  rewrite simulateAIResponse_returns.
  pose proof (count_insert (tasks s) n _ Finished Ht) as Hc. cbn in Hc.
  fold (outstanding s) in Hc.
  split; [|split; [|split; [|split]]]; cbn.
  - reflexivity.
  - now apply Forall_insert.
  - lia.
  - intros H1. lia.
  - exact Hmode.
Qed.

Ltac split_consistent := split; [|split; [|split; [|split]]]; cbn.

Lemma consistent_control s c a :
  consistent s -> bound s c = Some a -> consistent (step apiKeys s a).
Proof.
  intros Hinv Hb. pose proof Hinv as (Href & Hloop & Hone & Hflag & Hmode).
  assert (isProcessing s = false -> outstanding s = 0) as Hidle.
  { intros Hbusy. destruct (decide (outstanding s = 1)) as [H1|H1]; [|lia].
    destruct (Hflag H1). congruence. }
  unfold bound in Hb.
  destruct (selectedEnvironment s) as [e|] eqn:Hsel.
  - destruct c as [environment clk| |i|text|clk| ]; try discriminate.
    + (* the Auto-Run / Stop button *)
      destruct (String.eqb _ "auto-loop") eqn:Hauto; [|discriminate].
      apply String.eqb_eq in Hauto.
      destruct (isSimulationRunning s) eqn:Hrun; injection Hb as <-.
      * (* Stop *)
        split_consistent; try assumption; try reflexivity; try discriminate.
        intros H1. destruct (Hflag H1). discriminate.
      * (* Auto-Run *)
        unfold step, handle, handleAutoLoop. rewrite Hsel.
        destruct (isProcessing s) eqn:Hbusy.
        { rewrite commit_fixed by congruence. exact Hinv. }
        rewrite runNextTurn_stopped by (cbn; congruence).
        unfold setTask. cbn [tasks setTasks setIsSimulationRunning].
        rewrite insert_app_r_alt, Nat.sub_diag by reflexivity.
        change (<[0:=Finished]> [Finished]) with [Finished].
        pose proof (Hidle eq_refl) as Hzero. unfold outstanding in Hzero.
        split_consistent.
        -- reflexivity.
        -- apply Forall_app. split; [assumption|]. now repeat constructor.
        -- rewrite count_snoc. cbn. lia.
        -- rewrite count_snoc. cbn. lia.
        -- intros _. eauto.
    + (* a Speak button *)
      destruct (String.eqb _ "manual") eqn:Hman; [|discriminate].
      apply String.eqb_eq in Hman.
      destruct (Environment.participants e !! i) as [persona|]; [|discriminate].
      injection Hb as <-.
      assert (isSimulationRunning s = false) as Hrun.
      { destruct (isSimulationRunning s); [|reflexivity].
        destruct (Hmode eq_refl) as (e' & He' & Hauto).
        assert (e' = e) as -> by congruence. rewrite Hman in Hauto. discriminate. }
      unfold step, handle, handleManualTurn.
      destruct (isProcessing s) eqn:Hbusy.
      { rewrite commit_fixed by exact Href. exact Hinv. }
      pose proof (Hidle eq_refl) as Hzero. unfold outstanding in Hzero.
      split_consistent.
      * reflexivity.
      * apply Forall_app. split; [assumption|]. now repeat constructor.
      * rewrite count_snoc. cbn. lia.
      * intros _. split; [reflexivity|assumption].
      * rewrite Hrun. discriminate.
    + (* typing *)
      destruct (showsInput e); [|discriminate]. injection Hb as <-.
      split_consistent; first [assumption | reflexivity | apply Hinv].
    + (* sending *)
      destruct (showsInput e); [|discriminate]. injection Hb as <-.
      unfold step, handle, handleUserMessage.
      destruct (blank (userMessage s)).
      * rewrite commit_fixed by exact Href. exact Hinv.
      * split_consistent; first [assumption | reflexivity | apply Hinv].
    + (* Back *)
      injection Hb as <-.
      split_consistent; try assumption; try reflexivity; try discriminate.
      intros H1. now destruct (Hflag H1).
  - destruct c as [environment clk| |i|text|clk| ]; try discriminate.
    injection Hb as <-.
    assert (isSimulationRunning s = false) as Hrun.
    { destruct (isSimulationRunning s); [|reflexivity].
      destruct (Hmode eq_refl) as (e' & He' & _). congruence. }
    unfold step, handle, startSimulation.
    destruct (truthy _); split_consistent; try assumption; try reflexivity;
      rewrite Hrun; discriminate.
Qed.

Lemma reachable_consistent s : reachable apiKeys s -> consistent s.
Proof.
  induction 1 as [|s c a _ IH Hb|s n o _ IH].
  - apply consistent_init.
  - eapply consistent_control; eassumption.
  - now apply consistent_resume.
Qed.

(** *** Once the flag is down

    With [isSimulationRunning] and the ref both down, whatever task the
    event loop resumes sends no request: a call in flight is left to
    return, a loop ends at its poll. *)
Lemma resume_stopped s n o :
  simulationRunningRef s = false ->
  isSimulationRunning s = false ->
  let s' := step apiKeys s (Resume n o) in
  simulationRunningRef s' = false
  /\ isSimulationRunning s' = false
  /\ network s' = network s
  /\ outstanding s' <= outstanding s
  /\ (outstanding s = 0 -> localChatHistory s' = localChatHistory s).
Proof.
  intros Href Hrun. unfold step, handle, resume, outstanding.
  destruct (tasks s !! n) as [t|] eqn:Ht.
  2:{ cbn. rewrite Hrun. repeat split; auto. }
  assert (forall t', length (filter (fun t => inFlight t = true) (<[n := t']> (tasks s)))
                       + (if inFlight t then 1 else 0)
                     = length (filter (fun t => inFlight t = true) (tasks s))
                       + (if inFlight t' then 1 else 0)) as Hc
    by (intros t'; now apply count_insert).
  destruct t as [persona seen|l i persona|l i|l|].
  - rewrite simulateAIResponse_returns. specialize (Hc Finished). cbn in Hc |- *.
    rewrite Hrun. repeat split; try lia.
  - rewrite simulateAIResponse_returns. specialize (Hc (LoopPacing l i)).
    cbn in Hc |- *. rewrite Hrun. repeat split; try lia.
  - rewrite Href, afterLoop_stopped by exact Href. specialize (Hc Finished).
    cbn in Hc |- *. repeat split; try lia.
  - rewrite runNextTurn_stopped by exact Href. specialize (Hc Finished).
    cbn in Hc |- *. rewrite Hrun. repeat split; try lia.
  - cbn. rewrite Hrun. repeat split; auto.
Qed.

Lemma resumes_stopped (events : list (nat * Outside)) : forall s,
  simulationRunningRef s = false ->
  isSimulationRunning s = false ->
  let s' := steps apiKeys s (map (fun e => Resume e.1 e.2) events) in
  isSimulationRunning s' = false
  /\ network s' = network s
  /\ outstanding s' <= outstanding s
  /\ (outstanding s = 0 -> localChatHistory s' = localChatHistory s).
Proof.
  induction events as [|[n o] events IH]; intros s Href Hrun.
  - cbn. repeat split; auto.
  - cbn [map fst snd]. rewrite steps_cons.
    destruct (resume_stopped s n o Href Hrun) as (Href1 & Hrun1 & Hn1 & Hc1 & Hh1).
    destruct (IH _ Href1 Hrun1) as (Hrun2 & Hn2 & Hc2 & Hh2).
    split; [exact Hrun2|]. split; [congruence|]. split; [lia|].
    intros Hz. rewrite Hh2 by lia. now apply Hh1.
Qed.

(** No loop and no call in flight: every task has come to its end. *)
Lemma idle_tasks (ts : list Task) :
  Forall noLoop ts ->
  length (filter (fun t => inFlight t = true) ts) = 0 ->
  Forall (eq Finished) ts.
Proof.
  induction 1 as [|t ts Ht _ IH]; [constructor|].
  rewrite filter_cons.
  destruct t; cbn in Ht; try contradiction; case_decide; cbn [length];
    try discriminate; try (exfalso; cbn in *; congruence).
  intros Hz. constructor; [reflexivity|]. now apply IH.
Qed.

End WithKeys.

End EngineFacts.

Module AdapterClaims.
Import JS Adapter AdapterFacts.

(** C9. When the key of the provider is not configured, [callOpenAI] and
    [callClaude] throw their "API key not configured" error at once: the
    list of requests sent is empty, whatever the provider would have
    replied. *)
Theorem missing_credential_fails_before_fetch
    (apiKeys : ApiKeys) (reply : Reply) (messages : list Message.t)
    (persona : Persona.t) :
  (openai apiKeys = "" ->
     callOpenAI apiKeys reply messages persona
     = ([], inl "OpenAI API key not configured"))
  /\ (claude apiKeys = "" ->
        callClaude apiKeys reply messages persona
        = ([], inl "Claude API key not configured")).
Proof.
  split; intros H; unfold callOpenAI, callClaude; now rewrite H.
Qed.

Lemma missing_credential_fails_before_fetch_witness :
  callOpenAI Sample.noKeys (Ok "never read") [] Sample.ada
  = ([], inl "OpenAI API key not configured")
  /\ callClaude Sample.noKeys (Ok "never read") [] Sample.ada
     = ([], inl "Claude API key not configured").
Proof.
  split.
  - exact (proj1 (missing_credential_fails_before_fetch
                    Sample.noKeys (Ok "never read") [] Sample.ada) eq_refl).
  - exact (proj2 (missing_credential_fails_before_fetch
                    Sample.noKeys (Ok "never read") [] Sample.ada) eq_refl).
Defined.

(** With a key, the adapter sends exactly one request and reports an error
    status as an exception that carries the message of the provider. *)
Lemma callOpenAI_error_status apiKeys messages persona upstream :
  openai apiKeys <> "" ->
  callOpenAI apiKeys (NotOk upstream) messages persona
  = ([openaiRequest apiKeys messages persona],
     inl ("OpenAI API Error: " +:+ upstreamMessage upstream)).
Proof.
  intros H. unfold callOpenAI, truthy.
  apply String.eqb_neq in H. now rewrite H.
Qed.

(** When [simulateAIResponse] goes through [callRealAI] for an OpenAI
    persona, the message is marked [isRealAI: true] whatever the adapter
    did: a failure of [callOpenAI] has been turned into a reply by the
    [catch] of [callRealAI] before [simulateAIResponse] sees it. *)
Lemma openai_turn_always_live apiKeys seen persona o :
  truthy (openai apiKeys) = true -> isOpenAI persona = true ->
  Message.isRealAI (newMessage apiKeys seen persona o) = Some true.
Proof.
  intros Hk Hp. unfold newMessage. unfold_adapter. rewrite Hk, Hp. cbn.
  destruct (reply o); reflexivity.
Qed.

Lemma claude_turn_always_live apiKeys seen persona o :
  truthy (claude apiKeys) = true -> isClaude persona = true ->
  Message.isRealAI (newMessage apiKeys seen persona o) = Some true.
Proof.
  intros Hk Hp. unfold newMessage. unfold_adapter. rewrite Hk, Hp.
  destruct (truthy (openai apiKeys) && isOpenAI persona) eqn:E; cbn.
  - apply andb_true_iff in E as [-> ->]. cbn. destruct (reply o); reflexivity.
  - destruct (isOpenAI persona); cbn.
    + destruct (truthy (openai apiKeys)); [discriminate|]. reflexivity.
    + destruct (reply o); reflexivity.
Qed.

(** C2, where the code departs from it. The key is configured, the persona
    is an OpenAI persona, and the provider answers with an error status:
    [callOpenAI] throws, no exception leaves [simulateAIResponse], exactly
    one message is appended by the turn, its text is the fallback of
    [callRealAI] - and its [isRealAI] flag is [true]. *)
Theorem failed_call_is_marked_live :
  let s0 := Engine.step Sample.keys Engine.init
              (Engine.StartSimulation (Sample.room "manual") Sample.noon) in
  let s := Engine.steps Sample.keys s0
              [Engine.Manual Sample.ada; Engine.Resume 0 Sample.refused] in
  outcome (callOpenAI Sample.keys (reply Sample.refused)
             (conversationContext (Engine.localChatHistory s0)) Sample.ada)
  = inl "OpenAI API Error: Incorrect API key provided"
  /\ (exists m,
        outcome (simulateAIResponse Sample.keys (Engine.localChatHistory s0)
                   Sample.ada Sample.refused) = inr m
        /\ Engine.localChatHistory s = Engine.localChatHistory s0 ++ [m]
        /\ Message.content m
           = "[Ada]: OpenAI API Error: Incorrect API key provided. Falling back to simulated response: Speaking from my perspective as Engineer, I'd like to challenge some assumptions here. We're looking at this from a narrow perspective, and I believe we need to expand our thinking beyond conventional solutions."
        /\ Message.isRealAI m = Some true).
Proof.
  split; [reflexivity|]. eexists. repeat split.
Qed.

(** The same when the request does not even reach the provider. *)
Example offline_call_is_marked_live :
  let m := newMessage Sample.keys [] Sample.ada Sample.offline in
  Message.content m
  = "[Ada]: Failed to fetch. Falling back to simulated response: I appreciate the different viewpoints being shared. From my analytical perspective, I see several patterns emerging that we should address. Let me break down what I'm observing and propose a path forward."
  /\ Message.isRealAI m = Some true.
Proof. split; reflexivity. Qed.

(** And a reply of the provider is passed on as it is, marked live. *)
Example answered_call_is_live :
  let m := newMessage Sample.keys [] Sample.ada Sample.answered in
  Message.content m = "Let us begin." /\ Message.isRealAI m = Some true.
Proof. split; reflexivity. Qed.

End AdapterClaims.

Module EngineClaims.
Import JS Adapter Engine AdapterFacts EngineFacts.

(** Resuming tasks when none is pending changes nothing. *)
Lemma idle_resumes apiKeys (events : list (nat * Outside)) : forall s,
  Forall (eq Finished) (tasks s) ->
  simulationRunningRef s = isSimulationRunning s ->
  steps apiKeys s (map (fun e => Resume e.1 e.2) events) = s.
Proof.
  induction events as [|[n o] events IH]; intros s Hidle Href; [reflexivity|].
  cbn [map]. rewrite steps_cons. unfold step, handle. cbn [fst snd].
  rewrite resume_idle, commit_fixed by assumption. now apply IH.
Qed.

(** C1, where the code departs from it. [handleAutoLoop] raises
    [isSimulationRunning] and calls [runNextTurn] at once; the ref still
    holds [false], because the effect that copies the state into it runs
    after the render that follows the handler. The first line of
    [runNextTurn] therefore returns. Whatever the environment and however
    long one waits, the transcript stays what [startSimulation] made it (at
    most the seed message): no agent message, no request, no call in
    flight, and [isSimulationRunning] left [true]. *)
Theorem auto_loop_appends_nothing (apiKeys : ApiKeys)
    (environment : Environment.t) (c : Clock) (events : list (nat * Outside)) :
  let ready := step apiKeys init (StartSimulation environment c) in
  let final := steps apiKeys ready
                 (AutoLoop :: map (fun e => Resume e.1 e.2) events) in
  localChatHistory final = localChatHistory ready
  /\ length (localChatHistory ready) <= 1
  /\ network final = []
  /\ outstanding final = 0
  /\ isSimulationRunning final = true.
Proof.
  intros ready final. subst final. rewrite steps_cons.
  assert (exists h, length h <= 1 /\
            ready = {| selectedEnvironment := Some environment; userMessage := "";
                       isProcessing := false; localChatHistory := h;
                       isSimulationRunning := false; simulationRunningRef := false;
                       tasks := []; network := [] |}) as (h & Hh & ->).
  { subst ready. unfold step, handle, startSimulation.
    destruct (truthy _); eexists; (split; [|reflexivity]); cbn; lia. }
  rewrite idle_resumes.
  - cbn. auto.
  - cbn. repeat constructor.
  - reflexivity.
Qed.

(** The failing run of C1 on the sample environment: two participants, so
    ten agent messages are due; none is appended. *)
Example auto_loop_on_sample_room :
  let ready := step Sample.keys init
                 (StartSimulation (Sample.room "auto-loop") Sample.noon) in
  let final := steps Sample.keys ready
                 [AutoLoop; Resume 0 Sample.answered; Resume 0 Sample.answered] in
  bound ready AutoRunButton = Some AutoLoop
  /\ map Message.type (localChatHistory final) = ["system"]
  /\ tasks final = [Finished]
  /\ bound final AutoRunButton = Some Stop.
Proof. repeat split. Qed.

(** More generally, in no state the view can reach is a loop under way. *)
Lemma view_never_runs_a_loop (apiKeys : ApiKeys) (s : State) :
  reachable apiKeys s -> Forall noLoop (tasks s).
Proof. now intros (_ & H & _)%reachable_consistent. Qed.

(** What [handleAutoLoop] is written to do, it does when the ref is up at
    the moment of the call: with [N] participants, the undisturbed run
    appends [N * maxRounds] agent messages, the participants speaking in
    their stored order, round after round, and then lowers
    [isSimulationRunning]. (The view never calls it in such a state: when
    it binds the handler to the button, the ref is down.) *)
Lemma auto_loop_with_flag_up (apiKeys : ApiKeys) (s : State)
    (environment : Environment.t) (o : Outside) (oss : list (list Outside)) :
  selectedEnvironment s = Some environment ->
  isProcessing s = false ->
  simulationRunningRef s = true ->
  length oss = maxRounds ->
  Forall (fun os => length os = length (Environment.participants environment)) oss ->
  let ps := Environment.participants environment in
  let final := steps apiKeys s (AutoLoop :: tail (rounds (length (tasks s)) o oss)) in
  let spoken := concat (map (zip_with (newMessage apiKeys (localChatHistory s)) ps) oss) in
  localChatHistory final = localChatHistory s ++ spoken
  /\ length spoken = length ps * maxRounds
  /\ map Message.persona spoken
     = concat (replicate maxRounds (map (fun p => Some (Persona.name p)) ps))
  /\ isSimulationRunning final = false.
Proof.
  intros Hsel Hidle Href Hlen Hall ps final spoken.
  set (n := length (tasks s)) in *.
  set (l := {| participants := ps; currentRound := 0; captured := localChatHistory s |}).
  assert (exists o' rest, rounds n o oss = Resume n o' :: rest) as (o' & rest & Hfirst).
  { destruct oss as [|[|o1 os] oss]; [discriminate| |]; cbn; eauto. }
  assert (final = steps apiKeys
                    (setTasks (tasks s ++ [LoopTimer l]) (setIsSimulationRunning true s))
                    (rounds n o oss)) as ->.
  { subst final. rewrite Hfirst. cbn [tail]. rewrite !steps_cons.
    now rewrite (handleAutoLoop_as_timer apiKeys s environment o' Hsel Hidle). }
  destruct (rounds_progress apiKeys n o oss
              (setTasks (tasks s ++ [LoopTimer l]) (setIsSimulationRunning true s)) l)
    as (Hh & _ & Hrun).
  - cbn [tasks setTasks]. subst n. now rewrite lookup_app_r, Nat.sub_diag.
  - exact Href.
  - reflexivity.
  - cbn [currentRound l]. lia.
  - intros ->. discriminate.
  - exact Hall.
  - split; [exact Hh|]. split; [|split; [|exact Hrun]].
    + subst spoken ps. clear -Hall Hlen. rewrite <- Hlen. clear Hlen.
      induction Hall as [|os oss Hos _ IH]; [cbn; lia|].
      cbn beta in Hos.
      cbn [map concat length]. rewrite length_app, IH, length_zip_with. nia.
    + subst spoken ps. clear -Hall Hlen. rewrite <- Hlen. clear Hlen.
      induction Hall as [|os oss Hos _ IH]; [reflexivity|].
      cbn [map concat length replicate]. rewrite map_app, IH. f_equal.
      clear -Hos. revert os Hos.
      induction (Environment.participants environment) as [|p ps IHp];
        intros [|o os] Hos; try discriminate; [reflexivity|].
      cbn. f_equal; [apply newMessage_author|]. apply IHp. now injection Hos.
Qed.

(** C7. Every action of the engine but two leaves the transcript as it is
    or appends one message at its end: what was appended stays, in its
    place and unchanged. The two are [startSimulation], after which the
    transcript is empty or holds the seed message alone, and the Back
    button, after which it is empty. *)
Theorem transcript_append_only (apiKeys : ApiKeys) (s : State) (a : Action) :
  let before := localChatHistory s in
  let after := localChatHistory (step apiKeys s a) in
  match a with
  | StartSimulation environment c =>
      after = []
      \/ exists seed, after = [seed]
                      /\ Message.type seed = "system"
                      /\ Message.content seed = Environment.startingPrompt environment
  | Back => after = []
  | AutoLoop | Manual _ | Typing _ | UserMessage _ | Stop | Resume _ _ =>
      after = before \/ exists m, after = before ++ [m]
  end.
Proof.
  destruct a as [environment c| |persona|text|c| | |n o]; cbn -[resume handleAutoLoop].
  - unfold startSimulation. destruct (truthy _); cbn; [right|left]; eauto.
  - left. apply handleAutoLoop_history.
  - left. unfold handleManualTurn. now destruct (isProcessing s).
  - now left.
  - unfold handleUserMessage. destruct (blank _); cbn; [left|right]; eauto.
  - now left.
  - reflexivity.
  - apply resume_history.
Qed.

(** The loop as it is written, in whatever state it waits for the timer
    of its next round with the flag up: [k] turns of the round run
    undisturbed, then [stopSimulation] is called, then the event loop
    resumes the loop any number of times. *)
Lemma loop_cancelled_between_turns (apiKeys : ApiKeys) (s : State) (n : nat)
    (l : Loop) (os rest : list Outside) :
  tasks s !! n = Some (LoopTimer l) ->
  simulationRunningRef s = true ->
  isSimulationRunning s = true ->
  (currentRound l < maxRounds)%nat ->
  length os <= length (participants l) ->
  let spoken := zip_with (newMessage apiKeys (captured l)) (participants l) os in
  let cancelled := steps apiKeys s (turns n os ++ [Stop]) in
  let final := steps apiKeys cancelled (map (Resume n) rest) in
  localChatHistory final = localChatHistory s ++ spoken
  /\ map Message.persona spoken
     = map (fun p => Some (Persona.name p)) (take (length os) (participants l))
  /\ network final = network cancelled
  /\ isSimulationRunning final = false
  /\ inFlight <$> tasks final !! n = Some false
  /\ (rest <> [] -> tasks final !! n = Some Finished).
Proof.
  intros Ht Href Hrun Hround Hlen spoken cancelled final.
  destruct (turns_progress apiKeys os s n l 0 Ht Href Hrun Hround Hlen)
    as (Ht1 & Href1 & Hrun1 & Hh1).
  cbn [plus] in Ht1. rewrite drop_0 in Hh1.
  assert (tasks cancelled !! n = Some (waiting l (length os))
          /\ simulationRunningRef cancelled = false
          /\ isSimulationRunning cancelled = false
          /\ localChatHistory cancelled = localChatHistory s ++ spoken)
    as (Ht2 & Href2 & Hrun2 & Hh2).
  { subst cancelled. rewrite steps_app. cbn. auto. }
  destruct (stopped_loop_is_inert apiKeys rest cancelled n l (length os)
              (or_introl Ht2) Href2 Hrun2) as (Hh3 & Hn3 & Hrun3 & Ht3 & Hfin).
  fold final in Hh3, Hn3, Hrun3, Ht3, Hfin.
  split; [now rewrite Hh3, Hh2|].
  split.
  { subst spoken. clear -Hlen. revert Hlen. generalize (participants l) as ps.
    induction os as [|o os IH]; intros ps Hlen.
    - now rewrite zip_with_nil_r.
    - destruct ps as [|p ps]; cbn in Hlen; [lia|]. cbn.
      f_equal; [apply newMessage_author|]. apply IH. lia. }
  split; [exact Hn3|]. split; [exact Hrun3|].
  split; [|exact Hfin].
  destruct Ht3 as [-> | ->]; [|reflexivity]. now destruct (length os).
Qed.

(** The run the view offers: Auto-Run is pressed where the view binds it
    to [handleAutoLoop], the event loop resumes what it will, Stop is
    pressed, the event loop resumes what it will. No turn is ever started,
    so the cancellation falls before the first turn of the first round. *)
Lemma auto_run_then_stop (apiKeys : ApiKeys) (s : State)
    (before rest : list (nat * Outside)) :
  reachable apiKeys s ->
  bound s AutoRunButton = Some AutoLoop ->
  isProcessing s = false ->
  let started := steps apiKeys s (AutoLoop :: map (fun e => Resume e.1 e.2) before) in
  let final := steps apiKeys started (Stop :: map (fun e => Resume e.1 e.2) rest) in
  bound started AutoRunButton = Some Stop
  /\ localChatHistory final = localChatHistory s
  /\ network final = network s
  /\ isSimulationRunning final = false
  /\ outstanding final = 0.
Proof.
  intros (Href & Hloop & Hone & Hflag & _)%reachable_consistent Hb Hidle started final.
  assert (outstanding s = 0) as Hzero.
  { destruct (decide (outstanding s = 1)) as [H1|H1]; [|lia].
    destruct (Hflag H1). congruence. }
  pose proof (idle_tasks (tasks s) Hloop Hzero) as Hfin.
  unfold bound in Hb.
  destruct (selectedEnvironment s) as [e|] eqn:Hsel; [|discriminate].
  destruct (String.eqb _ "auto-loop") eqn:Hauto; [|discriminate].
  destruct (isSimulationRunning s) eqn:Hrun; [discriminate|]. clear Hb.
  set (s1 := commit (setTasks (tasks s ++ [Finished]) (setIsSimulationRunning true s))).
  assert (step apiKeys s AutoLoop = s1) as H1.
  { unfold step, handle, handleAutoLoop. rewrite Hsel, Hidle.
    rewrite runNextTurn_stopped by (cbn; congruence).
    unfold setTask. cbn [tasks setTasks setIsSimulationRunning].
    now rewrite insert_last. }
  assert (started = s1) as ->.
  { subst started. rewrite steps_cons, H1. apply idle_resumes; [|reflexivity].
    cbn. apply Forall_app. split; [exact Hfin|]. now repeat constructor. }
  set (s2 := step apiKeys s1 Stop).
  assert (final = s2) as ->.
  { subst final. rewrite steps_cons. fold s2. apply idle_resumes; [|reflexivity].
    cbn. apply Forall_app. split; [exact Hfin|]. now repeat constructor. }
  split.
  { unfold bound. cbn. now rewrite Hsel, Hauto. }
  split; [reflexivity|]. split; [reflexivity|]. split; [reflexivity|].
  unfold outstanding. cbn [s2 s1 step handle stopSimulation commit tasks setTasks
    setIsProcessing setIsSimulationRunning].
  rewrite count_snoc. cbn. fold (outstanding s). lia.
Qed.

(** C3. Cancelling an auto-loop between two turns leaves in the transcript
    the messages of the turns that were completed and nothing more, and no
    request is sent afterwards.

    - On every run the component can perform (Auto-Run pressed where the
      view offers it, Stop pressed afterwards, the event loop resuming
      what it will in between and after), no turn is ever completed: the
      transcript and the requests sent are those of the moment Auto-Run
      was pressed, and the flag is down.
    - Once [stopSimulation] has been called, in any state whatsoever, the
      resumption of timers and replies sends no request and leaves the
      flag down; if no call was in flight, the transcript stays as it was.
    - The loop as it is written: if it waits for the timer of a round with
      the flag up, [k] turns run undisturbed and [stopSimulation] is then
      called, the transcript holds, after what it held before the round,
      the messages of the first [k] participants in their order and
      nothing more, and the loop has come to its end at the first poll.
    - The three polls: at the head of [runNextTurn], before a turn, and
      after the pacing delay of a turn. *)
Theorem cancel_between_turns (apiKeys : ApiKeys) :
  (forall (s : State) (before rest : list (nat * Outside)),
      reachable apiKeys s ->
      bound s AutoRunButton = Some AutoLoop ->
      isProcessing s = false ->
      let started :=
        steps apiKeys s (AutoLoop :: map (fun e => Resume e.1 e.2) before) in
      let final :=
        steps apiKeys started (Stop :: map (fun e => Resume e.1 e.2) rest) in
      bound started AutoRunButton = Some Stop
      /\ localChatHistory final = localChatHistory s
      /\ network final = network s
      /\ isSimulationRunning final = false
      /\ outstanding final = 0)
  /\ (forall (s : State) (rest : list (nat * Outside)),
        let final := steps apiKeys s (Stop :: map (fun e => Resume e.1 e.2) rest) in
        network final = network s
        /\ isSimulationRunning final = false
        /\ outstanding final <= outstanding s
        /\ (outstanding s = 0 -> localChatHistory final = localChatHistory s))
  /\ (forall (s : State) (n : nat) (l : Loop) (os rest : list Outside),
        tasks s !! n = Some (LoopTimer l) ->
        simulationRunningRef s = true ->
        isSimulationRunning s = true ->
        (currentRound l < maxRounds)%nat ->
        length os <= length (participants l) ->
        let spoken := zip_with (newMessage apiKeys (captured l)) (participants l) os in
        let cancelled := steps apiKeys s (turns n os ++ [Stop]) in
        let final := steps apiKeys cancelled (map (Resume n) rest) in
        localChatHistory final = localChatHistory s ++ spoken
        /\ map Message.persona spoken
           = map (fun p => Some (Persona.name p)) (take (length os) (participants l))
        /\ network final = network cancelled
        /\ isSimulationRunning final = false
        /\ inFlight <$> tasks final !! n = Some false
        /\ (rest <> [] -> tasks final !! n = Some Finished))
  /\ (forall s n l, simulationRunningRef s = false ->
        runNextTurn apiKeys n l s = setTask n Finished s)
  /\ (forall s n l i, simulationRunningRef s = false ->
        forLoop apiKeys n l i s
        = setTask n Finished (setIsSimulationRunning false s))
  /\ (forall s n l i o, simulationRunningRef s = false ->
        tasks s !! n = Some (LoopPacing l i) ->
        resume apiKeys n o s
        = setTask n Finished (setIsSimulationRunning false s)).
Proof.
  split; [intros; now apply auto_run_then_stop|].
  split.
  { intros s rest final. subst final. rewrite steps_cons.
    destruct (resumes_stopped apiKeys rest (step apiKeys s Stop) eq_refl eq_refl)
      as (Hrun & Hn & Hc & Hh).
    split; [exact Hn|]. split; [exact Hrun|]. split; [exact Hc|].
    intros Hz. now apply Hh. }
  split; [intros; now apply loop_cancelled_between_turns|].
  split; [intros; now apply runNextTurn_stopped|].
  split; [intros; now apply forLoop_stopped|].
  intros s n l i o Href Ht. unfold resume.
  rewrite Ht, Href. now apply afterLoop_stopped.
Qed.

Lemma auto_loop_room_reachable :
  reachable Sample.keys
    (step Sample.keys init (StartSimulation (Sample.room "auto-loop") Sample.noon)).
Proof.
  apply (reachable_control Sample.keys init
           (StartButton (Sample.room "auto-loop") Sample.noon)
           (StartSimulation (Sample.room "auto-loop") Sample.noon));
    [apply reachable_init | reflexivity].
Qed.

Lemma cancel_between_turns_witness :
  let s := step Sample.keys init
             (StartSimulation (Sample.room "auto-loop") Sample.noon) in
  let started := steps Sample.keys s [AutoLoop; Resume 0 Sample.answered] in
  let final := steps Sample.keys started [Stop; Resume 0 Sample.answered] in
  bound s AutoRunButton = Some AutoLoop
  /\ bound started AutoRunButton = Some Stop
  /\ localChatHistory final = localChatHistory s
  /\ network final = network s
  /\ isSimulationRunning final = false.
Proof.
  intros s started final.
  destruct (proj1 (cancel_between_turns Sample.keys) s
              [(0, Sample.answered)] [(0, Sample.answered)]
              auto_loop_room_reachable eq_refl eq_refl)
    as (Hb & Hh & Hn & Hrun & _).
  split; [reflexivity|]. split; [exact Hb|]. split; [exact Hh|].
  split; [exact Hn|exact Hrun].
Defined.

(** The loop of the third part at work, in a state made by calling the
    handlers directly: the second round has begun, Ada has spoken,
    [stopSimulation] is called; Bob is never asked. *)
Example loop_stopped_after_one_turn :
  let cancelled := steps Sample.keys Sample.betweenRounds
                     (turns 1 [Sample.refused] ++ [Stop]) in
  let final := steps Sample.keys cancelled
                 (map (Resume 1) [Sample.answered; Sample.answered]) in
  tasks Sample.betweenRounds !! 1 = Some (LoopTimer Sample.secondRound)
  /\ localChatHistory final
     = localChatHistory Sample.betweenRounds
       ++ [newMessage Sample.keys (captured Sample.secondRound) Sample.ada Sample.refused]
  /\ network final = network cancelled
  /\ tasks final !! 1 = Some Finished.
Proof. vm_compute. repeat split. Qed.

(** The same in the first round, which [handleAutoLoop] starts itself
    (called with the ref up) instead of a timer. *)
Lemma cancel_in_first_round (apiKeys : ApiKeys) (s : State)
    (environment : Environment.t) (o : Outside) (os rest : list Outside) :
  selectedEnvironment s = Some environment ->
  isProcessing s = false ->
  simulationRunningRef s = true ->
  S (length os) <= length (Environment.participants environment) ->
  let n := length (tasks s) in
  let cancelled := steps apiKeys s
                     (AutoLoop :: tail (turns n (o :: os)) ++ [Stop]) in
  let final := steps apiKeys cancelled (map (Resume n) rest) in
  localChatHistory final
  = localChatHistory s
    ++ zip_with (newMessage apiKeys (localChatHistory s))
         (Environment.participants environment) (o :: os)
  /\ network final = network cancelled
  /\ isSimulationRunning final = false
  /\ inFlight <$> tasks final !! n = Some false.
Proof.
  intros Hsel Hidle Href Hlen n cancelled final.
  set (l := {| participants := Environment.participants environment;
               currentRound := 0; captured := localChatHistory s |}).
  set (s0 := setTasks (tasks s ++ [LoopTimer l]) (setIsSimulationRunning true s)).
  assert (cancelled = steps apiKeys s0 (turns n (o :: os) ++ [Stop])) as Hc.
  { subst cancelled. cbn [turns flat_map app tail]. rewrite !steps_cons.
    now rewrite (handleAutoLoop_as_timer apiKeys s environment o Hsel Hidle). }
  assert (tasks s0 !! n = Some (LoopTimer l)) as Ht0.
  { subst s0 n. cbn [tasks setTasks]. now rewrite lookup_app_r, Nat.sub_diag. }
  destruct (turns_progress apiKeys (o :: os) s0 n l 0 Ht0 Href eq_refl
              ltac:(unfold l, maxRounds; cbn; lia)
              ltac:(cbn [length plus]; exact Hlen))
    as (Ht1 & Href1 & Hrun1 & Hh1).
  cbn [plus] in Ht1. rewrite drop_0 in Hh1.
  assert (tasks cancelled !! n = Some (waiting l (length (o :: os)))
          /\ simulationRunningRef cancelled = false
          /\ isSimulationRunning cancelled = false
          /\ localChatHistory cancelled
             = localChatHistory s
               ++ zip_with (newMessage apiKeys (localChatHistory s))
                    (Environment.participants environment) (o :: os))
    as (Ht2 & Href2 & Hrun2 & Hh2).
  { rewrite Hc, steps_app. cbn [steps fold_left step handle].
    repeat split; assumption. }
  destruct (stopped_loop_is_inert apiKeys rest cancelled n l (length (o :: os))
              (or_introl Ht2) Href2 Hrun2) as (Hh3 & Hn3 & Hrun3 & Ht3 & _).
  fold final in Hh3, Hn3, Hrun3, Ht3.
  split; [now rewrite Hh3, Hh2|]. split; [exact Hn3|]. split; [exact Hrun3|].
  destruct Ht3 as [-> | ->]; reflexivity.
Qed.

(** If [stopSimulation] is called while the reply of a turn is awaited,
    the call is left to complete: its message is appended, and the loop
    ends at the poll that follows. *)
Lemma stop_during_turn (apiKeys : ApiKeys) (s : State) (n : nat)
    (l : Loop) (i : nat) (persona : Persona.t) (o : Outside) (rest : list Outside) :
  tasks s !! n = Some (LoopTurn l i persona) ->
  let final := steps apiKeys s (Stop :: Resume n o :: map (Resume n) rest) in
  localChatHistory final
  = localChatHistory s ++ [newMessage apiKeys (captured l) persona o]
  /\ network final = network s
  /\ inFlight <$> tasks final !! n = Some false.
Proof.
  intros Ht final. subst final. rewrite !steps_cons.
  set (s1 := step apiKeys s Stop).
  assert (tasks s1 !! n = Some (LoopTurn l i persona)) as Ht1 by exact Ht.
  destruct (reply_ends_turn apiKeys s1 n l i persona o Ht1)
    as (Ht2 & Href2 & Hrun2 & Hh2 & Hn2).
  destruct (stopped_loop_is_inert apiKeys rest _ n l (S i)
              (or_introl Ht2) Href2 Hrun2) as (Hh3 & Hn3 & _ & Ht3 & _).
  rewrite Hh3, Hn3, Hh2, Hn2. repeat split.
  destruct Ht3 as [-> | ->]; reflexivity.
Qed.

(** C6. A call of [handleManualTurn] while [isProcessing] is set changes
    nothing: not the transcript, not the list of pending calls, not the
    requests sent. And in every state the view can reach at most one call
    of [simulateAIResponse] has not returned; whenever there is one,
    [isProcessing] is set. *)
Theorem manual_turn_mutual_exclusion (apiKeys : ApiKeys) :
  (forall s persona,
      isProcessing s = true -> handleManualTurn apiKeys persona s = s)
  /\ (forall s,
        reachable apiKeys s ->
        outstanding s <= 1 /\ (outstanding s = 1 -> isProcessing s = true)).
Proof.
  split.
  - intros s persona H. unfold handleManualTurn. now rewrite H.
  - intros s (_ & _ & Hone & Hflag & _)%reachable_consistent.
    split; [exact Hone|]. intros H. now destruct (Hflag H).
Qed.

Lemma adaSpeaking_reachable : reachable Sample.keys Sample.adaSpeaking.
Proof.
  apply (reachable_control Sample.keys Sample.ready (SpeakButton 0) (Manual Sample.ada));
    [|reflexivity].
  apply (reachable_control Sample.keys init
           (StartButton (Sample.room "manual") Sample.noon)
           (StartSimulation (Sample.room "manual") Sample.noon));
    [apply reachable_init | reflexivity].
Qed.

Lemma manual_turn_mutual_exclusion_witness :
  isProcessing Sample.adaSpeaking = true
  /\ handleManualTurn Sample.keys Sample.bob Sample.adaSpeaking = Sample.adaSpeaking
  /\ outstanding Sample.adaSpeaking <= 1.
Proof.
  split; [reflexivity|]. split.
  - exact (proj1 (manual_turn_mutual_exclusion Sample.keys)
             Sample.adaSpeaking Sample.bob eq_refl).
  - exact (proj1 (proj2 (manual_turn_mutual_exclusion Sample.keys)
                    Sample.adaSpeaking adaSpeaking_reachable)).
Defined.

(** The budget a turn asks for does not depend on the environment: the
    request is built from the keys, the transcript the closure captured,
    and the persona. For a persona of the authoring form (no [wordLimit])
    it is 200. *)
Lemma turn_budget_is_200 apiKeys seen persona :
  Persona.wordLimit persona = None ->
  Forall (fun r => max_tokens_of r = 200%Z) (outgoing apiKeys seen persona).
Proof.
  intros H. unfold outgoing.
  destruct (_ && isOpenAI _); [|destruct (_ && isClaude _)];
    repeat constructor; cbn; now apply maxTokens_unset.
Qed.

(** C4, where the code departs from it. The environment limits responses
    to 300 words; the request of a turn in it asks for 200 tokens, the
    default, because the adapters read [persona.wordLimit], which a persona
    does not have. *)
Theorem word_limit_of_environment_ignored :
  let environment := Sample.room "manual" in
  let s := steps Sample.keys init
             [StartSimulation environment Sample.noon; Manual Sample.ada] in
  Environment.wordLimit environment = 300%Z
  /\ Persona.wordLimit Sample.ada = None
  /\ map url (network s) = ["https://api.openai.com/v1/chat/completions"]
  /\ map max_tokens_of (network s) = [200%Z].
Proof. repeat split. Qed.

(** C10, as it holds. A persona whose model selector is neither of the two
    the adapters know is never sent to a provider: [simulateAIResponse]
    sends no request and returns a message whose [persona] and [llm] fields
    are those of the persona, whose [isRealAI] flag is [false], and whose
    text is the template of [getSimulatedResponse] that the random draw
    picks; so does a manual turn of the engine, and [callRealAI] itself
    would return the template without a request. Of the five templates the
    first holds the name and the role of the persona and the second its
    role; the other three are the same text for every persona. *)
Theorem other_selector_is_simulated (apiKeys : ApiKeys) (persona : Persona.t)
    (o : Outside) (s : State) :
  Persona.llm persona <> "ChatGPT (OpenAI)" ->
  Persona.llm persona <> "Claude (Anthropic)" ->
  isProcessing s = false ->
  let m := agentMessage persona (clock o)
             (getSimulatedResponse persona (random o)) false in
  let s' := steps apiKeys s [Manual persona; Resume (length (tasks s)) o] in
  (forall seen, simulateAIResponse apiKeys seen persona o = ([], inr m))
  /\ (forall seen, outgoing apiKeys seen persona = [])
  /\ (forall reply random history,
        callRealAI apiKeys reply random persona history
        = ([], inr (getSimulatedResponse persona random)))
  /\ localChatHistory s' = localChatHistory s ++ [m]
  /\ network s' = network s
  /\ Message.persona m = Some (Persona.name persona)
  /\ Message.llm m = Some (Persona.llm persona)
  /\ Message.content m ∈ responses persona
  /\ Message.isRealAI m = Some false
  /\ ((random o mod 5 = 0)%nat ->
        includes (Message.content m) (Persona.name persona)
        /\ includes (Message.content m) (Persona.role persona))
  /\ ((random o mod 5 = 1)%nat ->
        includes (Message.content m) (Persona.role persona))
  /\ ((2 <= random o mod 5)%nat ->
        forall other, getSimulatedResponse other (random o) = Message.content m).
Proof.
  intros H1%isOpenAI_false H2%isClaude_false Hidle m s'.
  assert (forall seen, simulateAIResponse apiKeys seen persona o = ([], inr m)) as Hsim.
  { intros seen. unfold_adapter. rewrite H1, H2, !andb_false_r. reflexivity. }
  assert (forall seen, outgoing apiKeys seen persona = []) as Hout.
  { intros seen. unfold outgoing. now rewrite H1, H2, !andb_false_r. }
  split; [exact Hsim|]. split; [exact Hout|].
  split.
  { intros. unfold_adapter. now rewrite H1, H2. }
  destruct (manual_turn apiKeys s persona o Hidle) as (Hh & Hn & _).
  fold s' in Hh, Hn.
  assert (newMessage apiKeys (localChatHistory s) persona o = m) as Hm
    by (unfold newMessage; now rewrite Hsim).
  rewrite Hm in Hh. rewrite Hout, app_nil_r in Hn.
  split; [exact Hh|]. split; [exact Hn|]. split; [reflexivity|].
  split; [reflexivity|]. split; [apply getSimulatedResponse_in|].
  split; [reflexivity|].
  cbn [m agentMessage Message.content]. unfold getSimulatedResponse.
  assert (random o mod 5 < 5)%nat as Hlt by (apply Nat.mod_upper_bound; lia).
  destruct (random o mod 5)%nat as [|[|[|[|[|k]]]]]; [| | | | |lia];
    cbn [responses lookup list_lookup default];
    (split; [|split]); intros Hd; try discriminate; try lia; try reflexivity.
  - split.
    + apply includes_app_r, includes_app_l, includes_refl.
    + apply includes_app_r, includes_app_r, includes_app_r, includes_app_l,
        includes_refl.
  - apply includes_app_r, includes_app_l, includes_refl.
Qed.

Lemma other_selector_is_simulated_witness :
  let s' := steps Sample.keys Sample.ready [Manual Sample.bob; Resume 0 Sample.answered] in
  Persona.llm Sample.bob = "Gemini (Google)"
  /\ network s' = []
  /\ map Message.isRealAI (localChatHistory s') = [None; Some false]
  /\ includes (getSimulatedResponse Sample.bob 0) "Bob".
Proof.
  pose proof (other_selector_is_simulated Sample.keys Sample.bob Sample.answered
                Sample.ready ltac:(discriminate) ltac:(discriminate) eq_refl)
    as (_ & _ & _ & Hh & Hn & _ & _ & _ & _ & Hfirst & _).
  split; [reflexivity|]. split; [exact Hn|].
  split; [|exact (proj1 (Hfirst eq_refl))].
  cbv zeta. change (length (tasks Sample.ready)) with 0 in Hh.
  rewrite Hh. reflexivity.
Defined.

(** C10, where the claim says more than the code does: the text of the
    filler need not refer to the persona. Bob, whose model is
    [Gemini (Google)], takes a manual turn and the draw picks the third
    template. No request is sent and the message is marked as simulated,
    but its text holds neither his name nor his role: it is the text Ada
    would have been given. *)
Lemma filler_need_not_mention_persona :
  let s' := steps Sample.keys Sample.ready [Manual Sample.bob; Resume 0 Sample.offline] in
  let text := "I appreciate the different viewpoints being shared. From my analytical perspective, I see several patterns emerging that we should address. Let me break down what I'm observing and propose a path forward." in
  Persona.llm Sample.bob = "Gemini (Google)"
  /\ random Sample.offline = 2%nat
  /\ network s' = []
  /\ map Message.content (localChatHistory s') = ["Discuss the launch."; text]
  /\ map Message.persona (localChatHistory s') = [None; Some "Bob"]
  /\ map Message.isRealAI (localChatHistory s') = [None; Some false]
  /\ ~ includes text (Persona.name Sample.bob)
  /\ ~ includes text (Persona.role Sample.bob)
  /\ getSimulatedResponse Sample.ada 2 = text.
Proof.
  cbv zeta. repeat split; intros H%includes_includesb; vm_compute in H; discriminate.
Qed.

End EngineClaims.

(** ** JSON *)

Module JsonFacts.
Import JS Json.

Lemma skip_spaces (k : nat) (s : string) : skip (spaces k +:+ s) = skip s.
Proof. induction k as [|k IH]; [reflexivity|]. exact IH. Qed.

Lemma skip_nl (s : string) : skip (nl +:+ s) = skip s.
Proof. reflexivity. Qed.

Lemma readChars_escapeChar (c : ascii) (tail : string) :
  readChars (escapeChar c +:+ tail) = consChar c (readChars tail).
Proof.
  destruct c as [[] [] [] [] [] [] [] []]; reflexivity.
Qed.

Lemma readChars_escape (s rest : string) :
  readChars (escape s +:+ String quoteChar rest) = Some (s, rest).
Proof.
  induction s as [|c s IH]; [reflexivity|].
  cbn [escape]. rewrite string_app_assoc, readChars_escapeChar, IH. reflexivity.
Qed.

Lemma readDigits_write (u : Decimal.uint) (rest : string) :
  noDigit rest ->
  readDigits (NilEmpty.string_of_uint u +:+ rest) = (u, rest).
Proof.
  intros H. induction u; cbn [NilEmpty.string_of_uint];
    [| simpl; rewrite IHu; reflexivity ..].
  destruct rest as [|c r]; [reflexivity|]. cbn in *. now rewrite H.
Qed.

Lemma readNumber_write (n : Z) (rest : string) :
  noDigit rest -> readNumber (writeNumber n +:+ rest) = Some (n, rest).
Proof.
  intros H. unfold writeNumber.
  pose proof (DecimalZ.of_to n) as Hn.
  destruct (Z.to_int n) as [u|u] eqn:E.
  - assert (u <> Decimal.Nil) as Hu.
    { destruct n; unfold Z.to_int in E; [| |discriminate]; injection E as <-;
        [discriminate | apply Unsigned.to_uint_nonnil]. }
    destruct u; try congruence; simpl; rewrite readDigits_write by exact H;
      rewrite <- Hn; reflexivity.
  - assert (u <> Decimal.Nil) as Hu.
    { destruct n; unfold Z.to_int in E; try discriminate. injection E as <-.
      apply Unsigned.to_uint_nonnil. }
    simpl. rewrite readDigits_write by exact H.
    destruct u; try congruence; rewrite <- Hn; reflexivity.
Qed.

Lemma writeNumber_opens n rest : opens (writeNumber n +:+ rest).
Proof.
  unfold writeNumber. destruct (Z.to_int n) as [u|u] eqn:E.
  - assert (u <> Decimal.Nil) as Hu.
    { destruct n; unfold Z.to_int in E; [| |discriminate]; injection E as <-;
        [discriminate | apply Unsigned.to_uint_nonnil]. }
    destruct u; try congruence; cbn; auto.
  - cbn. auto.
Qed.

Lemma write_opens d v rest : opens (write d v +:+ rest).
Proof.
  destruct v as [|[]|n|s|[|x items]|[|kv members]]; try (cbn; now auto).
  apply writeNumber_opens.
Qed.

Lemma skip_opens s : opens s -> skip s = s.
Proof. destruct s as [|c r]; [contradiction|]. cbn. now intros [-> _]. Qed.

Lemma readValue_skip fuel s1 s2 :
  skip s1 = skip s2 -> readValue fuel s1 = readValue fuel s2.
Proof. intros H. destruct fuel; [reflexivity|]. cbn [readValue]. now rewrite H. Qed.

Lemma skip_cons (c : ascii) (r : string) :
  isWhite c = false -> skip (String c r) = String c r.
Proof. intros H. cbn [skip]. now rewrite H. Qed.

Lemma lines_one (indent x : string) : lines indent [x] = nl +:+ indent +:+ x.
Proof. reflexivity. Qed.

Lemma lines_more (indent x y : string) (r : list string) :
  lines indent (x :: y :: r)
  = nl +:+ indent +:+ x +:+ String "," (lines indent (y :: r)).
Proof. reflexivity. Qed.

Lemma readItems_more fuel s v r :
  readValue fuel s = Some (v, String "," r) ->
  readItems (S fuel) s
  = match readItems fuel r with
    | Some (items, rest) => Some (v :: items, rest)
    | None => None
    end.
Proof.
  intros H. cbn [readItems]. rewrite H. cbn [mbind option_bind].
  rewrite skip_cons by reflexivity.
  change (Ascii.eqb "," ",") with true. cbn match.
  destruct (readItems fuel r) as [[items rest]|]; reflexivity.
Qed.

Lemma readItems_last fuel s v j r :
  readValue fuel s = Some (v, nl +:+ spaces j +:+ String "]" r) ->
  readItems (S fuel) s = Some ([v], r).
Proof.
  intros H. cbn [readItems]. rewrite H. cbn [mbind option_bind].
  rewrite skip_nl, skip_spaces, skip_cons by reflexivity. reflexivity.
Qed.

Lemma readItems_lines (k j : nat) (d : nat) (items : list value) :
  items <> [] ->
  Forall reads items ->
  forall fuel tail,
    foldr (fun x n => S (weight x + n)) 0 items <= fuel ->
    readItems fuel
      (lines (spaces k) (map (write d) items)
         +:+ nl +:+ spaces j +:+ String "]" tail)
    = Some (items, tail).
Proof.
  induction items as [|x items IH]; [congruence|].
  intros _ Hall fuel tail Hfuel.
  apply Forall_cons in Hall as [Hx Hall].
  cbn [foldr] in Hfuel.
  destruct fuel as [|fuel]; [lia|].
  destruct items as [|y items].
  - cbn [map]. rewrite lines_one, !string_app_assoc.
    apply (readItems_last _ _ x j).
    erewrite readValue_skip; [|rewrite skip_nl, skip_spaces; reflexivity].
    apply Hx; [lia|reflexivity].
  - cbn [map]. rewrite lines_more, !string_app_assoc.
    change (String "," ?a +:+ ?b) with (String "," (a +:+ b)).
    erewrite readItems_more.
    2:{ erewrite readValue_skip; [|rewrite skip_nl, skip_spaces; reflexivity].
        apply Hx; [lia|reflexivity]. }
    specialize (IH ltac:(discriminate) Hall fuel tail ltac:(cbn [foldr] in *; lia)).
    cbn [map] in IH. rewrite IH. reflexivity.
Qed.

(** A member: its key, a colon, its value. *)
Lemma readMembers_head fuel k key text :
  readMembers (S fuel) (nl +:+ spaces k +:+ quote key +:+ ": " +:+ text)
  = match readValue fuel text with
    | Some (v, rest) =>
        match skip rest with
        | String c r =>
            if Ascii.eqb c "," then
              match readMembers fuel r with
              | Some (members, rest') => Some ((key, v) :: members, rest')
              | None => None
              end
            else if Ascii.eqb c "}" then Some ([(key, v)], r)
            else None
        | EmptyString => None
        end
    | None => None
    end.
Proof.
  cbn [readMembers]. rewrite skip_nl, skip_spaces.
  unfold quote.
  change (String quoteChar (escape key +:+ String quoteChar "") +:+ ": " +:+ text)
    with (String quoteChar ((escape key +:+ String quoteChar "") +:+ ": " +:+ text)).
  rewrite skip_cons by reflexivity.
  change (Ascii.eqb quoteChar quoteChar) with true. cbn match.
  rewrite string_app_assoc.
  change (String quoteChar "" +:+ ": " +:+ text)
    with (String quoteChar (String ":" (String " " text))).
  rewrite readChars_escape. cbn [mbind option_bind].
  rewrite skip_cons by reflexivity.
  change (Ascii.eqb ":" ":") with true. cbn match.
  rewrite (readValue_skip fuel (String " " text) text) by reflexivity.
  destruct (readValue fuel text) as [[v rest]|]; [|reflexivity].
  cbn [mbind option_bind].
  destruct (skip rest) as [|c r]; [reflexivity|].
  destruct (Ascii.eqb c ","); [|reflexivity].
  destruct (readMembers fuel r) as [[members rest']|]; reflexivity.
Qed.

Lemma readMembers_lines (k j : nat) (d : nat) (members : list (string * value)) :
  members <> [] ->
  Forall (fun kv => reads (snd kv)) members ->
  forall fuel tail,
    foldr (fun kv n => S (weight (snd kv) + n)) 0 members <= fuel ->
    readMembers fuel
      (lines (spaces k)
         (map (fun kv => quote (fst kv) +:+ ": " +:+ write d (snd kv)) members)
         +:+ nl +:+ spaces j +:+ String "}" tail)
    = Some (members, tail).
Proof.
  induction members as [|[key v] members IH]; [congruence|].
  intros _ Hall fuel tail Hfuel.
  apply Forall_cons in Hall as [Hv Hall]. cbn [snd fst] in Hv.
  cbn [foldr snd] in Hfuel.
  destruct fuel as [|fuel]; [lia|].
  destruct members as [|kv members].
  - cbn [map fst snd]. rewrite lines_one, !string_app_assoc.
    rewrite readMembers_head, Hv by (try lia; reflexivity).
    rewrite skip_nl, skip_spaces, skip_cons by reflexivity. reflexivity.
  - cbn [map fst snd]. rewrite lines_more, !string_app_assoc.
    change (String "," ?a +:+ ?b) with (String "," (a +:+ b)).
    rewrite readMembers_head, Hv by (try lia; reflexivity).
    rewrite skip_cons by reflexivity.
    change (Ascii.eqb "," ",") with true. cbn match.
    specialize (IH ltac:(discriminate) Hall fuel tail ltac:(cbn [foldr] in *; lia)).
    cbn [map] in IH. rewrite IH. reflexivity.
Qed.

Lemma opens_app (x t : string) : opens x -> opens (x +:+ t).
Proof. destruct x; [contradiction|exact id]. Qed.

Lemma skip_lines_opens (k : nat) (x : string) (r : list string) (tail : string) :
  opens x -> opens (skip (lines (spaces k) (x :: r) +:+ tail)).
Proof.
  intros Hx. destruct r as [|y r].
  - rewrite lines_one, !string_app_assoc, skip_nl, skip_spaces.
    rewrite skip_opens; now apply opens_app.
  - rewrite lines_more, !string_app_assoc, skip_nl, skip_spaces.
    rewrite skip_opens; now apply opens_app.
Qed.

Lemma write_opens_alone d v : opens (write d v).
Proof. rewrite <- (string_app_nil_r (write d v)). apply write_opens. Qed.

Lemma quote_opens key t : opens (quote key +:+ t).
Proof. cbn. auto. Qed.

(** Reading what has been written gives the value back. *)
Lemma readValue_write (v : value) : reads v.
Proof.
  induction v as [|b|n|s|items IH|members IH] using value_induction;
    intros d fuel rest Hfuel Hrest;
    (destruct fuel as [|fuel]; [cbn in Hfuel; lia|]).
  - reflexivity.
  - destruct b; reflexivity.
  - cbn [readValue write].
    pose proof (writeNumber_opens n rest) as Hopen.
    rewrite skip_opens by exact Hopen.
    pose proof (readNumber_write n rest Hrest) as Hnum.
    destruct (writeNumber n +:+ rest) as [|c r] eqn:E; [contradiction|].
    assert (digit c <> None \/ c = "-"%char) as Hc.
    { unfold readNumber in Hnum.
      destruct (Ascii.eqb c "-") eqn:Hminus; [right; now apply Ascii.eqb_eq|].
      left. cbn [readDigits] in Hnum. destruct (digit c); [discriminate|]. discriminate. }
    assert (Ascii.eqb c "n" = false /\ Ascii.eqb c "t" = false
            /\ Ascii.eqb c "f" = false /\ Ascii.eqb c quoteChar = false
            /\ Ascii.eqb c "[" = false /\ Ascii.eqb c "{" = false)
      as (-> & -> & -> & -> & -> & ->).
    { destruct Hc as [Hc| ->]; [|repeat split].
      unfold digit in Hc.
      repeat match type of Hc with
             | context [Ascii.eqb c ?x] =>
                 destruct (Ascii.eqb_spec c x) as [->|_]; [repeat split|]
             end.
      congruence. }
    rewrite Hnum. reflexivity.
  - cbn [readValue write]. unfold quote.
    change (String quoteChar (escape s +:+ String quoteChar "") +:+ rest)
      with (String quoteChar ((escape s +:+ String quoteChar "") +:+ rest)).
    rewrite skip_cons by reflexivity. rewrite string_app_assoc.
    change (String quoteChar "" +:+ rest) with (String quoteChar rest).
    change (Ascii.eqb quoteChar "n") with false.
    change (Ascii.eqb quoteChar "t") with false.
    change (Ascii.eqb quoteChar "f") with false.
    change (Ascii.eqb quoteChar quoteChar) with true. cbn match.
    rewrite readChars_escape. reflexivity.
  - destruct items as [|x items]; [reflexivity|].
    cbn [weight] in Hfuel.
    change (write d (Array (x :: items)))
      with ("[" +:+ lines (spaces (2 * S d)) (map (write (S d)) (x :: items))
                +:+ nl +:+ spaces (2 * d) +:+ "]").
    rewrite !string_app_assoc.
    change ("[" +:+ ?t) with (String "[" t).
    change ("]" +:+ rest) with (String "]" rest).
    cbn [readValue]. rewrite skip_cons by reflexivity.
    change (Ascii.eqb "[" "n") with false. change (Ascii.eqb "[" "t") with false.
    change (Ascii.eqb "[" "f") with false. change (Ascii.eqb "[" quoteChar) with false.
    change (Ascii.eqb "[" "[") with true. cbn match.
    rewrite (readItems_lines _ (2 * d) (S d) (x :: items))
      by (auto; try discriminate; lia).
    cbn [map].
    pose proof (skip_lines_opens (2 * S d) (write (S d) x) (map (write (S d)) items)
                  (nl +:+ spaces (2 * d) +:+ String "]" rest)
                  (write_opens_alone _ _)) as Hopen.
    destruct (skip _) as [|c r]; [contradiction|].
    destruct Hopen as (_ & -> & _). reflexivity.
  - destruct members as [|[key v] members]; [reflexivity|].
    cbn [weight] in Hfuel.
    change (write d (Object ((key, v) :: members)))
      with ("{" +:+ lines (spaces (2 * S d))
                      (map (fun kv => quote (fst kv) +:+ ": " +:+ write (S d) (snd kv))
                           ((key, v) :: members))
                +:+ nl +:+ spaces (2 * d) +:+ "}").
    rewrite !string_app_assoc.
    change ("{" +:+ ?t) with (String "{" t).
    change ("}" +:+ rest) with (String "}" rest).
    cbn [readValue]. rewrite skip_cons by reflexivity.
    change (Ascii.eqb "{" "n") with false. change (Ascii.eqb "{" "t") with false.
    change (Ascii.eqb "{" "f") with false. change (Ascii.eqb "{" quoteChar) with false.
    change (Ascii.eqb "{" "[") with false.
    change (Ascii.eqb "{" "{") with true. cbn match.
    rewrite (readMembers_lines _ (2 * d) (S d) ((key, v) :: members))
      by (auto; try discriminate; lia).
    cbn [map fst snd].
    pose proof (skip_lines_opens (2 * S d) (quote key +:+ ": " +:+ write (S d) v)
                  (map (fun kv => quote (fst kv) +:+ ": " +:+ write (S d) (snd kv)) members)
                  (nl +:+ spaces (2 * d) +:+ String "}" rest)
                  (quote_opens _ _)) as Hopen.
    destruct (skip _) as [|c r]; [contradiction|].
    destruct Hopen as (_ & _ & ->). reflexivity.
Qed.

Lemma lines_length {A} (indent : string) (f : A -> string) (w : A -> nat)
    (items : list A) :
  Forall (fun x => w x <= String.length (f x)) items ->
  foldr (fun x n => S (w x + n)) 0 items
  <= String.length (lines indent (map f items)).
Proof.
  induction items as [|x items IH]; intros Hall; [cbn; lia|].
  apply Forall_cons in Hall as [Hx Hall]. specialize (IH Hall). cbn beta in Hx.
  destruct items as [|y items].
  - cbn [map foldr]. rewrite lines_one, !string_app_length.
    change (String.length nl) with 1. lia.
  - cbn [map foldr] in *. rewrite lines_more, !string_app_length.
    change (String.length nl) with 1. cbn [String.length]. lia.
Qed.

Lemma weight_le_length (v : value) : forall d, weight v <= String.length (write d v).
Proof.
  induction v as [|b|n|s|items IH|members IH] using value_induction; intros d.
  - cbn. lia.
  - destruct b; cbn; lia.
  - pose proof (write_opens_alone d (Number n)) as H.
    destruct (write d (Number n)); [contradiction|]. cbn. lia.
  - cbn. lia.
  - destruct items as [|x items]; [cbn; lia|].
    change (write d (Array (x :: items)))
      with ("[" +:+ lines (spaces (2 * S d)) (map (write (S d)) (x :: items))
                +:+ nl +:+ spaces (2 * d) +:+ "]").
    rewrite !string_app_length. cbn [weight].
    pose proof (lines_length (spaces (2 * S d)) (write (S d)) weight (x :: items)) as H.
    cbn [String.length]. 
    assert (Forall (fun x => weight x <= String.length (write (S d) x)) (x :: items)) as Hall.
    { eapply Forall_impl; [exact IH|]. intros y Hy. apply Hy. }
    specialize (H Hall). lia.
  - destruct members as [|kv members]; [cbn; lia|].
    change (write d (Object (kv :: members)))
      with ("{" +:+ lines (spaces (2 * S d))
                      (map (fun kv => quote (fst kv) +:+ ": " +:+ write (S d) (snd kv))
                           (kv :: members))
                +:+ nl +:+ spaces (2 * d) +:+ "}").
    rewrite !string_app_length. cbn [weight].
    pose proof (lines_length (spaces (2 * S d))
                  (fun kv => quote (fst kv) +:+ ": " +:+ write (S d) (snd kv))
                  (fun kv => weight (snd kv)) (kv :: members)) as H.
    cbn [String.length].
    assert (Forall (fun kv : string * value =>
                      weight (snd kv)
                      <= String.length (quote (fst kv) +:+ ": " +:+ write (S d) (snd kv)))
                   (kv :: members)) as Hall.
    { eapply Forall_impl; [exact IH|]. intros y Hy. cbn beta.
      rewrite !string_app_length. specialize (Hy (S d)). lia. }
    specialize (H Hall). lia.
Qed.

(** [JSON.parse(JSON.stringify(v, null, 2))] is [v]. *)
Lemma parse_stringify (v : value) : parse (stringify v) = Some v.
Proof.
  unfold parse, stringify.
  replace (readValue (S (String.length (write 0 v))) (write 0 v))
    with (readValue (S (String.length (write 0 v))) (write 0 v +:+ ""))
    by now rewrite string_app_nil_r.
  rewrite readValue_write; [reflexivity| |exact I].
  pose proof (weight_le_length v 0). lia.
Qed.

End JsonFacts.

(** ** Export *)

Module ExportClaims.
Import JS Json JsonFacts ChatExport.

Lemma readMessage_messageValue (m : Message.t) :
  readMessage (messageValue m) = Some m.
Proof.
  destruct m as [id type [persona|] content timestamp [llm|] [live|]]; reflexivity.
Qed.

Lemma mapM_inverse {A B} (f : B -> option A) (g : A -> B) (l : list A) :
  (forall x, f (g x) = Some x) -> mapM f (map g l) = Some l.
Proof.
  intros H. induction l as [|x l IH]; [reflexivity|].
  cbn. rewrite H. cbn. rewrite IH. reflexivity.
Qed.

(** C8. With an environment selected, [exportChat] writes a file whose
    text [JSON.parse] reads as the object
    [{environment, participants, messages, exportedAt}]: the name of the
    environment, the names of its participants in order, one object per
    message of the transcript in order, and the time of the export. Read
    back field by field, the entries of [messages] are the messages of the
    transcript, all of them, in their order, each field with its value (and
    a field a message does not have is absent). *)
Theorem export_round_trip (s : Engine.State) (e : Environment.t)
    (iso : string) (millis : Z) :
  Engine.selectedEnvironment s = Some e ->
  let file := exportChat s iso millis in
  exists doc,
    parse (contents file) = Some doc
    /\ doc = Object [ ("environment", Str (Environment.name e));
                      ("participants",
                       Array (map (fun p => Str (Persona.name p))
                                  (Environment.participants e)));
                      ("messages",
                       Array (map messageValue (Engine.localChatHistory s)));
                      ("exportedAt", Str iso) ]
    /\ readMessages doc = Some (Engine.localChatHistory s)
    /\ readNames doc = Some (map Persona.name (Environment.participants e))
    /\ readField "environment" doc = Some (Environment.name e)
    /\ readField "exportedAt" doc = Some iso.
Proof.
  intros Hsel file. eexists. split.
  { subst file. cbn [contents exportChat]. apply parse_stringify. }
  unfold chatData. rewrite Hsel. cbn [fmap option_fmap option_map optional app].
  split; [reflexivity|].
  split.
  { cbn. apply mapM_inverse, readMessage_messageValue. }
  split.
  { cbn. rewrite <- (map_map Persona.name Str). now apply mapM_inverse. }
  split; reflexivity.
Qed.

Lemma export_round_trip_witness :
  exists doc,
    parse (contents (exportChat Sample.adaSpeaking "2024-05-01T10:00:00.000Z" 1714557600000))
    = Some doc
    /\ readMessages doc = Some (Engine.localChatHistory Sample.adaSpeaking)
    /\ readNames doc = Some ["Ada"; "Bob"].
Proof.
  destruct (export_round_trip Sample.adaSpeaking (Sample.room "manual")
              "2024-05-01T10:00:00.000Z" 1714557600000 eq_refl)
    as (doc & Hparse & _ & Hmessages & Hnames & _).
  exists doc. split; [exact Hparse|]. split; [exact Hmessages|exact Hnames].
Defined.

(** The file written for the sample room after its seed message. *)
Example export_of_ready :
  contents (exportChat Sample.ready "2024-05-01T10:00:00.000Z" 1714557600000)
  = "{" +:+ nl
    +:+ "  " +:+ quote "environment" +:+ ": " +:+ quote "Team Brainstorm" +:+ "," +:+ nl
    +:+ "  " +:+ quote "participants" +:+ ": [" +:+ nl
    +:+ "    " +:+ quote "Ada" +:+ "," +:+ nl
    +:+ "    " +:+ quote "Bob" +:+ nl
    +:+ "  ]," +:+ nl
    +:+ "  " +:+ quote "messages" +:+ ": [" +:+ nl
    +:+ "    {" +:+ nl
    +:+ "      " +:+ quote "id" +:+ ": 1700000000000," +:+ nl
    +:+ "      " +:+ quote "type" +:+ ": " +:+ quote "system" +:+ "," +:+ nl
    +:+ "      " +:+ quote "content" +:+ ": " +:+ quote "Discuss the launch." +:+ "," +:+ nl
    +:+ "      " +:+ quote "timestamp" +:+ ": " +:+ quote "12:00:00" +:+ nl
    +:+ "    }" +:+ nl
    +:+ "  ]," +:+ nl
    +:+ "  " +:+ quote "exportedAt" +:+ ": " +:+ quote "2024-05-01T10:00:00.000Z" +:+ nl
    +:+ "}"
  /\ filename (exportChat Sample.ready "2024-05-01T10:00:00.000Z" 1714557600000)
     = "loom-simulation-Team Brainstorm-1714557600000.json".
Proof. split; vm_compute; reflexivity. Qed.

End ExportClaims.

(** ** Turn engine: the transcript, the requests and the view *)

Module EngineExtras.
Import JS Adapter Engine EngineFacts AdapterFacts ChatView.

Section WithKeys.
Variable apiKeys : ApiKeys.

Lemma newMessage_spoken seen persona o : spoken (newMessage apiKeys seen persona o).
Proof.
  left. destruct (newMessage_author apiKeys seen persona o) as (-> & -> & -> & _).
  repeat split; eauto.
Qed.

Lemma resume_appends n o s :
  localChatHistory (resume apiKeys n o s) = localChatHistory s
  \/ exists seen persona,
       localChatHistory (resume apiKeys n o s)
       = localChatHistory s ++ [newMessage apiKeys seen persona o].
Proof.
  unfold resume.
  destruct (tasks s !! n) as [[persona seen|l i persona|l i|l|]|]; auto.
  - rewrite simulateAIResponse_returns. right. eexists _, _. reflexivity.
  - rewrite simulateAIResponse_returns. right. eexists _, _. reflexivity.
  - left. destruct (simulationRunningRef s);
      [apply forLoop_history | apply afterLoop_history].
  - left. apply runNextTurn_history.
Qed.

Lemma seedFirst_snoc h m : seedFirst h -> spoken m -> seedFirst (h ++ [m]).
Proof.
  destruct h as [|x h]; cbn.
  - intros _ H. split; [now right|constructor].
  - intros [H1 H2] H. split; [exact H1|]. apply Forall_app. split; [exact H2|].
    now constructor.
Qed.

Lemma step_seedFirst s a :
  seedFirst (localChatHistory s) -> seedFirst (localChatHistory (step apiKeys s a)).
Proof.
  intros H.
  destruct a as [environment c| |persona|text|c| | |n o]; cbn -[resume handleAutoLoop].
  - unfold startSimulation. destruct (truthy _); cbn; [|exact I].
    split; [now left|constructor].
  - now rewrite handleAutoLoop_history.
  - unfold handleManualTurn. now destruct (isProcessing s).
  - exact H.
  - unfold handleUserMessage. destruct (blank _); cbn; [exact H|].
    apply seedFirst_snoc; [exact H|]. now right.
  - exact H.
  - exact I.
  - destruct (resume_appends n o s) as [-> | (seen & persona & ->)]; [exact H|].
    apply seedFirst_snoc; [exact H|]. apply newMessage_spoken.
Qed.

Lemma steps_seedFirst (acts : list Action) : forall s,
  seedFirst (localChatHistory s) ->
  seedFirst (localChatHistory (steps apiKeys s acts)).
Proof.
  induction acts as [|a acts IH]; intros s H; [exact H|].
  rewrite steps_cons. apply IH, step_seedFirst, H.
Qed.

Lemma spoken_renders m : spoken m -> is_Some (renderMessage m).
Proof.
  unfold renderMessage.
  intros [(-> & [p ->] & [l ->]) | ->]; cbn; eauto.
Qed.

Lemma system_renders m : Message.type m = "system" -> is_Some (renderMessage m).
Proof. unfold renderMessage. intros ->. cbn. eauto. Qed.

End WithKeys.

(** Whatever is done to the component, in whatever order, the chat area
    can be drawn: every agent message of the transcript has the [persona]
    and the [llm] that the view dereferences. *)
Theorem chat_area_always_renders (apiKeys : ApiKeys) (acts : list Action) :
  is_Some (renderChat (localChatHistory (steps apiKeys init acts))).
Proof.
  pose proof (steps_seedFirst apiKeys acts init I) as H.
  unfold renderChat.
  assert (Forall (fun m => is_Some (renderMessage m))
            (localChatHistory (steps apiKeys init acts))) as Hall.
  { destruct (localChatHistory _) as [|m rest]; [constructor|].
    destruct H as [[H1 | H1] H2]; constructor.
    - now apply system_renders.
    - eapply Forall_impl; [exact H2|]. apply spoken_renders.
    - now apply spoken_renders.
    - eapply Forall_impl; [exact H2|]. apply spoken_renders. }
  clear H. induction Hall as [|m rest [b Hb] _ [bs IH]]; [now exists []|].
  exists (b :: bs). cbn. rewrite Hb. cbn. now rewrite IH.
Qed.

(** A system message is found at the head of the transcript only: the
    seed of the simulation, and never a second one. *)
Theorem system_message_only_first (apiKeys : ApiKeys) (acts : list Action)
    (i : nat) (m : Message.t) :
  localChatHistory (steps apiKeys init acts) !! S i = Some m ->
  Message.type m <> "system".
Proof.
  pose proof (steps_seedFirst apiKeys acts init I) as H.
  destruct (localChatHistory _) as [|x rest]; [discriminate|].
  cbn. intros Hi Hm.
  destruct H as [_ H]. eapply Forall_lookup in H; [|exact Hi].
  destruct H as [(H & _) | H]; congruence.
Qed.

Lemma system_message_only_first_witness :
  let acts := [ StartSimulation (Sample.room "manual") Sample.noon;
                Manual Sample.bob; Resume 0 Sample.answered ] in
  let m := agentMessage Sample.bob Sample.noon
             (getSimulatedResponse Sample.bob 0) false in
  localChatHistory (steps Sample.keys init acts) !! 1 = Some m
  /\ Message.type m <> "system".
Proof.
  intros acts m. split; [reflexivity|].
  exact (system_message_only_first Sample.keys acts 0 m eq_refl).
Defined.

(** The [isRealAI] flag of the message of a turn says whether a request
    was sent to a provider, and nothing about how the request ended. *)
Theorem live_flag_iff_request_sent (apiKeys : ApiKeys) (seen : list Message.t)
    (persona : Persona.t) (o : Outside) :
  let m := newMessage apiKeys seen persona o in
  (Message.isRealAI m = Some true
   <-> length (sent (simulateAIResponse apiKeys seen persona o)) = 1)
  /\ (Message.isRealAI m = Some false
      <-> sent (simulateAIResponse apiKeys seen persona o) = []).
Proof.
  cbv zeta. unfold newMessage.
  destruct (isOpenAI persona) eqn:E1; [pose proof (isOpenAI_not_isClaude _ E1) as E2|];
    unfold_adapter; rewrite ?E1, ?E2;
    destruct (truthy (openai apiKeys)) eqn:K1;
    destruct (truthy (claude apiKeys)) eqn:K2;
    destruct (isClaude persona) eqn:E3; try discriminate;
    cbn [negb andb fst snd app]; try (destruct (reply o));
    cbn; repeat split; intros; try discriminate; reflexivity.
Qed.

(** A persona whose provider has no key is answered by the simulation, and
    no request is sent: also when the key of the other provider is set. *)
Theorem missing_key_is_simulated (apiKeys : ApiKeys) (seen : list Message.t)
    (persona : Persona.t) (o : Outside) :
  (Persona.llm persona = "ChatGPT (OpenAI)" /\ openai apiKeys = "")
  \/ (Persona.llm persona = "Claude (Anthropic)" /\ claude apiKeys = "") ->
  simulateAIResponse apiKeys seen persona o
  = ([], inr (agentMessage persona (clock o)
                (getSimulatedResponse persona (random o)) false)).
Proof.
  intros [[Hl Hk] | [Hl Hk]].
  - assert (isOpenAI persona = true) as E1 by (unfold isOpenAI; now rewrite Hl).
    assert (isClaude persona = false) as E2 by (unfold isClaude; now rewrite Hl).
    unfold simulateAIResponse, attempt. rewrite E1, E2, Hk, andb_false_r.
    reflexivity.
  - assert (isOpenAI persona = false) as E1 by (unfold isOpenAI; now rewrite Hl).
    unfold simulateAIResponse, attempt. rewrite E1, Hk, andb_false_r.
    reflexivity.
Qed.

Lemma missing_key_is_simulated_witness :
  let claudia := {| Persona.name := "Claudia"; Persona.llm := "Claude (Anthropic)";
                    Persona.role := "Critic"; Persona.traits := None;
                    Persona.knowledgeHub := None; Persona.wordLimit := None |} in
  openai Sample.keys = "sk-test"
  /\ simulateAIResponse Sample.keys [] claudia Sample.answered
     = ([], inr (agentMessage claudia Sample.noon
                   (getSimulatedResponse claudia 0) false)).
Proof.
  split; [reflexivity|].
  apply (missing_key_is_simulated Sample.keys [] _ Sample.answered).
  right. split; reflexivity.
Defined.

(** The messages of type [system] (the starting prompt of the environment)
    play no part in a turn: with such a message anywhere in the transcript
    or without it, the same requests are sent and the same message comes
    back. *)
Theorem system_messages_never_sent (apiKeys : ApiKeys) (before after : list Message.t)
    (m : Message.t) (persona : Persona.t) (o : Outside) :
  Message.type m = "system" ->
  simulateAIResponse apiKeys (before ++ m :: after) persona o
  = simulateAIResponse apiKeys (before ++ after) persona o.
Proof.
  intros Hm. unfold simulateAIResponse, attempt.
  assert (conversationContext (before ++ m :: after)
          = conversationContext (before ++ after)) as ->; [|reflexivity].
  unfold conversationContext. rewrite !filter_app, filter_cons.
  destruct (decide _) as [H|H]; [congruence|reflexivity].
Qed.

Lemma system_messages_never_sent_witness :
  let seed := {| Message.id := 1700000000000; Message.type := "system";
                 Message.persona := None; Message.content := "Discuss the launch.";
                 Message.timestamp := "12:00:00"; Message.llm := None;
                 Message.isRealAI := None |} in
  localChatHistory Sample.ready = [seed]
  /\ simulateAIResponse Sample.keys [seed] Sample.ada Sample.answered
     = simulateAIResponse Sample.keys [] Sample.ada Sample.answered.
Proof.
  intros seed. split; [reflexivity|].
  exact (system_messages_never_sent Sample.keys [] [] seed Sample.ada
           Sample.answered eq_refl).
Defined.

(** A reply that arrives after the user has gone back and started another
    simulation is appended to the transcript of the new simulation. *)
Theorem late_reply_joins_next_simulation (apiKeys : ApiKeys) (s : State) (n : nat)
    (persona : Persona.t) (seen : list Message.t)
    (environment : Environment.t) (c : Clock) (o : Outside) :
  tasks s !! n = Some (ManualTurn persona seen) ->
  let fresh := steps apiKeys s [Back; StartSimulation environment c] in
  let s' := step apiKeys fresh (Resume n o) in
  selectedEnvironment s' = Some environment
  /\ localChatHistory s'
     = localChatHistory fresh ++ [newMessage apiKeys seen persona o]
  /\ length (localChatHistory fresh) <= 1.
Proof.
  intros Ht fresh s'.
  assert (tasks fresh = tasks s) as Htasks.
  { subst fresh. cbn. unfold startSimulation. now destruct (truthy _). }
  assert (selectedEnvironment fresh = Some environment) as Hsel.
  { subst fresh. cbn. unfold startSimulation. now destruct (truthy _). }
  subst s'. unfold step, handle, resume. rewrite Htasks, Ht.
  rewrite simulateAIResponse_returns. cbn.
  split; [exact Hsel|]. split; [reflexivity|].
  subst fresh. cbn. unfold startSimulation. destruct (truthy _); cbn; lia.
Qed.

Lemma late_reply_joins_next_simulation_witness :
  let s' := steps Sample.keys Sample.adaSpeaking
              [Back; StartSimulation (Sample.room "mixed") Sample.noon;
               Resume 0 Sample.answered] in
  Environment.interactionMode <$> selectedEnvironment s' = Some "mixed"
  /\ map Message.type (localChatHistory s') = ["system"; "ai"]
  /\ map Message.content (localChatHistory s')
     = ["Discuss the launch."; "Let us begin."].
Proof.
  intros s'.
  destruct (late_reply_joins_next_simulation Sample.keys Sample.adaSpeaking 0
              Sample.ada (localChatHistory Sample.ready)
              (Sample.room "mixed") Sample.noon Sample.answered eq_refl)
    as (Hsel & Hh & _).
  change (step Sample.keys _ (Resume 0 Sample.answered)) with s' in Hsel, Hh.
  rewrite Hsel, Hh. repeat split.
Defined.

End EngineExtras.

(** ** The persona form: selecting traits *)

Module TraitFormFacts.
Import JS TraitForm.

Lemma eqb_eq_iff (a b : string) : String.eqb a b = true <-> a = b.
Proof. apply String.eqb_eq. Qed.

Lemma mentions_app (c : ascii) (a b : string) :
  mentions c (a +:+ b) = mentions c a || mentions c b.
Proof.
  induction a as [|x a IH]; [reflexivity|]. cbn. now rewrite IH, orb_assoc.
Qed.

Lemma traitKey_hyphen (category trait : string) :
  mentions "-" (traitKey category trait) = true.
Proof. unfold traitKey. rewrite !mentions_app. cbn. now rewrite orb_true_r. Qed.

Lemma allDigits_no_hyphen (k : string) :
  Obj.allDigits k = true -> mentions "-" k = false.
Proof.
  induction k as [|c k IH]; [reflexivity|]. cbn.
  intros [Hc Hk]%andb_true_iff. rewrite (IH Hk), orb_false_r.
  destruct (Ascii.eqb_spec c "-") as [->|]; [discriminate|reflexivity].
Qed.

Lemma isIndex_no_hyphen (k : string) : mentions "-" k = true -> Obj.isIndex k = false.
Proof.
  intros H. destruct (Obj.isIndex k) eqn:E; [|reflexivity].
  destruct k as [|c k]; [discriminate|]. unfold Obj.isIndex in E.
  apply andb_true_iff in E as [E _]. apply andb_true_iff in E as [E _].
  apply andb_true_iff in E as [E _].
  apply allDigits_no_hyphen in E. congruence.
Qed.

Lemma inherited_no_hyphen (k : string) : mentions "-" k = true -> inherited k = false.
Proof.
  intros H. destruct (inherited k) eqn:E; [|reflexivity].
  unfold inherited, inheritedNames in E. cbn [existsb] in E.
  repeat (apply orb_true_iff in E as [E|E];
          [apply String.eqb_eq in E; subst k; discriminate|]).
  discriminate.
Qed.

Section Objects.
Context {V : Type}.
Implicit Types (o : Obj.t V) (k : string) (v : V).

Lemma own_app o k k' v :
  Obj.own k (o ++ [(k', v)])
  = match Obj.own k o with
    | Some x => Some x
    | None => if String.eqb k k' then Some v else None
    end.
Proof.
  induction o as [|[k0 v0] o IH]; cbn; [reflexivity|].
  destruct (String.eqb k k0); [reflexivity|exact IH].
Qed.

Lemma own_None o k : Obj.own k o = None <-> k ∉ Obj.keys o.
Proof.
  unfold Obj.keys. induction o as [|[k0 v0] o IH]; cbn.
  - split; [intros _ H; inversion H|reflexivity].
  - rewrite not_elem_of_cons.
    destruct (String.eqb_spec k k0) as [->|Hne].
    + split; [discriminate|]. now intros [H _].
    + rewrite IH. tauto.
Qed.

Lemma delete_absent o k : Obj.own k o = None -> Obj.delete k o = o.
Proof.
  induction o as [|[k0 v0] o IH]; cbn; [reflexivity|].
  destruct (String.eqb k k0); [discriminate|]. intros H. now rewrite IH.
Qed.

Lemma delete_app_new o k v :
  Obj.own k o = None -> Obj.delete k (o ++ [(k, v)]) = o.
Proof.
  induction o as [|[k0 v0] o IH]; cbn.
  - now rewrite String.eqb_refl.
  - destruct (String.eqb k k0); [discriminate|]. intros H. now rewrite IH.
Qed.

Lemma own_delete_other o k k' : k <> k' -> Obj.own k' (Obj.delete k o) = Obj.own k' o.
Proof.
  intros Hne. induction o as [|[k0 v0] o IH]; cbn; [reflexivity|].
  destruct (String.eqb_spec k k0) as [->|H0].
  - destruct (String.eqb_spec k' k0) as [->|]; [congruence|reflexivity].
  - cbn. now rewrite IH.
Qed.

Lemma keys_delete o k : Obj.keys (Obj.delete k o) `sublist_of` Obj.keys o.
Proof.
  unfold Obj.keys. induction o as [|[k0 v0] o IH]; cbn; [constructor|].
  destruct (String.eqb k k0); cbn.
  - apply sublist_cons. reflexivity.
  - now apply sublist_skip.
Qed.

Lemma Forall_delete (P : string * V -> Prop) o k :
  Forall P o -> Forall P (Obj.delete k o).
Proof.
  induction 1 as [|[k0 v0] o' Hx Ho IH]; cbn; [constructor|].
  destruct (String.eqb k k0); [exact Ho|]. now constructor.
Qed.

Lemma own_delete_same o k : NoDup (Obj.keys o) -> Obj.own k (Obj.delete k o) = None.
Proof.
  unfold Obj.keys. induction o as [|[k0 v0] o IH]; cbn; [reflexivity|].
  intros [Hnot Hnd]%NoDup_cons.
  destruct (String.eqb_spec k k0) as [->|H0].
  - now apply own_None.
  - cbn. destruct (String.eqb_spec k k0); [congruence|]. now apply IH.
Qed.

Lemma keys_replace o k v : Obj.keys (Obj.replace k v o) = Obj.keys o.
Proof.
  unfold Obj.keys. induction o as [|[k0 v0] o IH]; cbn; [reflexivity|].
  destruct (String.eqb_spec k k0) as [->|]; cbn; [reflexivity|]. now rewrite IH.
Qed.

Lemma own_replace o k v k' :
  Obj.own k' (Obj.replace k v o)
  = if String.eqb k' k then (match Obj.own k o with Some _ => Some v | None => None end)
    else Obj.own k' o.
Proof.
  induction o as [|[k0 v0] o IH]; cbn.
  - now destruct (String.eqb k' k).
  - destruct (String.eqb_spec k k0) as [->|H0]; cbn.
    + now destruct (String.eqb k' k0).
    + destruct (String.eqb_spec k' k0) as [->|H1].
      * destruct (String.eqb_spec k0 k); [congruence|reflexivity].
      * exact IH.
Qed.

Lemma elem_of_replace o k v x :
  x ∈ Obj.replace k v o -> x ∈ o \/ x = (k, v).
Proof.
  induction o as [|[k0 v0] o IH]; cbn; [auto|].
  destruct (String.eqb k k0).
  - intros [->|H]%elem_of_cons; [now right|]. left. now constructor.
  - intros [->|H]%elem_of_cons; [left; constructor|].
    destruct (IH H); [left; now constructor|now right].
Qed.

End Objects.

(** On a key of the form, [selectedTraits[key]] is truthy when the key is
    an own property and then only, and a new key goes to the end. *)
Lemma has_traitKey (category trait : string) (o : Obj.t Entry) :
  Obj.has (traitKey category trait) o
  = match Obj.own (traitKey category trait) o with Some _ => true | None => false end.
Proof.
  unfold Obj.has. destruct (Obj.own _ o); [reflexivity|].
  apply inherited_no_hyphen, traitKey_hyphen.
Qed.

Lemma define_traitKey (category trait : string) (e : Entry) (o : Obj.t Entry) :
  Obj.own (traitKey category trait) o = None ->
  Obj.define (traitKey category trait) e o = o ++ [(traitKey category trait, e)].
Proof.
  intros H. unfold Obj.define. rewrite H.
  now rewrite (isIndex_no_hyphen _ (traitKey_hyphen category trait)).
Qed.

Lemma toggle_unselected category trait prev :
  Obj.own (traitKey category trait) prev = None ->
  handleTraitToggle category trait prev
  = prev ++ [(traitKey category trait,
              {| name := Some trait; category := Some category;
                 intensity := Some "Neutral" |})].
Proof.
  intros H. unfold handleTraitToggle. cbv zeta.
  now rewrite has_traitKey, H, define_traitKey.
Qed.

Lemma toggle_selected category trait prev e :
  Obj.own (traitKey category trait) prev = Some e ->
  handleTraitToggle category trait prev = Obj.delete (traitKey category trait) prev.
Proof.
  intros H. unfold handleTraitToggle. cbv zeta. now rewrite has_traitKey, H.
Qed.

Lemma offered_pair (c t : string) : offered c t = true <-> (c, t) ∈ allPairs.
Proof.
  unfold offered, allPairs. rewrite list_elem_of_In, in_flat_map. split.
  - intros H. apply existsb_exists in H as ([c0 ts] & Hin & H). cbn in H.
    apply andb_true_iff in H as [Hc Ht]. apply String.eqb_eq in Hc. subst c0.
    apply existsb_exists in Ht as (t0 & Ht0 & Ht). apply String.eqb_eq in Ht. subst t0.
    exists (c, ts). split; [exact Hin|]. cbn. apply in_map, Ht0.
  - intros ([c0 ts] & Hin & H). cbn in H. apply in_map_iff in H as (t0 & [= -> ->] & Ht).
    apply existsb_exists. exists (c, ts). split; [exact Hin|]. cbn.
    rewrite String.eqb_refl. cbn. apply existsb_exists. exists t.
    split; [exact Ht|apply String.eqb_refl].
Qed.

Lemma offered_key (c t : string) : offered c t = true -> traitKey c t ∈ allKeys.
Proof.
  intros H%offered_pair. unfold allKeys.
  apply list_elem_of_fmap. now exists (c, t).
Qed.

Lemma allKeys_NoDup : NoDup allKeys.
Proof. apply (bool_decide_unpack _). vm_compute. exact I. Qed.

Lemma NoDup_fmap_inj {A B} (f : A -> B) (l : list A) (x y : A) :
  NoDup (map f l) -> x ∈ l -> y ∈ l -> f x = f y -> x = y.
Proof.
  induction l as [|a l IH]; cbn; [intros _ H; inversion H|].
  intros [Hnot Hnd]%NoDup_cons [->|Hx]%elem_of_cons [->|Hy]%elem_of_cons Hf.
  - reflexivity.
  - exfalso. apply Hnot. rewrite Hf. apply list_elem_of_fmap. now exists y.
  - exfalso. apply Hnot. rewrite <- Hf. apply list_elem_of_fmap. now exists x.
  - now apply IH.
Qed.

(** Two pairs the form offers have the same key only if they are the same. *)
Lemma offered_key_inj (c t c' t' : string) :
  offered c t = true -> offered c' t' = true ->
  traitKey c t = traitKey c' t' -> c = c' /\ t = t'.
Proof.
  intros H%offered_pair H'%offered_pair Hk.
  pose proof (NoDup_fmap_inj (fun ct => traitKey ct.1 ct.2) allPairs (c, t) (c', t')
                allKeys_NoDup H H' Hk) as [= -> ->].
  now split.
Qed.

Lemma offered_ascii (c t : string) : offered c t = true -> isAscii t = true.
Proof.
  unfold offered, traitCategories. cbn [existsb fst snd].
  intros H.
  repeat (apply orb_true_iff in H as [H|H];
          [apply andb_true_iff in H as [_ H];
           repeat (apply orb_true_iff in H as [H|H];
                   [apply String.eqb_eq in H; subst t; reflexivity|]);
           discriminate|]).
  discriminate.
Qed.

Lemma intensity_plain (i : string) :
  existsb (String.eqb i) intensities = true -> inherited i = false.
Proof.
  unfold intensities. cbn [existsb]. intros H.
  repeat (apply orb_true_iff in H as [H|H];
          [apply String.eqb_eq in H; subst i; reflexivity|]).
  discriminate.
Qed.

Lemma own_elem {V} (o : Obj.t V) k v : Obj.own k o = Some v -> (k, v) ∈ o.
Proof.
  induction o as [|[k0 v0] o IH]; cbn; [discriminate|].
  destruct (String.eqb_spec k k0) as [->|].
  - intros [= ->]. constructor.
  - intros H. apply elem_of_cons. right. now apply IH.
Qed.

Lemma formed_toggle c t sel :
  offered c t = true ->
  NoDup (Obj.keys sel) /\ Forall formed sel ->
  NoDup (Obj.keys (handleTraitToggle c t sel))
  /\ Forall formed (handleTraitToggle c t sel).
Proof.
  intros Hoff [Hnd Hall].
  destruct (Obj.own (traitKey c t) sel) as [e|] eqn:E.
  - rewrite (toggle_selected _ _ _ _ E). split.
    + eapply sublist_NoDup; [exact Hnd|apply keys_delete].
    + now apply Forall_delete.
  - rewrite (toggle_unselected _ _ _ E). split.
    + unfold Obj.keys in *. rewrite map_app. cbn. apply NoDup_app.
      split; [exact Hnd|]. split; [|apply NoDup_singleton].
      intros k Hk [->|H]%elem_of_cons; [|inversion H].
      now apply own_None in E.
    + apply Forall_app. split; [exact Hall|]. constructor; [|constructor].
      exists c, t, "Neutral". repeat split. exact Hoff.
Qed.

Lemma formed_intensity c t i sel :
  existsb (String.eqb i) intensities = true ->
  Obj.has (traitKey c t) sel = true ->
  NoDup (Obj.keys sel) /\ Forall formed sel ->
  NoDup (Obj.keys (handleIntensityChange (traitKey c t) i sel))
  /\ Forall formed (handleIntensityChange (traitKey c t) i sel).
Proof.
  intros Hi Hhas [Hnd Hall]. rewrite has_traitKey in Hhas.
  destruct (Obj.own (traitKey c t) sel) as [e|] eqn:E; [|discriminate].
  unfold handleIntensityChange, Obj.define. rewrite E. cbn [withIntensity].
  split; [now rewrite keys_replace|].
  apply Forall_forall. intros x [Hx | ->]%elem_of_replace.
  - eapply Forall_forall in Hall; [exact Hall|exact Hx].
  - apply own_elem in E. eapply Forall_forall in Hall; [|exact E].
    destruct Hall as (c0 & t0 & i0 & Hoff & _ & Heq).
    inversion Heq as [[Hk He]].
    exists c0, t0, i. split; [exact Hoff|]. split; [exact Hi|].
    now rewrite Hk.
Qed.

Lemma reachable_formed sel :
  reachable sel -> NoDup (Obj.keys sel) /\ Forall formed sel.
Proof.
  induction 1 as [|sel [c t|c t i] sel' _ IH Hb].
  - split; constructor.
  - unfold bound in Hb. destruct (offered c t) eqn:Hoff; [|discriminate].
    injection Hb as <-. now apply formed_toggle.
  - unfold bound in Hb.
    destruct (offered c t) eqn:Hoff; [|discriminate].
    destruct (existsb _ intensities) eqn:Hi; [|discriminate].
    destruct (Obj.has _ sel) eqn:Hhas; [|discriminate].
    injection Hb as <-. now apply formed_intensity.
Qed.

Lemma traitsOf_formed sel :
  Forall formed sel ->
  exists ts, traitsOf sel = Some ts /\ Forall chosen ts /\ length ts = length sel.
Proof.
  unfold traitsOf, Obj.values.
  induction 1 as [|ke sel (c & t & i & Hoff & Hi & ->) _ (ts & IH & Hts & Hlen)].
  - exists []. repeat split. constructor.
  - exists (Trait.mk t c (Some i) :: ts). cbn. rewrite IH. cbn.
    split; [reflexivity|]. split; [|now rewrite Hlen].
    constructor; [|exact Hts]. split; [exact Hoff|]. now exists i.
Qed.

Lemma chosen_wf x : chosen x -> Trait.wf x.
Proof.
  intros [Hoff (i & Hi & Hin)]. split.
  - eapply offered_ascii, Hoff.
  - rewrite Hi. now apply intensity_plain.
Qed.

End TraitFormFacts.

Module TraitFormProps.
Import JS TraitForm TraitFormFacts.

(** Ticking the check box of an unselected trait and ticking it again
    leaves [selectedTraits] as it was, whatever the category and the
    trait. *)
Theorem toggle_twice_unselected (category trait : string) (prev : Obj.t Entry) :
  Obj.own (traitKey category trait) prev = None ->
  handleTraitToggle category trait (handleTraitToggle category trait prev) = prev.
Proof.
  intros H. rewrite (toggle_unselected _ _ _ H).
  erewrite toggle_selected.
  - now apply delete_app_new.
  - rewrite own_app, H. now rewrite String.eqb_refl.
Qed.

Lemma toggle_twice_unselected_witness :
  let prev := handleTraitToggle "Emotional Tone" "Calm" [] in
  handleTraitToggle "Cognitive Approach" "Analytical"
    (handleTraitToggle "Cognitive Approach" "Analytical" prev) = prev.
Proof.
  intros prev.
  exact (toggle_twice_unselected "Cognitive Approach" "Analytical" prev eq_refl).
Defined.

(** Unticking a selected trait and ticking it again does not restore it:
    the trait comes back at the end of the selection, with the intensity
    [Neutral], whatever intensity it had. *)
Theorem reselecting_resets_intensity (category trait : string)
    (prev : Obj.t Entry) (e : Entry) :
  NoDup (Obj.keys prev) ->
  Obj.own (traitKey category trait) prev = Some e ->
  handleTraitToggle category trait (handleTraitToggle category trait prev)
  = Obj.delete (traitKey category trait) prev
    ++ [(traitKey category trait,
         {| name := Some trait; category := Some category;
            intensity := Some "Neutral" |})].
Proof.
  intros Hnd H. rewrite (toggle_selected _ _ _ _ H).
  apply toggle_unselected. now apply own_delete_same.
Qed.

Lemma reselecting_resets_intensity_witness :
  let prev := handleIntensityChange "Emotional Tone-Calm" "Strong"
                (handleTraitToggle "Cognitive Approach" "Analytical"
                   (handleTraitToggle "Emotional Tone" "Calm" [])) in
  map (fun e => (name e, intensity e)) (Obj.values prev)
  = [(Some "Calm", Some "Strong"); (Some "Analytical", Some "Neutral")]
  /\ map (fun e => (name e, intensity e))
       (Obj.values (handleTraitToggle "Emotional Tone" "Calm"
                      (handleTraitToggle "Emotional Tone" "Calm" prev)))
     = [(Some "Analytical", Some "Neutral"); (Some "Calm", Some "Neutral")].
Proof.
  intros prev. split; [reflexivity|].
  rewrite (reselecting_resets_intensity "Emotional Tone" "Calm" prev
             {| name := Some "Calm"; category := Some "Emotional Tone";
                intensity := Some "Strong" |}
             ltac:(apply (bool_decide_unpack _); vm_compute; exact I) eq_refl).
  reflexivity.
Defined.

(** Changing the intensity of a selected trait changes that and nothing
    else: the keys stay in their order, the entry keeps its name and its
    category, and every other entry is what it was. *)
Theorem intensity_change_in_place (key i : string) (prev : Obj.t Entry) (e : Entry) :
  Obj.own key prev = Some e ->
  let next := handleIntensityChange key i prev in
  Obj.keys next = Obj.keys prev
  /\ Obj.own key next
     = Some {| name := name e; category := category e; intensity := Some i |}
  /\ forall k, k <> key -> Obj.own k next = Obj.own k prev.
Proof.
  intros H next. subst next. unfold handleIntensityChange, Obj.define.
  rewrite H. cbn [withIntensity]. split; [apply keys_replace|]. split.
  - now rewrite own_replace, String.eqb_refl, H.
  - intros k Hk. rewrite own_replace.
    destruct (String.eqb_spec k key); [congruence|reflexivity].
Qed.

Lemma intensity_change_in_place_witness :
  let prev := handleTraitToggle "Cognitive Approach" "Analytical"
                (handleTraitToggle "Emotional Tone" "Calm" []) in
  let next := handleIntensityChange "Emotional Tone-Calm" "Weak" prev in
  Obj.keys next = ["Emotional Tone-Calm"; "Cognitive Approach-Analytical"]
  /\ Obj.own "Emotional Tone-Calm" next
     = Some {| name := Some "Calm"; category := Some "Emotional Tone";
               intensity := Some "Weak" |}.
Proof.
  intros prev next.
  destruct (intensity_change_in_place "Emotional Tone-Calm" "Weak" prev
              {| name := Some "Calm"; category := Some "Emotional Tone";
                 intensity := Some "Neutral" |} eq_refl) as (Hk & Ho & _).
  fold next in Hk, Ho. rewrite Hk, Ho. split; reflexivity.
Defined.

(** Ticking the check box of a trait changes the selection of no other
    trait of the form. *)
Theorem toggle_touches_one_trait (c t c' t' : string) (prev : Obj.t Entry) :
  offered c t = true -> offered c' t' = true ->
  (c, t) <> (c', t') ->
  Obj.own (traitKey c' t') (handleTraitToggle c t prev)
  = Obj.own (traitKey c' t') prev.
Proof.
  intros H H' Hne.
  assert (traitKey c t <> traitKey c' t') as Hk.
  { intros Hk. destruct (offered_key_inj _ _ _ _ H H' Hk). congruence. }
  destruct (Obj.own (traitKey c t) prev) as [e|] eqn:E.
  - rewrite (toggle_selected _ _ _ _ E). now apply own_delete_other.
  - rewrite (toggle_unselected _ _ _ E), own_app.
    destruct (Obj.own (traitKey c' t') prev); [reflexivity|].
    destruct (String.eqb_spec (traitKey c' t') (traitKey c t)); [congruence|reflexivity].
Qed.

Lemma toggle_touches_one_trait_witness :
  let prev := handleTraitToggle "Problem-Solving Strategy" "Logical" [] in
  Obj.own (traitKey "Problem-Solving Strategy" "Logical")
    (handleTraitToggle "Cognitive Approach" "Detail-oriented" prev)
  = Obj.own (traitKey "Problem-Solving Strategy" "Logical") prev.
Proof.
  intros prev.
  apply (toggle_touches_one_trait "Cognitive Approach" "Detail-oriented"
           "Problem-Solving Strategy" "Logical" prev eq_refl eq_refl).
  discriminate.
Defined.

(** Whatever is done with the check boxes and the intensity menus of the
    form, the selection can be handed to the prompt builder: no trait
    twice, at most thirty-six of them, each with the name and the category
    of a pair the form offers and one of the three intensities; the
    persona made of them is well formed. *)
Theorem form_selection_well_formed (sel : Obj.t Entry) :
  reachable sel ->
  NoDup (Obj.keys sel)
  /\ length sel <= 36
  /\ exists ts,
       traitsOf sel = Some ts
       /\ length ts = length sel
       /\ Forall chosen ts
       /\ forall name llm role knowledgeHub,
            Persona.wf (Persona.mk name llm role (Some ts) knowledgeHub None).
Proof.
  intros [Hnd Hall]%reachable_formed.
  split; [exact Hnd|]. split.
  - change 36 with (length allKeys).
    replace (length sel) with (length (Obj.keys sel)) by apply length_map.
    apply submseteq_length, NoDup_submseteq; [exact Hnd|].
    intros k (ke & -> & Hke)%list_elem_of_fmap.
    eapply Forall_forall in Hall; [|exact Hke].
    destruct Hall as (c & t & i & Hoff & _ & ->). now apply offered_key.
  - destruct (traitsOf_formed sel Hall) as (ts & Hts & Hch & Hlen).
    exists ts. repeat split; try assumption.
    intros. cbn. eapply Forall_impl; [exact Hch|]. apply chosen_wf.
Qed.

Lemma form_selection_well_formed_witness :
  let sel := handleIntensityChange "Emotional Tone-Calm" "Strong"
               (handleTraitToggle "Emotional Tone" "Calm" []) in
  traitsOf sel = Some [Trait.mk "Calm" "Emotional Tone" (Some "Strong")]
  /\ NoDup (Obj.keys sel).
Proof.
  intros sel.
  assert (reachable sel) as H.
  { apply (reachable_control (handleTraitToggle "Emotional Tone" "Calm" [])
             (Select "Emotional Tone" "Calm" "Strong")); [|reflexivity].
    apply (reachable_control [] (CheckBox "Emotional Tone" "Calm"));
      [apply reachable_empty|reflexivity]. }
  split; [reflexivity|].
  exact (proj1 (form_selection_well_formed sel H)).
Defined.

End TraitFormProps.

Module TraitFormEdge.
Import JS TraitForm TraitFormFacts.

Lemma elem_of_place {V} (o : Obj.t V) k v : (k, v) ∈ Obj.place k v o.
Proof.
  induction o as [|[k0 v0] o IH]; cbn; [constructor|].
  destruct (_ && _); [now apply elem_of_cons; right|constructor].
Qed.

(** [handleIntensityChange] for a key that is not selected (the form never
    calls it so) leaves an entry that has an intensity and nothing else:
    the prompt builder, which reads the name of every trait, cannot take
    the selection. *)
Theorem intensity_of_unselected_has_no_name (key i : string) (prev : Obj.t Entry) :
  Obj.own key prev = None ->
  let next := handleIntensityChange key i prev in
  {| name := None; category := None; intensity := Some i |} ∈ Obj.values next
  /\ traitsOf next = None.
Proof.
  intros H next.
  assert ((key, {| name := None; category := None; intensity := Some i |}) ∈ next) as Hin.
  { subst next. unfold handleIntensityChange, Obj.define. rewrite H. cbn [withIntensity].
    destruct (Obj.isIndex key); [apply elem_of_place|].
    apply elem_of_app. right. constructor. }
  assert ({| name := None; category := None; intensity := Some i |} ∈ Obj.values next)
    as Hv.
  { unfold Obj.values. apply list_elem_of_fmap. eexists. split; [|exact Hin]. reflexivity. }
  split; [exact Hv|].
  destruct (traitsOf next) as [ts|] eqn:E; [|reflexivity]. exfalso.
  assert (is_Some (mapM toTrait (Obj.values next))) as Hs by (now exists ts).
  apply mapM_is_Some_1 in Hs. eapply Forall_forall in Hs; [|exact Hv].
  destruct Hs as [x Hx]. discriminate.
Qed.

Lemma intensity_of_unselected_has_no_name_witness :
  traitsOf (handleIntensityChange "7" "Strong"
              (handleTraitToggle "Emotional Tone" "Calm" [])) = None
  /\ Obj.keys (handleIntensityChange "7" "Strong"
                 (handleTraitToggle "Emotional Tone" "Calm" []))
     = ["7"; "Emotional Tone-Calm"].
Proof.
  split; [|reflexivity].
  exact (proj2 (intensity_of_unselected_has_no_name "7" "Strong"
                  (handleTraitToggle "Emotional Tone" "Calm" []) eq_refl)).
Defined.

End TraitFormEdge.

(** ** The persona form *)

Module PersonaFormProps.
Import JS PersonaForm.

Lemma keep_later {A} (l : list A) : forall k j,
  j < k ->
  map snd (filter (fun ix : nat * A => ix.1 <> j) (imap (fun i x => (k + i, x)) l)) = l.
Proof.
  induction l as [|x l IH]; intros k j Hlt; [reflexivity|].
  cbn [imap]. rewrite filter_cons.
  destruct (decide ((k + 0, x).1 <> j)) as [_|H]; [|cbn in H; lia].
  cbn [map snd]. f_equal.
  rewrite (imap_ext _ (fun i y => (S k + i, y))) by (intros; cbn; f_equal; lia).
  apply IH. lia.
Qed.

Lemma withoutIndex_shift {A} (l : list A) : forall k index,
  map snd (filter (fun ix : nat * A => ix.1 <> k + index)
             (imap (fun i x => (k + i, x)) l))
  = take index l ++ drop (S index) l.
Proof.
  induction l as [|x l IH]; intros k index; [now destruct index|].
  cbn [imap]. rewrite filter_cons.
  rewrite (imap_ext _ (fun i y => (S k + i, y))) by (intros; cbn; f_equal; lia).
  destruct index as [|index].
  - destruct (decide ((k + 0, x).1 <> k + 0)) as [H|_]; [cbn in H; lia|].
    cbn [take drop app]. apply keep_later. lia.
  - destruct (decide ((k + 0, x).1 <> k + S index)) as [_|H]; [|cbn in H; lia].
    cbn [map snd take drop app]. f_equal.
    replace (k + S index) with (S k + index) by lia. apply IH.
Qed.

(** The waste bin beside an uploaded file removes that file and no other:
    the files before it and after it stay, in their order. An index beyond
    the list removes nothing. *)
Theorem remove_file_removes_one (index : nat) (s : State) :
  uploadedFiles (removeFile index s)
  = take index (uploadedFiles s) ++ drop (S index) (uploadedFiles s)
  /\ (index < length (uploadedFiles s) ->
      S (length (uploadedFiles (removeFile index s))) = length (uploadedFiles s))
  /\ (length (uploadedFiles s) <= index -> removeFile index s = s).
Proof.
  assert (withoutIndex index (uploadedFiles s)
          = take index (uploadedFiles s) ++ drop (S index) (uploadedFiles s)) as H
    by exact (withoutIndex_shift (uploadedFiles s) 0 index).
  split; [exact H|]. split.
  - intros Hlt. cbn [removeFile setUploadedFiles uploadedFiles].
    rewrite H, length_app, length_take, length_drop. lia.
  - intros Hge. unfold removeFile, setUploadedFiles.
    rewrite H, take_ge, drop_ge, app_nil_r by lia. now destruct s.
Qed.

Lemma editing_keeps_timers (edits : list Action) : forall s,
  Forall editing edits -> timers (steps s edits) = timers s.
Proof.
  induction edits as [|a edits IH]; intros s H; [reflexivity|].
  apply Forall_cons in H as [Ha H].
  change (steps s (a :: edits)) with (steps (handle a s) edits). rewrite (IH _ H).
  destruct a; cbn in *; tauto.
Qed.

Lemma backstories_mention (name role story : string) :
  story ∈ backstories name role ->
  includes story name /\ includes story (toLowerCase role).
Proof.
  unfold backstories. intros H.
  repeat (apply elem_of_cons in H as [->|H]); [| | |inversion H].
  - split.
    + exists "", (" grew up in a family of engineers, developing a keen analytical mind and attention to detail. Their " +:+ toLowerCase role +:+ " stems from years of observing complex systems and finding elegant solutions to intricate problems."). reflexivity.
    + apply includes_app_r, includes_app_r, includes_app_l, includes_refl.
  - split.
    + apply includes_app_r, includes_app_l, includes_refl.
    + apply includes_app_r, includes_app_r, includes_app_r, includes_app_l,
        includes_refl.
  - split.
    + apply includes_app_l, includes_refl.
    + apply includes_app_r, includes_app_r, includes_app_l, includes_refl.
Qed.

(** The backstory that arrives two seconds after the Generate button was
    pressed is one of the three of [backstories] for the name and the role
    the form had when the button was pressed; it names both; and it
    replaces whatever the knowledge box holds by then. *)
Theorem backstory_is_of_the_moment_pressed (s : State) (edits : list Action)
    (random : nat) :
  timers s = [] ->
  Forall editing edits ->
  let s' := steps s (GenerateBackstory :: edits ++ [TimerFires random]) in
  let story := knowledgeHub (formData s') in
  story ∈ backstories (name (formData s)) (role (formData s))
  /\ includes story (name (formData s))
  /\ includes story (toLowerCase (role (formData s)))
  /\ isGeneratingBackstory s' = false
  /\ timers s' = [].
Proof.
  intros Ht Hed s' story.
  assert (story ∈ backstories (name (formData s)) (role (formData s))
          /\ isGeneratingBackstory s' = false /\ timers s' = []) as (Hin & Hg & Ht').
  { subst story s'. unfold steps. cbn [fold_left]. rewrite fold_left_app.
    cbn [fold_left handle].
    fold (steps (generateBackstory s) edits).
    pose proof (editing_keeps_timers edits (generateBackstory s) Hed) as Hk.
    cbn in Hk. rewrite Ht in Hk. cbn in Hk.
    unfold timerFires. rewrite Hk.
    assert (random mod 3 < 3) as Hlt by (apply Nat.mod_upper_bound; lia).
    destruct (random mod 3) as [|[|[|n]]]; [| | |lia]; cbn;
      (split; [|split; reflexivity]).
    - left.
    - right. left.
    - right. right. left. }
  destruct (backstories_mention _ _ _ Hin). auto.
Qed.

Lemma backstory_is_of_the_moment_pressed_witness :
  let s := steps init [TypeName "Ada"; TypeRole "Chief Engineer"] in
  let s' := steps s [GenerateBackstory; TypeName "Grace"; TypeKnowledge "typed";
                     TimerFires 4] in
  knowledgeHub (formData s')
  = "With a background in creative arts and business strategy, Ada brings a unique perspective to their role as chief engineer. They believe in challenging conventional wisdom and pushing boundaries."
  /\ includes (knowledgeHub (formData s')) "Ada".
Proof.
  intros s s'. split; [reflexivity|].
  exact (proj1 (proj2 (backstory_is_of_the_moment_pressed s
                         [TypeName "Grace"; TypeKnowledge "typed"] 4 eq_refl
                         ltac:(repeat constructor)))).
Defined.

Lemma remove_file_removes_one_witness :
  let a := {| fileName := "a.txt"; size := 1 |} in
  let b := {| fileName := "b.pdf"; size := 2 |} in
  let c := {| fileName := "c.docx"; size := 3 |} in
  uploadedFiles (removeFile 1 (handleFileUpload [a; b; c] init)) = [a; c].
Proof.
  intros a b c.
  rewrite (proj1 (remove_file_removes_one 1 (handleFileUpload [a; b; c] init))).
  reflexivity.
Defined.

End PersonaFormProps.

(** ** The environment form *)

Module EnvironmentFormProps.
Import JS EnvironmentForm.

Lemma isParticipant_elem (persona : Stored) (l : list Stored) :
  isParticipant persona l = true <-> id persona ∈ map id l.
Proof.
  unfold isParticipant. rewrite list_elem_of_fmap. split.
  - intros (p & Hp & H%String.eqb_eq)%existsb_exists.
    exists p. split; [now symmetry|now apply list_elem_of_In].
  - intros (p & Hp & Hin). apply existsb_exists. exists p.
    split; [now apply list_elem_of_In|]. now apply String.eqb_eq.
Qed.

Lemma isParticipant_false (persona : Stored) (l : list Stored) :
  isParticipant persona l = false <-> id persona ∉ map id l.
Proof.
  rewrite <- isParticipant_elem. destruct (isParticipant persona l); split;
    congruence.
Qed.

Lemma ids_filter (k : string) (l : list Stored) :
  map id (filter (fun p => id p <> k) l) = filter (fun i => i <> k) (map id l).
Proof.
  induction l as [|p l IH]; [reflexivity|].
  cbn [map]. rewrite !filter_cons. destruct (decide _); cbn; now rewrite IH.
Qed.

(** Ticking the check box of a persona changes whether that persona takes
    part, and for no persona with another [id]. *)
Theorem participant_toggle_flips_one (persona : Stored) (prev : FormData) :
  let next := handleParticipantToggle persona prev in
  isParticipant persona (participants next)
  = negb (isParticipant persona (participants prev))
  /\ forall other, id other <> id persona ->
       isParticipant other (participants next)
       = isParticipant other (participants prev).
Proof.
  cbv zeta. unfold handleParticipantToggle. cbn [participants withParticipants].
  destruct (isParticipant persona (participants prev)) eqn:E; cbn [negb]; split.
  - apply isParticipant_false. rewrite ids_filter, list_elem_of_filter. tauto.
  - intros other Hne.
    destruct (isParticipant other (participants prev)) eqn:E'.
    + apply isParticipant_elem. apply isParticipant_elem in E'.
      rewrite ids_filter, list_elem_of_filter. tauto.
    + apply isParticipant_false. apply isParticipant_false in E'.
      rewrite ids_filter, list_elem_of_filter. tauto.
  - apply isParticipant_elem. rewrite map_app, elem_of_app. right. cbn. left.
  - intros other Hne.
    destruct (isParticipant other (participants prev)) eqn:E'.
    + apply isParticipant_elem. apply isParticipant_elem in E'.
      rewrite map_app, elem_of_app. now left.
    + apply isParticipant_false. apply isParticipant_false in E'.
      rewrite map_app, elem_of_app. cbn. rewrite elem_of_cons.
      intros [?|[?|H]]; [tauto|tauto|inversion H].
Qed.

Lemma filter_absent (persona : Stored) (l : list Stored) :
  isParticipant persona l = false ->
  filter (fun p => id p <> id persona) l = l.
Proof.
  intros H%isParticipant_false. induction l as [|p l IH]; [reflexivity|].
  cbn [map] in H. apply not_elem_of_cons in H as [Hne H].
  rewrite filter_cons. destruct (decide _) as [_|Hd];
    [|exfalso; apply Hd; congruence].
  now rewrite IH.
Qed.

Lemma toggle_keeps_distinct (persona : Stored) (prev : FormData) :
  NoDup (map id (participants prev)) ->
  NoDup (map id (participants (handleParticipantToggle persona prev))).
Proof.
  intros Hnd. unfold handleParticipantToggle. cbn [participants withParticipants].
  destruct (isParticipant persona (participants prev)) eqn:E.
  - rewrite ids_filter. now apply NoDup_filter.
  - rewrite map_app. apply NoDup_app. split; [exact Hnd|]. split.
    + intros k Hk [->|H]%elem_of_cons; [|inversion H].
      now apply isParticipant_false in E.
    + apply NoDup_singleton.
Qed.

(** Ticking the check box of a persona that takes no part, and ticking it
    again, leaves the form as it was; and however the boxes are ticked, no
    [id] comes to be twice among the participants. *)
Theorem participant_toggle_twice (persona : Stored) (prev : FormData) :
  (isParticipant persona (participants prev) = false ->
   handleParticipantToggle persona (handleParticipantToggle persona prev) = prev)
  /\ (NoDup (map id (participants prev)) ->
      NoDup (map id (participants (handleParticipantToggle persona prev)))).
Proof.
  split.
  - intros H. unfold handleParticipantToggle at 2. rewrite H.
    unfold handleParticipantToggle. cbn [participants withParticipants].
    assert (isParticipant persona (participants prev ++ [persona]) = true) as ->.
    { apply isParticipant_elem. rewrite map_app, elem_of_app. right. left. }
    rewrite filter_app, (filter_absent _ _ H), filter_cons.
    destruct (decide _) as [Hd|_]; [congruence|].
    rewrite filter_nil, app_nil_r. now destruct prev.
  - apply toggle_keeps_distinct.
Qed.

Lemma participant_toggle_twice_witness :
  let ada := {| id := "p1"; fields := Sample.ada |} in
  let bob := {| id := "p2"; fields := Sample.bob |} in
  let prev := handleParticipantToggle bob blank in
  handleParticipantToggle ada (handleParticipantToggle ada prev) = prev
  /\ NoDup (map id (participants (handleParticipantToggle ada prev))).
Proof.
  intros ada bob prev. split.
  - exact (proj1 (participant_toggle_twice ada prev) eq_refl).
  - apply (proj2 (participant_toggle_twice ada prev)).
    apply (bool_decide_unpack _). vm_compute. exact I.
Defined.

(** What the controls keep true of the form. *)
Lemma reachable_participants (personas : list Stored) (d : FormData) :
  reachable personas d ->
  (interactionMode d = "" \/ interactionMode d ∈ modes)
  /\ participants d ⊆ personas
  /\ (NoDup (map id personas) -> NoDup (map id (participants d))).
Proof.
  induction 1 as [|d [v|v|i|i|v|v|v] f _ (Hm & Hsub & Hnd) Hb];
    try (unfold bound in Hb).
  - split; [now left|]. split; [apply list_subseteq_nil|constructor].
  - injection Hb as <-. now cbn.
  - injection Hb as <-. now cbn.
  - destruct (personas !! i) as [p|] eqn:Hp; [|discriminate]. injection Hb as <-.
    split; [exact Hm|]. split.
    + unfold handleParticipantToggle. cbn [participants withParticipants].
      destruct (isParticipant _ _).
      * intros x Hx%list_elem_of_filter. now apply Hsub.
      * intros x [Hx|[->|Hx]%elem_of_cons]%elem_of_app;
          [now apply Hsub| |inversion Hx]. eapply list_elem_of_lookup_2, Hp.
    + intros H. apply toggle_keeps_distinct, Hnd, H.
  - destruct (modes !! i) as [m|] eqn:Hi; [|discriminate]. injection Hb as <-.
    split; [|now cbn]. right. cbn. eapply list_elem_of_lookup_2, Hi.
  - injection Hb as <-. now cbn.
  - injection Hb as <-. now cbn.
  - injection Hb as <-. now cbn.
Qed.

(** When the form is submitted, it is turned down and kept as it is, or an
    environment is made of it and the form is blank again. An environment
    that is made has a name, one of the three modes, and at least one
    participant; its participants are personas of the list the form
    showed, none of them twice if that list has none twice. *)
Theorem submitted_environment_is_complete (personas : list Stored) (d : FormData)
    (now : Z) (iso : string) :
  reachable personas d ->
  let r := handleSubmit now iso d in
  match accepted r with
  | None =>
      formAfter r = d
      /\ (name d = "" \/ interactionMode d = "" \/ participants d = [])
  | Some e =>
      formAfter r = blank
      /\ form e = d /\ createdId e = now /\ createdAt e = iso
      /\ name d <> ""
      /\ interactionMode d ∈ modes
      /\ participants d <> []
      /\ participants d ⊆ personas
      /\ (NoDup (map id personas) -> NoDup (map id (participants d)))
  end.
Proof.
  intros (Hm & Hsub & Hnd)%reachable_participants r. subst r. unfold handleSubmit.
  unfold truthy.
  destruct (String.eqb_spec (name d) "") as [Hn|Hn]; cbn [negb orb].
  { cbn. auto. }
  destruct (String.eqb_spec (interactionMode d) "") as [Hi|Hi]; cbn [negb orb].
  { cbn. auto. }
  destruct (participants d) as [|p ps] eqn:Hp; cbn.
  { auto. }
  repeat split; try assumption; try discriminate.
  destruct Hm as [?|?]; [contradiction|assumption].
Qed.

Lemma submitted_environment_is_complete_witness :
  let ada := {| id := "p1"; fields := Sample.ada |} in
  let d := withInteractionMode "manual"
             (handleParticipantToggle ada (withName "Team Brainstorm" blank)) in
  accepted (handleSubmit 1700000000000 "2023-11-14T22:13:20.000Z" d)
  = Some {| form := d; createdId := 1700000000000;
            createdAt := "2023-11-14T22:13:20.000Z" |}
  /\ interactionMode d ∈ modes.
Proof.
  intros ada d.
  assert (reachable [ada] d) as H.
  { apply (reachable_control [ada] _ (ModeRadio 1)); [|reflexivity].
    apply (reachable_control [ada] _ (ParticipantBox 0)); [|reflexivity].
    apply (reachable_control [ada] _ (NameBox "Team Brainstorm")); [|reflexivity].
    apply reachable_blank. }
  pose proof (submitted_environment_is_complete [ada] d 1700000000000
                "2023-11-14T22:13:20.000Z" H) as Hs.
  cbv zeta in Hs.
  change (accepted (handleSubmit 1700000000000 "2023-11-14T22:13:20.000Z" d))
    with (Some {| form := d; createdId := 1700000000000;
                  createdAt := "2023-11-14T22:13:20.000Z" |}) in Hs |- *.
  split; [reflexivity|]. apply Hs.
Defined.

End EnvironmentFormProps.

(** ** The application *)

Module AppProps.
Import JS Adapter App.

Lemma shown_page (s : State) :
  currentPage s ∈ pages -> exists k, shown s = [k].
Proof.
  unfold pages, shown. intros H.
  destruct (showApiSettings s); cbn [negb andb].
  - now exists ApiSettings.
  - repeat (apply elem_of_cons in H as [->|H]); [| | | |inversion H]; cbn; eauto.
Qed.

Lemma handle_pages (a : Action) (s : State) (c : Children) :
  currentPage s ∈ pages -> currentPage (handle a (s, c)).1 ∈ pages.
Proof.
  intros H.
  assert (forall k, k ∈ pages -> k ∈ pages) as Hid by auto.
  destruct a; cbn [handle fst currentPage setCurrentPage];
    try exact H;
    try (unfold pages; rewrite !elem_of_cons; now auto);
    try (destruct (showApiSettings s); exact H).
  - destruct (EnvironmentForm.bound _ _); exact H.
  - destruct (environmentForm c) as [d|]; [|exact H]. cbv zeta.
    destruct (EnvironmentForm.accepted _); [|exact H].
    unfold pages. cbn. left.
Qed.

Lemma step_fst (a : Action) (sc : State * Children) :
  (step sc a).1 = (handle a sc).1.
Proof. unfold step. now destruct (handle a sc). Qed.

(** Whatever is done, [<main>] shows one component, never two and never
    none: [currentPage] is only ever set to the name of a page. *)
Theorem one_component_shown (acts : list Action) (sc : State * Children) :
  currentPage sc.1 ∈ pages ->
  currentPage (steps sc acts).1 ∈ pages
  /\ length (shown (steps sc acts).1) = 1.
Proof.
  revert sc. induction acts as [|a acts IH]; intros [s c] H.
  - split; [exact H|]. cbn [steps fold_left fst].
    destruct (shown_page s H) as [k ->]. reflexivity.
  - cbn [steps fold_left]. apply IH. rewrite step_fst. now apply handle_pages.
Qed.

Lemma one_component_shown_witness :
  shown (steps start [GoSimulation; OpenApiSettings; GoCreatePersona]).1
  = [ApiSettings]
  /\ length (shown (steps start [GoSimulation; OpenApiSettings; GoCreatePersona]).1)
     = 1.
Proof.
  split; [reflexivity|].
  apply (one_component_shown [GoSimulation; OpenApiSettings; GoCreatePersona] start).
  unfold pages. cbn. left.
Defined.

(** A key typed in the API settings is the key of the application at
    once: leaving the settings with Cancel gives the same state as leaving
    them with Save, the key typed still in place. *)
Theorem cancel_keeps_typed_keys (sc : State * Children) (v w : string) :
  let typed := steps sc [OpenApiSettings; TypeOpenAIKey v; TypeClaudeKey w] in
  step typed CancelApiSettings = step typed SaveApiKeys
  /\ apiKeys (step typed CancelApiSettings).1 = {| openai := v; claude := w |}
  /\ showApiSettings (step typed CancelApiSettings).1 = false.
Proof. destruct sc as [s c]. repeat split. Qed.

(** Opening the API settings takes the page that was shown off the
    screen, and its state is gone: when the settings are closed, the page
    starts again as when first shown. A form is blank; the simulation page
    shows the list of environments, its transcript empty. *)
Theorem settings_visit_resets_page (s : State) (c : Children) :
  let sc' := steps (s, c) [OpenApiSettings; CancelApiSettings] in
  sc'.1 = setShowApiSettings false s
  /\ sc'.2 = reconcile sc'.1 {| personaForm := None; environmentForm := None;
                                simulation := None |}
  /\ (currentPage s = "simulation" -> simulation sc'.2 = Some Engine.init)
  /\ (currentPage s = "create-environment" ->
      environmentForm sc'.2 = Some EnvironmentForm.init)
  /\ (currentPage s = "create-persona" -> personaForm sc'.2 = Some PersonaForm.init).
Proof.
  cbv zeta. unfold steps. cbn [fold_left]. unfold step at 2. cbn [handle].
  unfold step. cbn [handle showApiSettings setShowApiSettings].
  assert (reconcile (setShowApiSettings true s) c
          = {| personaForm := None; environmentForm := None; simulation := None |})
    as ->.
  { reflexivity. }
  cbn [fst snd].
  assert (setShowApiSettings false (setShowApiSettings true s)
          = setShowApiSettings false s) as -> by reflexivity.
  split; [reflexivity|]. split; [reflexivity|].
  unfold reconcile, shown. cbn [showApiSettings currentPage setShowApiSettings
                                 negb andb simulation environmentForm personaForm].
  repeat split; intros ->; reflexivity.
Qed.

Lemma settings_visit_resets_page_witness :
  let running :=
    steps start [ GoSimulation;
                  InSimulation (Engine.StartSimulation (Sample.room "manual")
                                  Sample.noon) ] in
  (Engine.localChatHistory <$> simulation running.2)
  = Some (Engine.localChatHistory Sample.ready)
  /\ simulation (steps running [OpenApiSettings; CancelApiSettings]).2
     = Some Engine.init.
Proof.
  intros running. split; [reflexivity|].
  destruct running as [s c] eqn:E.
  apply (settings_visit_resets_page s c).
  now injection E as <- _.
Defined.

(** A persona card of the dashboard shows the names of the first three
    traits and announces the number of the others: shown and announced
    together are all the traits. *)
Theorem dashboard_badges_account_for_all (ts : list Trait.t) :
  length (badges ts) + default 0 (more ts) = length ts
  /\ length (badges ts) <= 3
  /\ badges ts `prefix_of` map Trait.name ts
  /\ (more ts = None <-> length ts <= 3).
Proof.
  assert (badges ts `prefix_of` map Trait.name ts) as Hp.
  { exists (map Trait.name (drop 3 ts)). unfold badges.
    now rewrite <- map_app, take_drop. }
  unfold badges, more in *. rewrite length_map, length_take.
  destruct (Nat.ltb_spec 3 (length ts)); cbn -[Nat.min Nat.sub];
    repeat split; try lia; try discriminate; exact Hp.
Qed.

End AppProps.

(** ** Key obfuscation *)

Module Base64Facts.
Import Base64.

Example btoa_vectors :
  map (fun s => btoa (units s)) [""; "f"; "fo"; "foo"; "foob"; "fooba"; "foobar"]
  = map Some [""; "Zg=="; "Zm8="; "Zm9v"; "Zm9vYg=="; "Zm9vYmE="; "Zm9vYmFy"].
Proof. reflexivity. Qed.

(** [btoa] of a y with diaeresis (255), of a Greek pi (960), and of a key
    that holds one. *)
Example btoa_above_255 :
  map btoa [[255]; [960]; [115; 107; 45; 960]] = [Some "/w=="; None; None].
Proof. reflexivity. Qed.

Example atob_vectors :
  map atob ["Zg=="; "Zg"; " Z m 8 = "; "Zm9vYmFy"; "Zm9vYmF"; "Zm9vY"; "Zg="; "Z*=="]
  = [Some "f"; Some "f"; Some "fo"; Some "foobar"; Some "fooba"; None; None; None].
Proof. reflexivity. Qed.

Lemma list_ind3 {A} (P : list A -> Prop) :
  P [] -> (forall a, P [a]) -> (forall a b, P [a; b]) ->
  (forall a b c r, P r -> P (a :: b :: c :: r)) ->
  forall l, P l.
Proof.
  intros H0 H1 H2 H3.
  refine (fix F l := match l with
                     | [] => H0
                     | [a] => H1 a
                     | [a; b] => H2 a b
                     | a :: b :: c :: r => H3 a b c r (F r)
                     end).
Qed.

Lemma value_digit (n : nat) : n < 64 -> value (digit n) = Some n.
Proof. intros H. do 64 (destruct n as [|n]; [reflexivity|]). lia. Qed.

Lemma digit_plain (n : nat) :
  n < 64 -> isWhitespace (digit n) = false /\ digit n <> "="%char.
Proof.
  intros H. do 64 (destruct n as [|n]; [split; [reflexivity|discriminate]|]). lia.
Qed.

Lemma sextets_bound (l : list ascii) : Forall (fun n => n < 64) (sextets l).
Proof.
  induction l as [|a|a b|a b c r IH] using list_ind3; cbn [sextets].
  - constructor.
  - pose proof (nat_ascii_bounded a).
    pose proof (Nat.mod_upper_bound (nat_of_ascii a) 4).
    assert (nat_of_ascii a / 4 < 64) by (apply Nat.Div0.div_lt_upper_bound; lia).
    repeat apply Forall_cons_2; try apply Forall_nil_2; lia.
  - pose proof (nat_ascii_bounded a). pose proof (nat_ascii_bounded b).
    pose proof (Nat.mod_upper_bound (nat_of_ascii a) 4).
    pose proof (Nat.mod_upper_bound (nat_of_ascii b) 16).
    assert (nat_of_ascii a / 4 < 64) by (apply Nat.Div0.div_lt_upper_bound; lia).
    assert (nat_of_ascii b / 16 < 16) by (apply Nat.Div0.div_lt_upper_bound; lia).
    repeat apply Forall_cons_2; try apply Forall_nil_2; lia.
  - pose proof (nat_ascii_bounded a). pose proof (nat_ascii_bounded b).
    pose proof (nat_ascii_bounded c).
    pose proof (Nat.mod_upper_bound (nat_of_ascii a) 4).
    pose proof (Nat.mod_upper_bound (nat_of_ascii b) 16).
    pose proof (Nat.mod_upper_bound (nat_of_ascii c) 64).
    assert (nat_of_ascii a / 4 < 64) by (apply Nat.Div0.div_lt_upper_bound; lia).
    assert (nat_of_ascii b / 16 < 16) by (apply Nat.Div0.div_lt_upper_bound; lia).
    assert (nat_of_ascii c / 64 < 4) by (apply Nat.Div0.div_lt_upper_bound; lia).
    repeat apply Forall_cons_2; try exact IH; lia.
Qed.

Lemma bytes_sextets (l : list ascii) : bytes (sextets l) = l.
Proof.
  induction l as [|a|a b|a b c r IH] using list_ind3; cbn [sextets bytes].
  - reflexivity.
  - f_equal. rewrite <- (ascii_nat_embedding a) at 3. f_equal.
    pose proof (Nat.div_mod_eq (nat_of_ascii a) 4).
    pose proof (Nat.mod_upper_bound (nat_of_ascii a) 4).
    rewrite Nat.div_mul by lia. lia.
  - pose proof (Nat.div_mod_eq (nat_of_ascii a) 4).
    pose proof (Nat.mod_upper_bound (nat_of_ascii a) 4).
    pose proof (Nat.div_mod_eq (nat_of_ascii b) 16).
    pose proof (Nat.mod_upper_bound (nat_of_ascii b) 16).
    pose proof (nat_ascii_bounded b).
    assert (nat_of_ascii b / 16 < 16) by (apply Nat.Div0.div_lt_upper_bound; lia).
    assert ((nat_of_ascii a mod 4 * 16 + nat_of_ascii b / 16) / 16
            = nat_of_ascii a mod 4) as E1.
    { rewrite Nat.add_comm, Nat.div_add by lia. rewrite Nat.div_small by lia. lia. }
    assert ((nat_of_ascii a mod 4 * 16 + nat_of_ascii b / 16) mod 16
            = nat_of_ascii b / 16) as E2.
    { rewrite Nat.add_comm, Nat.Div0.mod_add. apply Nat.mod_small. lia. }
    assert (nat_of_ascii b mod 16 * 4 / 4 = nat_of_ascii b mod 16) as E3
      by (apply Nat.div_mul; lia).
    rewrite E1, E2, E3.
    f_equal; [|f_equal].
    + rewrite <- (ascii_nat_embedding a) at 3. f_equal. lia.
    + rewrite <- (ascii_nat_embedding b) at 3. f_equal. lia.
  - pose proof (Nat.div_mod_eq (nat_of_ascii a) 4).
    pose proof (Nat.mod_upper_bound (nat_of_ascii a) 4).
    pose proof (Nat.div_mod_eq (nat_of_ascii b) 16).
    pose proof (Nat.mod_upper_bound (nat_of_ascii b) 16).
    pose proof (Nat.div_mod_eq (nat_of_ascii c) 64).
    pose proof (Nat.mod_upper_bound (nat_of_ascii c) 64).
    pose proof (nat_ascii_bounded b). pose proof (nat_ascii_bounded c).
    assert (nat_of_ascii b / 16 < 16) by (apply Nat.Div0.div_lt_upper_bound; lia).
    assert (nat_of_ascii c / 64 < 4) by (apply Nat.Div0.div_lt_upper_bound; lia).
    assert ((nat_of_ascii a mod 4 * 16 + nat_of_ascii b / 16) / 16
            = nat_of_ascii a mod 4) as E1.
    { rewrite Nat.add_comm, Nat.div_add by lia. rewrite Nat.div_small by lia. lia. }
    assert ((nat_of_ascii a mod 4 * 16 + nat_of_ascii b / 16) mod 16
            = nat_of_ascii b / 16) as E2.
    { rewrite Nat.add_comm, Nat.Div0.mod_add. apply Nat.mod_small. lia. }
    assert ((nat_of_ascii b mod 16 * 4 + nat_of_ascii c / 64) / 4
            = nat_of_ascii b mod 16) as E3.
    { rewrite Nat.add_comm, Nat.div_add by lia. rewrite Nat.div_small by lia. lia. }
    assert ((nat_of_ascii b mod 16 * 4 + nat_of_ascii c / 64) mod 4
            = nat_of_ascii c / 64) as E4.
    { rewrite Nat.add_comm, Nat.Div0.mod_add. apply Nat.mod_small. lia. }
    rewrite E1, E2, E3, E4, IH.
    f_equal; [|f_equal; [|f_equal]].
    + rewrite <- (ascii_nat_embedding a) at 3. f_equal. lia.
    + rewrite <- (ascii_nat_embedding b) at 3. f_equal. lia.
    + rewrite <- (ascii_nat_embedding c) at 3. f_equal. lia.
Qed.

Lemma sextets_length (l : list ascii) :
  length (sextets l) mod 4
  = match length l mod 3 with 0 => 0 | 1 => 2 | _ => 3 end.
Proof.
  induction l as [|a|a b|a b c r IH] using list_ind3; try reflexivity.
  cbn [sextets length].
  change (S (S (S (S (length (sextets r)))))) with (4 + length (sextets r)).
  change (S (S (S (length r)))) with (3 + length r).
  replace (4 + length (sextets r)) with (length (sextets r) + 1 * 4) by lia.
  replace (3 + length r) with (length r + 1 * 3) by lia.
  now rewrite !Nat.Div0.mod_add.
Qed.

Lemma digits_plain (g : list nat) :
  Forall (fun n => n < 64) g ->
  Forall (fun c => isWhitespace c = false /\ c <> "="%char) (map digit g).
Proof.
  induction 1 as [|n g Hn _ IH]; cbn; constructor; [|exact IH].
  now apply digit_plain.
Qed.

Lemma digits_value (g : list nat) :
  Forall (fun n => n < 64) g -> mapM value (map digit g) = Some g.
Proof.
  induction 1 as [|n g Hn _ IH]; [reflexivity|].
  cbn -[value digit]. rewrite (value_digit n Hn). cbn -[value digit].
  now rewrite IH.
Qed.

Lemma filter_plain (l : list ascii) :
  Forall (fun c => isWhitespace c = false) l ->
  filter (fun c => isWhitespace c = false) l = l.
Proof.
  induction 1 as [|c l Hc _ IH]; [reflexivity|].
  rewrite filter_cons. destruct (decide _); [|contradiction]. now rewrite IH.
Qed.

(** Digits, then the padding, then the padding taken off: the digits. *)
Lemma unpad_digits (e : list ascii) (n : nat) :
  Forall (fun c => c <> "="%char) e -> unpad (e ++ padding n) = e.
Proof.
  intros He.
  assert (forall r, reverse e = r ->
            match r with
            | "="%char :: _ => False
            | _ => True
            end) as Hlast.
  { intros r <-. destruct (reverse e) as [|c r] eqn:E; [exact I|].
    assert (c ∈ e) as Hc by (apply elem_of_reverse; rewrite E; left).
    eapply Forall_forall in He; [|exact Hc].
    destruct (Ascii.eqb_spec c "="); [contradiction|].
    destruct c as [[] [] [] [] [] [] [] []]; try exact I. contradiction. }
  unfold unpad, padding. destruct (n mod 3) as [|[|[|k]]].
  - rewrite app_nil_r. specialize (Hlast _ eq_refl).
    destruct (reverse e) as [|c r]; [reflexivity|].
    destruct c as [[] [] [] [] [] [] [] []]; try reflexivity. contradiction.
  - rewrite reverse_app.
    change (reverse ["="%char; "="%char]) with ["="%char; "="%char]. cbn [app].
    apply reverse_involutive.
  - rewrite reverse_app.
    change (reverse ["="%char]) with ["="%char]. cbn [app].
    specialize (Hlast _ eq_refl).
    destruct (reverse e) as [|c r] eqn:E.
    + apply (f_equal reverse) in E. rewrite reverse_involutive in E. now subst e.
    + destruct c as [[] [] [] [] [] [] [] []];
        try (rewrite <- E; apply reverse_involutive). contradiction.
  - rewrite app_nil_r. specialize (Hlast _ eq_refl).
    destruct (reverse e) as [|c r]; [reflexivity|].
    destruct c as [[] [] [] [] [] [] [] []]; try reflexivity. contradiction.
Qed.

Lemma encode_length (l : list ascii) : length (encode l) mod 4 = 0.
Proof.
  unfold encode. rewrite length_app, length_map, Nat.Div0.add_mod, sextets_length.
  unfold padding.
  pose proof (Nat.mod_upper_bound (length l) 3 ltac:(lia)) as Hlt.
  destruct (length l mod 3) as [|[|[|k]]]; [reflexivity..|lia].
Qed.

Lemma decode_encode (l : list ascii) : decode (encode l) = Some l.
Proof.
  pose proof (digits_plain _ (sextets_bound l)) as Hp.
  assert (Forall (fun c => isWhitespace c = false) (encode l)) as Hw.
  { unfold encode. apply Forall_app. split.
    - eapply Forall_impl; [exact Hp|]. now intros c [? _].
    - unfold padding. destruct (length l mod 3) as [|[|[|k]]]; repeat constructor. }
  unfold decode. rewrite (filter_plain _ Hw), encode_length. cbn [Nat.eqb].
  unfold encode. rewrite unpad_digits
    by (eapply Forall_impl; [exact Hp|]; now intros c [_ ?]).
  rewrite length_map.
  assert ((length (sextets l) mod 4 =? 1) = false) as ->.
  { rewrite sextets_length. now destruct (length l mod 3) as [|[|k]]. }
  rewrite (digits_value _ (sextets_bound l)). cbn. now rewrite bytes_sextets.
Qed.

End Base64Facts.

Module UtilsProps.
Import Base64 Base64Facts Utils.

Lemma string_of_list_length (l : list ascii) :
  String.length (String.string_of_list_ascii l) = length l.
Proof. induction l as [|c l IH]; [reflexivity|]. cbn. now rewrite IH. Qed.

Lemma encode_size (l : list ascii) : length (encode l) = 4 * ((length l + 2) / 3).
Proof.
  induction l as [|a|a b|a b c r IH] using list_ind3; try reflexivity.
  unfold encode in *. cbn [sextets length map app].
  rewrite length_app, length_map in IH.
  change (S (S (S (length r)))) with (3 + length r).
  assert (padding (3 + length r) = padding (length r)) as ->.
  { unfold padding. replace (3 + length r) with (length r + 1 * 3) by lia.
    now rewrite Nat.Div0.mod_add. }
  rewrite length_app, length_map.
  replace (3 + length r + 2) with (length r + 2 + 1 * 3) by lia.
  rewrite Nat.div_add by lia. lia.
Qed.

(** The bytes of a sequence of code units: there are some exactly when no
    unit is above 255, and they are the units. *)
Lemma binary_Some (data : list nat) (l : list ascii) :
  binary data = Some l ->
  Forall (fun u => u < 256) data /\ map nat_of_ascii l = data.
Proof.
  revert l. induction data as [|u data IH]; intros l.
  - intros [= <-]. split; [constructor|reflexivity].
  - unfold binary. cbn [mapM]. destruct (Nat.ltb_spec u 256) as [Hu|Hu];
      [|discriminate].
    cbn [mbind option_bind]. fold (binary data).
    destruct (binary data) as [r|]; [|discriminate].
    cbn. intros [= <-]. destruct (IH r eq_refl) as [Hall Hr].
    split; [now constructor|]. cbn [map]. rewrite Hr.
    now rewrite nat_ascii_embedding.
Qed.

Lemma binary_None (data : list nat) :
  binary data = None -> Exists (fun u => 256 <= u) data.
Proof.
  induction data as [|u data IH]; [discriminate|].
  unfold binary. cbn [mapM]. destruct (Nat.ltb_spec u 256) as [Hu|Hu];
    [|intros _; now left].
  cbn [mbind option_bind]. fold (binary data).
  destruct (binary data) as [r|]; [discriminate|].
  intros _. right. now apply IH.
Qed.

Lemma units_string_of_list (l : list ascii) :
  units (String.string_of_list_ascii l) = map nat_of_ascii l.
Proof. unfold units. now rewrite String.list_ascii_of_string_of_list_ascii. Qed.

(** What [encryptApiKey] returns is decrypted to the key. *)
Lemma decrypt_encrypted (key : list nat) (encrypted : string) :
  encryptApiKey key = Some encrypted ->
  Forall (fun u => u < 256) key
  /\ exists decrypted, decryptApiKey encrypted = Some decrypted
                       /\ units decrypted = key.
Proof.
  unfold encryptApiKey, btoa. destruct (binary key) as [l|] eqn:Hb; [|discriminate].
  cbn. intros [= <-]. destruct (binary_Some _ _ Hb) as [Hall Hl].
  split; [exact Hall|]. exists (String.string_of_list_ascii l). split.
  - unfold decryptApiKey, atob.
    now rewrite String.list_ascii_of_string_of_list_ascii, decode_encode.
  - now rewrite units_string_of_list.
Qed.

(** [encryptApiKey] returns for a key whose code units are all below 256,
    and what it returns [decryptApiKey] turns back into the key; so two
    keys are encrypted alike only if they are the same. For a key with a
    code unit above 255 (a letter outside Latin-1, say) [encryptApiKey]
    does not return: the error of [btoa] leaves it. *)
Theorem decrypt_encrypt_round_trip (key : list nat) :
  match encryptApiKey key with
  | Some encrypted =>
      Forall (fun u => u < 256) key
      /\ (exists decrypted, decryptApiKey encrypted = Some decrypted
                            /\ units decrypted = key)
      /\ (forall other, encryptApiKey other = Some encrypted -> other = key)
  | None => Exists (fun u => 256 <= u) key
  end.
Proof.
  destruct (encryptApiKey key) as [encrypted|] eqn:He.
  - destruct (decrypt_encrypted key encrypted He) as (Hall & d & Hd & Hu).
    split; [exact Hall|]. split; [eauto|].
    intros other Ho. destruct (decrypt_encrypted other encrypted Ho) as (_ & d' & Hd' & Hu').
    congruence.
  - unfold encryptApiKey, btoa in He.
    destruct (binary key) eqn:Hb; [discriminate|]. now apply binary_None.
Qed.

(** What [encryptApiKey] returns, when it returns, is four characters for
    every three code units of the key, the last group filled up, all of
    them base64 digits or [=]: no white space and nothing [decryptApiKey]
    would refuse. It returns exactly for the keys without a code unit
    above 255. *)
Theorem encrypted_key_shape (key : list nat) :
  match encryptApiKey key with
  | Some encrypted =>
      Forall (fun u => u < 256) key
      /\ String.length encrypted = 4 * ((length key + 2) / 3)
      /\ Forall (fun c => is_Some (value c) \/ c = "="%char)
           (String.list_ascii_of_string encrypted)
  | None => Exists (fun u => 256 <= u) key
  end.
Proof.
  unfold encryptApiKey, btoa.
  destruct (binary key) as [l|] eqn:Hb; cbn [fmap option_fmap option_map].
  2:{ now apply binary_None. }
  destruct (binary_Some _ _ Hb) as [Hall Hl].
  split; [exact Hall|]. split.
  - rewrite string_of_list_length, encode_size. rewrite <- Hl. now rewrite length_map.
  - rewrite String.list_ascii_of_string_of_list_ascii. unfold encode.
    apply Forall_app. split.
    + pose proof (sextets_bound l) as H.
      induction H as [|n g Hn _ IH]; [constructor|].
      cbn [map]. constructor; [|exact IH]. left. rewrite (value_digit n Hn). eauto.
    + unfold padding. destruct (_ mod 3) as [|[|[|k]]]; repeat constructor; now right.
Qed.

(** [decryptApiKey] answers [null] for a text that holds a character
    which is not a base64 digit, not white space and not [=]: the error
    [atob] raises is caught. *)
Theorem decrypt_rejects_foreign_characters (encryptedKey : string) (c : ascii) :
  c ∈ String.list_ascii_of_string encryptedKey ->
  value c = None -> isWhitespace c = false -> c <> "="%char ->
  decryptApiKey encryptedKey = None.
Proof.
  intros Hin Hv Hw Hne. unfold decryptApiKey, atob, decode.
  set (l := filter _ _).
  assert (c ∈ l) as Hl by (apply list_elem_of_filter; now split).
  assert (c ∈ unpad l) as Hu.
  { unfold unpad. pose proof Hl as Hr. apply elem_of_reverse in Hr.
    destruct (reverse l) as [|x r] eqn:E; [exact Hl|].
    destruct (Ascii.eqb_spec x "=") as [->|Hx].
    - apply elem_of_cons in Hr as [Hc|Hr]; [contradiction|].
      destruct r as [|y r]; [inversion Hr|].
      destruct (Ascii.eqb_spec y "=") as [->|Hy].
      + apply elem_of_cons in Hr as [Hc|Hr]; [contradiction|].
        now apply elem_of_reverse.
      + assert (c ∈ reverse (y :: r)) as Hc by now apply elem_of_reverse.
        destruct y as [[] [] [] [] [] [] [] []]; try exact Hc. contradiction.
    - destruct x as [[] [] [] [] [] [] [] []]; try exact Hl. contradiction. }
  assert (forall m, c ∈ m -> mapM value m = None) as Hnone.
  { intros m Hm. apply mapM_None_2, Exists_exists. now exists c. }
  destruct (length l mod 4 =? 0).
  - destruct (length (unpad l) mod 4 =? 1); [reflexivity|].
    now rewrite (Hnone _ Hu).
  - destruct (length l mod 4 =? 1); [reflexivity|]. now rewrite (Hnone _ Hl).
Qed.

Lemma decrypt_rejects_foreign_characters_witness :
  decryptApiKey "sk-test" = None.
Proof.
  apply (decrypt_rejects_foreign_characters "sk-test" "-").
  - right. right. left.
  - reflexivity.
  - reflexivity.
  - discriminate.
Defined.

End UtilsProps.

(** ** Authentication *)

Module AuthProps.
Import JS Auth.

(** A sign-in that is refused: the error message of the provider is kept
    in [error], nothing is loading, nobody is signed in; and the page is
    shown anew, blank, because the spinner took its place while the call
    was awaited. What had been typed is gone. *)
Theorem refused_sign_in_empties_the_form (w : World) (shown : nat) (p : Page)
    (message : string) :
  page w = Some (shown, p) ->
  isLogin p = true ->
  let w' := steps w [Submit; Reply (length (tasks w)) (Rejected message)] in
  error (context w') = Some message
  /\ loading (context w') = false
  /\ user (context w') = user (context w)
  /\ alerts w' = alerts w
  /\ (user (context w) = None ->
      page w' = Some (showings w, blankPage)).
Proof.
  intros Hp Hlog w'. subst w'. unfold steps. cbn [fold_left].
  assert (step w Submit
          = {| context := {| user := user (context w); loading := true; error := None |};
               page := None; showings := showings w; alerts := alerts w;
               tasks := tasks w ++ [SigningIn] |}) as ->.
  { unfold step. cbn [handle]. unfold handleSubmit. rewrite Hp. cbv zeta.
    rewrite Hlog. cbn [negb andb]. unfold render. cbn. reflexivity. }
  unfold step. cbn [handle]. unfold reply. cbn [tasks].
  rewrite lookup_app_r, Nat.sub_diag by lia. cbn [lookup list_lookup].
  unfold render, screen. cbn.
  destruct (user (context w)) eqn:Hu; cbn; repeat split; try discriminate.
Qed.

Lemma refused_sign_in_empties_the_form_witness :
  let typed := steps signedOut [TypeEmail "ada@example.org"; TypePassword "secret"] in
  let w' := steps typed [Submit; Reply 1 (Rejected "Invalid login credentials")] in
  (email <$> (snd <$> page typed)) = Some "ada@example.org"
  /\ error (context w') = Some "Invalid login credentials"
  /\ (email <$> (snd <$> page w')) = Some "".
Proof.
  intros typed w'. split; [reflexivity|].
  destruct (refused_sign_in_empties_the_form typed 0
              {| isLogin := true; email := "ada@example.org"; password := "secret";
                 fullName := ""; confirmPassword := ""; showResetPassword := false |}
              "Invalid login credentials" eq_refl eq_refl)
    as (He & _ & _ & _ & Hpage).
  split; [exact He|].
  change (steps typed [Submit; Reply (length (tasks typed))
                                 (Rejected "Invalid login credentials")]) with w' in Hpage.
  now rewrite (Hpage eq_refl).
Defined.

(** On the sign-up tab, [handleSubmit] calls [signUp] exactly when the
    two passwords are the same and have six characters or more; otherwise
    it shows one of its two messages and awaits nothing. In both cases the
    error of an earlier attempt is cleared. *)
Theorem sign_up_is_validated (w : World) (shown : nat) (p : Page) :
  page w = Some (shown, p) ->
  isLogin p = false ->
  let w' := handleSubmit w in
  error (context w') = None
  /\ if String.eqb (password p) (confirmPassword p)
        && (6 <=? String.length (password p))%nat
     then tasks w' = tasks w ++ [SigningUp shown]
          /\ alerts w' = alerts w
          /\ loading (context w') = true
     else tasks w' = tasks w
          /\ loading (context w') = loading (context w)
          /\ exists text, alerts w' = alerts w ++ [text]
               /\ (text = "Passwords do not match"
                   \/ text = "Password must be at least 6 characters").
Proof.
  intros Hp Hlog w'. subst w'. unfold handleSubmit. rewrite Hp, Hlog. cbv zeta.
  cbn [negb andb].
  destruct (String.eqb (password p) (confirmPassword p)); cbn [negb andb].
  - destruct (Nat.ltb_spec (String.length (password p)) 6) as [H|H].
    + apply Nat.leb_gt in H. rewrite H. cbn. repeat split. eauto.
    + apply Nat.leb_le in H. rewrite H. cbn. repeat split.
  - cbn. repeat split. eauto.
Qed.

Lemma sign_up_is_validated_witness :
  let form := steps signedOut [SignUpTab; TypeEmail "ada@example.org";
                               TypePassword "abc"; TypeConfirmPassword "abc"] in
  alerts (handleSubmit form) = ["Password must be at least 6 characters"]
  /\ tasks (handleSubmit form) = tasks form.
Proof.
  intros form.
  destruct (sign_up_is_validated form 0
              {| isLogin := false; email := "ada@example.org"; password := "abc";
                 fullName := ""; confirmPassword := "abc"; showResetPassword := false |}
              eq_refl eq_refl) as (_ & Ht & _ & (text & Ha & _)).
  split; [reflexivity|exact Ht].
Defined.

End AuthProps.

(** ** Database helpers *)

Module DbProps.
Import Auth Db.

(** [createEnvironment] writes nothing without a user. With one, the
    environment is inserted first; when the insert of the participants is
    then refused, the error is thrown and the environment stays inserted:
    no query takes it back. When all goes well there is one participant
    row per participant, in order, each with the [id] the database gave
    the environment. *)
Theorem createEnvironment_is_not_undone {Fields : Type} (environment : Input Fields)
    (user : option string) (inserted : Outcome (Row Fields)) (linked : option string) :
  let m := createEnvironment environment user inserted linked in
  (user = None ->
   outcome m = inl "User not authenticated" /\ Forall (fun q => writes q = false) (sent m))
  /\ Forall (fun q => removes q = false) (sent m)
  /\ (forall user_id env p ps,
        user = Some user_id -> inserted = Resolved env ->
        participants environment = Some (p :: ps) ->
        sent m = [ GetUser; InsertEnvironment (envData environment) user_id;
                   InsertParticipants (participantData (rowId env) (p :: ps)) ]
        /\ outcome m = match linked with
                       | Some e => inl e
                       | None => inr env
                       end).
Proof.
  cbv zeta. unfold createEnvironment, bind, query, throw, ret, sent, outcome.
  split; [intros ->; cbn; split; [reflexivity|repeat constructor]|].
  split.
  - destruct user as [u|]; cbn; [|repeat constructor].
    destruct inserted as [env|e]; cbn; [|repeat constructor].
    destruct (participants environment) as [[|p ps]|]; cbn; try (repeat constructor).
    destruct linked; cbn; repeat constructor.
  - intros u env p ps -> -> ->. cbn. destruct linked; cbn; split; reflexivity.
Qed.

Lemma createEnvironment_is_not_undone_witness :
  let ada := {| EnvironmentForm.id := "p1"; EnvironmentForm.fields := Sample.ada |} in
  let m := createEnvironment
             {| participants := Some [ada]; envData := "Team Brainstorm" |}
             (Some "u1")
             (Resolved {| rowId := "e1"; columns := "Team Brainstorm" |})
             (Some "permission denied") in
  sent m = [ GetUser; InsertEnvironment "Team Brainstorm" "u1";
             InsertParticipants [ {| environment_id := "e1"; persona_id := "p1" |} ] ]
  /\ outcome m = inl "permission denied".
Proof.
  intros ada m.
  exact (proj2 (proj2 (createEnvironment_is_not_undone
                         {| participants := Some [ada]; envData := "Team Brainstorm" |}
                         (Some "u1")
                         (Resolved {| rowId := "e1"; columns := "Team Brainstorm" |})
                         (Some "permission denied")))
           "u1" {| rowId := "e1"; columns := "Team Brainstorm" |} ada []
           eq_refl eq_refl eq_refl).
Defined.

(** [updateEnvironment] does not look at what the removal of the old
    participants brought: whether it failed or not, the same queries are
    sent and the same result comes back. So when the removal fails and the
    insert is accepted, the call succeeds, and the new participants have
    been added to the old ones. *)
Theorem updateEnvironment_ignores_failed_removal {Fields : Type} (id : string)
    (updates : Input Fields) (updated : Outcome (Row Fields))
    (removed : option string) (linked : option string) :
  updateEnvironment id updates updated removed linked
  = updateEnvironment id updates updated None linked
  /\ (forall env p ps,
        updated = Resolved env -> participants updates = Some (p :: ps) ->
        linked = None ->
        outcome (updateEnvironment id updates updated removed linked) = inr env
        /\ sent (updateEnvironment id updates updated removed linked)
           = [ UpdateEnvironment id (envData updates); DeleteParticipants id;
               InsertParticipants (participantData id (p :: ps)) ]).
Proof.
  unfold updateEnvironment, bind, query, throw, ret, sent, outcome.
  split.
  - destruct updated as [env|e]; [|reflexivity].
    destruct (participants updates) as [[|p ps]|]; reflexivity.
  - intros env p ps -> -> ->. split; reflexivity.
Qed.

Lemma updateEnvironment_ignores_failed_removal_witness :
  let ada := {| EnvironmentForm.id := "p1"; EnvironmentForm.fields := Sample.ada |} in
  let m := updateEnvironment "e1"
             {| participants := Some [ada]; envData := "Team Brainstorm" |}
             (Resolved {| rowId := "e1"; columns := "Team Brainstorm" |})
             (Some "timeout") None in
  outcome m = inr {| rowId := "e1"; columns := "Team Brainstorm" |}.
Proof.
  intros ada m.
  exact (proj1 (proj2 (updateEnvironment_ignores_failed_removal "e1"
                         {| participants := Some [ada]; envData := "Team Brainstorm" |}
                         (Resolved {| rowId := "e1"; columns := "Team Brainstorm" |})
                         (Some "timeout") None)
                  {| rowId := "e1"; columns := "Team Brainstorm" |} ada []
                  eq_refl eq_refl eq_refl)).
Defined.

End DbProps.
